(** * AIPoker: hand evaluation, betting rounds and the decision boundary

    A shallow embedding of [hand_evaluator.py], [player.py], [deck.py],
    [game.py], [ollama_integration.py] and of the round reset of [gui.py].

    Conventions.  Python integers are [Z]; a card is a pair (rank, suit);
    a [Counter] is an association list in first-insertion order, which is
    the order Python's [items()], [values()] and key iteration follow; a
    Python exception ([IndexError] on [[...][0]], [ValueError] on [max] of
    an empty list, a failing [pop], a modulo by zero) is the result [None]. *)

From Stdlib Require Import ZArith List Bool String Ascii DecimalString.
From Stdlib Require Import Permutation Lia.
Import ListNotations.
Local Open Scope Z_scope.

(* ================================================================== *)
(** ** Cards *)

Inductive Suit : Type := hearts | diamonds | clubs | spades.

Definition Suit_eqb (a b : Suit) : bool :=
  match a, b with
  | hearts, hearts | diamonds, diamonds | clubs, clubs | spades, spades => true
  | _, _ => false
  end.

Definition Card : Type := Z * Suit.

(* ================================================================== *)
(** ** Python built-ins used by the evaluator *)

Module Py.

Section CounterDef.
Context {K : Type} (eqb : K -> K -> bool).

(** [c[k] += 1] on a dict that keeps insertion order. *)
Fixpoint incr (k : K) (c : list (K * nat)) : list (K * nat) :=
  match c with
  | [] => [(k, 1%nat)]
  | (k', n) :: c' =>
      if eqb k k' then (k', S n) :: c' else (k', n) :: incr k c'
  end.

(** [collections.Counter(l)]: elements are counted from left to right. *)
Definition Counter (l : list K) : list (K * nat) :=
  fold_left (fun c k => incr k c) l [].

Definition mem (k : K) (l : list K) : bool := existsb (eqb k) l.

(** [l.count(k)]. *)
Definition count (l : list K) (k : K) : nat :=
  List.length (filter (eqb k) l).

(** [c[k]] on a counter: 0 for a missing key. *)
Fixpoint get (c : list (K * nat)) (k : K) : nat :=
  match c with
  | [] => 0%nat
  | (k', n) :: c' => if eqb k k' then n else get c' k
  end.
End CounterDef.

Definition keys {K V} (c : list (K * V)) : list K := map fst c.
Definition values {K V} (c : list (K * V)) : list V := map snd c.

(** [n in xs] and [xs.count(n)] on lists of counts. *)
Definition nat_in (n : nat) (xs : list nat) : bool := existsb (Nat.eqb n) xs.
Definition nat_count (n : nat) (xs : list nat) : nat :=
  List.length (filter (Nat.eqb n) xs).

(** [sorted(l)] on integers (insertion sort, ascending). *)
Fixpoint insert (x : Z) (l : list Z) : list Z :=
  match l with
  | [] => [x]
  | y :: l' => if x <=? y then x :: l else y :: insert x l'
  end.

Definition sorted (l : list Z) : list Z := fold_right insert [] l.

(** [sorted(l, reverse=True)]. *)
Definition sorted_reverse (l : list Z) : list Z := rev (sorted l).

(** [set(l)], listed without repetition. *)
Definition set (l : list Z) : list Z := nodup Z.eq_dec l.

(** [max(l)]; [None] is the [ValueError] of an empty argument. *)
Definition max (l : list Z) : option Z :=
  match l with
  | [] => None
  | x :: l' => Some (fold_left Z.max l' x)
  end.

(** [list(range(a, a + 5))]. *)
Definition range5 (a : Z) : list Z := [a; a + 1; a + 2; a + 3; a + 4].

(** [l[i:i+5]] for [i >= 0]. *)
Definition window5 (l : list Z) (i : nat) : list Z := firstn 5 (skipn i l).

(** Normalisation of one bound of a slice with a negative step
    (CPython's [PySlice_AdjustIndices]). *)
Definition adjust_neg (len b : Z) : Z :=
  if b <? 0 then (if b + len <? 0 then -1 else b + len)
  else if len <=? b then len - 1 else b.

(** Elements at indices [start, start-1, ...], [n] of them. *)
Fixpoint walk_down (l : list Z) (start : Z) (n : nat) : list Z :=
  match n with
  | O => []
  | S n' =>
      match nth_error l (Z.to_nat start) with
      | Some x => x :: walk_down l (start - 1) n'
      | None => []
      end
  end.

(** [l[start:stop:-1]]. *)
Definition slice_down (l : list Z) (start stop : Z) : list Z :=
  let len := Z.of_nat (List.length l) in
  let a := adjust_neg len start in
  let b := adjust_neg len stop in
  if b <? a then walk_down l a (Z.to_nat (a - b)) else [].

(** [a > b] on lists of integers: the first difference decides, and a
    proper extension is greater than its prefix. *)
Fixpoint list_gt (a b : list Z) : bool :=
  match a, b with
  | [], _ => false
  | _ :: _, [] => true
  | x :: a', y :: b' =>
      if y <? x then true else if x <? y then false else list_gt a' b'
  end.

End Py.

(* ================================================================== *)
(** ** hand_evaluator.py *)

Definition is_four_of_a_kind (rank_counts : list (Z * nat)) : bool :=
  Py.nat_in 4 (Py.values rank_counts).

Definition is_full_house (rank_counts : list (Z * nat)) : bool :=
  Py.nat_in 3 (Py.values rank_counts) && Py.nat_in 2 (Py.values rank_counts).

Definition is_flush (suit_counts : list (Suit * nat)) : bool :=
  existsb (fun count => (5 <=? count)%nat) (Py.values suit_counts).

(** The test of one window of the scan, shared by [is_straight] and
    [get_best_straight]. *)
Definition window_is_run (unique_ranks : list Z) (i : nat) : bool :=
  match nth_error unique_ranks i with
  | Some a =>
      if list_eq_dec Z.eq_dec (Py.window5 unique_ranks i) (Py.range5 a)
      then true else false
  | None => false
  end.

Definition wheel_subset (unique_ranks : list Z) : bool :=
  forallb (fun r => Py.mem Z.eqb r unique_ranks) [14; 2; 3; 4; 5].

Definition is_straight (ranks : list Z) : bool :=
  let unique_ranks := Py.sorted (Py.set ranks) in
  if (List.length unique_ranks <? 5)%nat then false
  else if existsb (window_is_run unique_ranks)
            (seq 0 (List.length unique_ranks - 4))
  then true
  else wheel_subset unique_ranks.

Definition is_straight_flush (all_cards : list Card) : bool :=
  let suits := map snd all_cards in
  let suit_counts := Py.Counter Suit_eqb suits in
  existsb
    (fun sc : Suit * nat =>
       let (suit, count) := sc in
       (5 <=? count)%nat &&
       is_straight
         (map fst (filter (fun card : Card => Suit_eqb (snd card) suit) all_cards)))
    suit_counts.

Definition is_three_of_a_kind (rank_counts : list (Z * nat)) : bool :=
  Py.nat_in 3 (Py.values rank_counts).

Definition is_two_pair (rank_counts : list (Z * nat)) : bool :=
  (2 <=? Py.nat_count 2 (Py.values rank_counts))%nat.

Definition is_one_pair (rank_counts : list (Z * nat)) : bool :=
  Py.nat_in 2 (Py.values rank_counts).

Definition get_high_card (ranks : list Z) : list Z := Py.sorted_reverse ranks.

Definition get_best_straight (ranks : list Z) : list Z :=
  let unique_ranks := Py.sorted (Py.set ranks) in
  match find (window_is_run unique_ranks)
          (seq 0 (List.length unique_ranks - 4)) with
  | Some i =>
      Py.slice_down unique_ranks (Z.of_nat i + 4) (Z.of_nat i - 1)
  | None =>
      if wheel_subset unique_ranks then [5; 4; 3; 2; 14] else []
  end.

(** [[rank for rank, count in rank_counts.items() if count == n]]. *)
Definition ranks_with_count (n : nat) (rank_counts : list (Z * nat)) : list Z :=
  Py.keys (filter (fun rc : Z * nat => Nat.eqb (snd rc) n) rank_counts).

Definition get_best_four_of_a_kind (rank_counts : list (Z * nat))
  : option (list Z) :=
  match hd_error (ranks_with_count 4 rank_counts) with
  | None => None
  | Some four_rank =>
      match Py.max (filter (fun rank => negb (rank =? four_rank))
                      (Py.keys rank_counts)) with
      | None => None
      | Some kicker => Some [four_rank; kicker]
      end
  end.

Definition get_best_full_house (rank_counts : list (Z * nat))
  : option (list Z) :=
  match hd_error (ranks_with_count 3 rank_counts) with
  | None => None
  | Some three_rank =>
      match hd_error (ranks_with_count 2 rank_counts) with
      | None => None
      | Some pair_rank => Some [three_rank; pair_rank]
      end
  end.

Definition get_best_flush (all_cards : list Card) : option (list Z) :=
  let suits := map snd all_cards in
  let suit_counts := Py.Counter Suit_eqb suits in
  match hd_error
          (Py.keys (filter (fun sc : Suit * nat => (5 <=? snd sc)%nat)
                      suit_counts)) with
  | None => None
  | Some flush_suit =>
      let flush_cards :=
        map fst (filter (fun card : Card => Suit_eqb (snd card) flush_suit)
                   all_cards) in
      Some (firstn 5 (Py.sorted_reverse flush_cards))
  end.

Definition get_best_three_of_a_kind (rank_counts : list (Z * nat))
    (all_ranks : list Z) : option (list Z) :=
  match hd_error (ranks_with_count 3 rank_counts) with
  | None => None
  | Some three_rank =>
      let kickers :=
        firstn 2 (Py.sorted_reverse
                    (filter (fun rank => negb (rank =? three_rank)) all_ranks)) in
      Some (three_rank :: kickers)
  end.

Definition get_best_two_pair (rank_counts : list (Z * nat))
    (all_ranks : list Z) : option (list Z) :=
  let pairs := firstn 2 (Py.sorted_reverse (ranks_with_count 2 rank_counts)) in
  match Py.max (filter (fun rank => negb (Py.mem Z.eqb rank pairs)) all_ranks) with
  | None => None
  | Some kicker => Some (pairs ++ [kicker])
  end.

Definition get_best_one_pair (rank_counts : list (Z * nat))
    (all_ranks : list Z) : option (list Z) :=
  match hd_error (ranks_with_count 2 rank_counts) with
  | None => None
  | Some pair' =>
      let kickers :=
        firstn 3 (Py.sorted_reverse
                    (filter (fun rank => negb (rank =? pair')) all_ranks)) in
      Some (pair' :: kickers)
  end.

(** The score paired with the tie-break, when the tie-break is computed. *)
Definition scored (hand_rank : Z) (best : option (list Z))
  : option (Z * list Z) :=
  match best with
  | Some best_ranks => Some (hand_rank, best_ranks)
  | None => None
  end.

Definition evaluate_hand (hand community_cards : list Card)
  : option (Z * list Z) :=
  let all_cards := hand ++ community_cards in
  let all_ranks := map fst all_cards in
  let all_suits := map snd all_cards in
  let rank_counts := Py.Counter Z.eqb all_ranks in
  let suit_counts := Py.Counter Suit_eqb all_suits in
  if is_straight_flush all_cards then
    Some (9, get_best_straight all_ranks)
  else if is_four_of_a_kind rank_counts then
    scored 8 (get_best_four_of_a_kind rank_counts)
  else if is_full_house rank_counts then
    scored 7 (get_best_full_house rank_counts)
  else if is_flush suit_counts then
    scored 6 (get_best_flush all_cards)
  else if is_straight all_ranks then
    Some (5, get_best_straight all_ranks)
  else if is_three_of_a_kind rank_counts then
    scored 4 (get_best_three_of_a_kind rank_counts all_ranks)
  else if is_two_pair rank_counts then
    scored 3 (get_best_two_pair rank_counts all_ranks)
  else if is_one_pair rank_counts then
    scored 2 (get_best_one_pair rank_counts all_ranks)
  else
    Some (1, get_high_card all_ranks).

(* ================================================================== *)
(** ** ollama_integration.py

    A [str] is a [string] of code points below 128 ([is_ascii]).  On
    such text [str.lower] maps [A-Z] to [a-z], the word characters of the
    pattern's [\b] are [[A-Za-z0-9_]], and [str.strip] removes the
    characters 9 to 13 and 28 to 32.  Python classifies and lowers the
    other Unicode characters too (a letter with an accent is a word
    character), which the functions below do not: what is stated of the
    characters of a text is stated of ASCII text.  The HTTP exchange is
    an oracle: [post n] is the outcome of the [n]-th request of one call
    of [get_ai_decision]. *)

Module Ollama.

Local Open Scope string_scope.
Local Open Scope N_scope.

Definition between (lo hi : N) (c : ascii) : bool :=
  (lo <=? N_of_ascii c) && (N_of_ascii c <=? hi).

(** The text holds ASCII characters only. *)
Fixpoint is_ascii (s : string) : bool :=
  match s with
  | EmptyString => true
  | String c s' => (N_of_ascii c <? 128) && is_ascii s'
  end.

Definition is_upper (c : ascii) : bool := between 65 90 c.

Definition lower_char (c : ascii) : ascii :=
  if is_upper c then ascii_of_N (N_of_ascii c + 32) else c.

Fixpoint lower (s : string) : string :=
  match s with
  | EmptyString => EmptyString
  | String c s' => String (lower_char c) (lower s')
  end.

Definition is_word_char (c : ascii) : bool :=
  between 48 57 c || between 65 90 c || between 97 122 c || (N_of_ascii c =? 95).

Definition is_space (c : ascii) : bool :=
  between 9 13 c || between 28 32 c.

Fixpoint lstrip (s : string) : string :=
  match s with
  | EmptyString => EmptyString
  | String c s' => if is_space c then lstrip s' else s
  end.

Fixpoint rstrip (s : string) : string :=
  match s with
  | EmptyString => EmptyString
  | String c s' =>
      match rstrip s' with
      | EmptyString => if is_space c then EmptyString else String c EmptyString
      | r => String c r
      end
  end.

Definition strip (s : string) : string := rstrip (lstrip s).

(** *** The pattern [\b(fold|check|bet|raise)\b] *)

Definition valid_actions : list string := ["fold"; "check"; "bet"; "raise"].

Definition head (s : string) : option ascii :=
  match s with
  | EmptyString => None
  | String c _ => Some c
  end.

Definition word_side (c : option ascii) : bool :=
  match c with
  | Some c => is_word_char c
  | None => false
  end.

(** [\b] between the character [before] and the character [after]. *)
Definition word_boundary (before after : option ascii) : bool :=
  xorb (word_side before) (word_side after).

(** The literal [k] at the front of [s], then [\b]. *)
Fixpoint match_literal (before : option ascii) (k s : string) : bool :=
  match k with
  | EmptyString => word_boundary before (head s)
  | String a k' =>
      match s with
      | EmptyString => false
      | String c s' => Ascii.eqb a c && match_literal (Some c) k' s'
      end
  end.

(** One alternative of the pattern, tried where [s] begins. *)
Definition match_here (before : option ascii) (s k : string) : bool :=
  word_boundary before (head s) && match_literal before k s.

(** [re.search]: the leftmost position where an alternative matches, the
    alternatives being tried in the order of the pattern. *)
Fixpoint search (before : option ascii) (s : string) : option string :=
  match find (match_here before s) valid_actions with
  | Some k => Some k
  | None =>
      match s with
      | EmptyString => None
      | String c s' => search (Some c) s'
      end
  end.

Definition sanitize_decision (decision : string) : string :=
  match search None (lower decision) with
  | Some action => action
  | None => "check"
  end.

Inductive Response : Type :=
| RequestException
| Content (content : string).

Definition is_valid (action : string) : bool :=
  existsb (String.eqb action) valid_actions.

(** The retry loop, [attempt] being the number of the request. *)
Fixpoint attempts (post : nat -> Response) (attempt remaining : nat) : string :=
  match remaining with
  | O => "fold"
  | S remaining' =>
      match post attempt with
      | RequestException => "fold"
      | Content content =>
          let decision := lower (strip content) in
          let valid_action := sanitize_decision decision in
          if is_valid valid_action then valid_action
          else attempts post (S attempt) remaining'
      end
  end.

Definition get_ai_decision (post : nat -> Response) (max_retries : nat)
  : string :=
  attempts post 0 max_retries.

(** *** Where a keyword stands as a word *)

(** The keyword [k] stands in [s] at offset [n] as a word of its own:
    the characters around it, if any, are no word characters.  [before]
    is the character in front of [s]. *)
Definition hit (before : option ascii) (s : string) (n : nat) (k : string)
  : Prop :=
  In k valid_actions /\
  substring n (String.length k) s = k /\
  word_side (match n with O => before | S m => String.get m s end) = false /\
  word_side (String.get (n + String.length k) s) = false.

Fixpoint all_word (k : string) : bool :=
  match k with
  | EmptyString => true
  | String a k' => is_word_char a && all_word k'
  end.

(** The keyword [k] occurs in [text] at offset [n], whatever the case
    of the letters and whatever surrounds it. *)
Definition occurs_at (text : string) (n : nat) (k : string) : Prop :=
  In k valid_actions /\ substring n (String.length k) (lower text) = k.

(** The keyword [k] stands in [text] at offset [n] as a word of its own,
    whatever the case of the letters. *)
Definition word_at (text : string) (n : nat) (k : string) : Prop :=
  hit None (lower text) n k.

End Ollama.

(* ================================================================== *)
(** ** player.py

    What happens outside the program during one turn is an oracle:
    [post] answers the requests of [get_ai_decision], and [pick] selects
    the value drawn by [random.randint].  Output on [stdout] is not
    modelled. *)

Record Turn : Type := {
  post : nat -> Ollama.Response;
  pick : Z
}.

Record AIPlayer : Type := {
  name : string;
  chips : Z;
  hand : list Card;
  current_bet : Z;
  is_active : bool
}.

(** [random.randint(a, b)] for [a <= b], the only way it is called. *)
Definition randint (a b pick : Z) : Z := a + pick mod (b - a + 1).

Definition deal_hand (self : AIPlayer) (new_hand : list Card) : AIPlayer :=
  {| name := name self; chips := chips self; hand := new_hand;
     current_bet := current_bet self; is_active := is_active self |}.

Definition calculate_bet_amount (self : AIPlayer) (table_bet pick : Z) : Z :=
  let bet_min := Z.max table_bet 50 in
  let bet_max := Z.min (chips self) (table_bet + 200) in
  if bet_max <? bet_min then chips self
  else randint bet_min bet_max pick.

Definition calculate_raise_amount (self : AIPlayer) (table_bet pick : Z) : Z :=
  if chips self <=? table_bet * 2 then chips self
  else
    let raise_min := table_bet * 2 in
    let raise_max := Z.min (chips self) (table_bet * 3 + 100) in
    if raise_max <? raise_min then chips self
    else randint raise_min raise_max pick.

(** [self.is_active = False]. *)
Definition fold (self : AIPlayer) : AIPlayer :=
  {| name := name self; chips := chips self; hand := hand self;
     current_bet := current_bet self; is_active := false |}.

(** [self.chips -= amount; self.current_bet = amount]. *)
Definition commit (self : AIPlayer) (amount : Z) : AIPlayer :=
  {| name := name self; chips := chips self - amount; hand := hand self;
     current_bet := amount; is_active := is_active self |}.

(** [make_decision]: the decision returned and the player afterwards.
    [table_bet] is the parameter [current_bet] of the source. *)
Definition make_decision (turn : Turn) (self : AIPlayer)
    (community_cards : list Card) (table_bet : Z) : string * AIPlayer :=
  if negb (is_active self) then ("fold"%string, self)
  else
    let decision := Ollama.get_ai_decision (post turn) 2 in
    if String.eqb decision "fold" then (decision, fold self)
    else if String.eqb decision "check" then (decision, self)
    else if String.eqb decision "bet" then
      (decision, commit self (calculate_bet_amount self table_bet (pick turn)))
    else if String.eqb decision "raise" then
      (decision, commit self (calculate_raise_amount self table_bet (pick turn)))
    else (decision, fold self).

Definition reset_for_next_round (self : AIPlayer) : AIPlayer :=
  {| name := name self; chips := chips self; hand := [];
     current_bet := 0; is_active := true |}.

(* ================================================================== *)
(** ** deck.py

    The deck is the list [cards]; [pop] takes its last element.  The
    result of [random.shuffle] is given by a function [shuffle]. *)

Module Deck.

Definition suits : list Suit := [hearts; diamonds; clubs; spades].

Definition full : list Card :=
  flat_map (fun rank => map (fun suit => (rank, suit)) suits)
    (map Z.of_nat (seq 2 13)).

Definition reset (shuffle : list Card -> list Card) : list Card := shuffle full.

(** [self.cards.pop()]; [None] is the [IndexError] of an empty deck. *)
Definition pop (cards : list Card) : option (Card * list Card) :=
  match rev cards with
  | [] => None
  | card :: rest => Some (card, rev rest)
  end.

(** [[self.cards.pop() for _ in range(n)]]. *)
Fixpoint deal (n : nat) (cards : list Card) : option (list Card * list Card) :=
  match n with
  | O => Some ([], cards)
  | S n' =>
      match pop cards with
      | None => None
      | Some (card, cards') =>
          match deal n' cards' with
          | None => None
          | Some (dealt, cards'') => Some (card :: dealt, cards'')
          end
      end
  end.

Definition deal_hand := deal 2.
Definition deal_flop := deal 3.
Definition deal_turn := pop.
Definition deal_river := pop.

End Deck.

(* ================================================================== *)
(** ** game.py

    The log holds one entry per appended line, with the values the line
    is formatted from. *)

Inductive LogLine : Type :=
| NewRound
| Dealt (player_name : string) (cards : list Card)
| BettingRound (round_name : string)
| Action (player_name decision : string) (amount : Z)
| Board (street : string) (cards : list Card)
| NoActivePlayers
| HandValue (player_name : string) (hand_value : Z) (best_ranks : list Z)
    (description : string)
| Winner (player_name : string) (cards community : list Card)
| NoWinner.

Record PokerGame : Type := {
  num_players : Z;
  players : list AIPlayer;
  deck : list Card;
  community_cards : list Card;
  pot : Z;
  log : list LogLine;
  dealer_position : Z
}.

Definition player_name (i : nat) : string :=
  String.append "AI Player " (NilZero.string_of_uint (Nat.to_uint (S i))).

(** [PokerGame(num_players, starting_chips)]. *)
Definition new_game (shuffle : list Card -> list Card)
    (n : nat) (starting_chips : Z) : PokerGame :=
  {| num_players := Z.of_nat n;
     players :=
       map (fun i => {| name := player_name i; chips := starting_chips;
                        hand := []; current_bet := 0; is_active := true |})
         (seq 0 n);
     deck := Deck.reset shuffle;
     community_cards := [];
     pot := 0;
     log := [];
     dealer_position := 0 |}.

(** The state threaded through the loop of [betting_round]. *)
Record Pass : Type := {
  seated : list AIPlayer;
  table_bet : Z;
  pass_pot : Z;
  pass_log : list LogLine
}.

(** The loop of [betting_round] over the players from seat [i] on. *)
Fixpoint betting_loop (env : nat -> Turn) (community : list Card) (i : nat)
    (todo : list AIPlayer) (bet pot0 : Z) (log0 : list LogLine) : Pass :=
  match todo with
  | [] => {| seated := []; table_bet := bet; pass_pot := pot0; pass_log := log0 |}
  | player :: rest =>
      if is_active player then
        let (decision, player') := make_decision (env i) player community bet in
        let bet' := if bet <? current_bet player' then current_bet player' else bet in
        let pot' := pot0 + current_bet player' in
        let log' := log0 ++ [Action (name player') decision (current_bet player')] in
        let r := betting_loop env community (S i) rest bet' pot' log' in
        {| seated := player' :: seated r; table_bet := table_bet r;
           pass_pot := pass_pot r; pass_log := pass_log r |}
      else
        let r := betting_loop env community (S i) rest bet pot0 log0 in
        {| seated := player :: seated r; table_bet := table_bet r;
           pass_pot := pass_pot r; pass_log := pass_log r |}
  end.

Definition betting_round (round_name : string) (env : nat -> Turn)
    (self : PokerGame) : PokerGame :=
  let r := betting_loop env (community_cards self) 0 (players self) 0
             (pot self) (log self ++ [BettingRound round_name]) in
  {| num_players := num_players self; players := seated r;
     deck := deck self; community_cards := community_cards self;
     pot := pass_pot r; log := pass_log r;
     dealer_position := dealer_position self |}.

(** The loop of [play_pre_flop] that deals the hole cards. *)
Fixpoint deal_players (todo : list AIPlayer) (cards : list Card)
    (log0 : list LogLine)
  : option (list AIPlayer * list Card * list LogLine) :=
  match todo with
  | [] => Some ([], cards, log0)
  | player :: rest =>
      match Deck.deal_hand cards with
      | None => None
      | Some (dealt, cards') =>
          let player' := deal_hand player dealt in
          match deal_players rest cards'
                  (log0 ++ [Dealt (name player') (hand player')]) with
          | None => None
          | Some (rest', cards'', log') => Some (player' :: rest', cards'', log')
          end
      end
  end.

(** [play_pre_flop] up to the call of [betting_round]. *)
Definition pre_flop_deal (shuffle : list Card -> list Card) (self : PokerGame)
  : option PokerGame :=
  if num_players self =? 0 then None
  else
    match deal_players (players self) (Deck.reset shuffle)
            (log self ++ [NewRound]) with
    | None => None
    | Some (players', cards, log') =>
        Some {| num_players := num_players self; players := players';
                deck := cards; community_cards := []; pot := 0; log := log';
                dealer_position :=
                  (dealer_position self + 1) mod num_players self |}
    end.

Definition play_pre_flop (shuffle : list Card -> list Card)
    (env : nat -> Turn) (self : PokerGame) : option PokerGame :=
  match pre_flop_deal shuffle self with
  | None => None
  | Some dealt => Some (betting_round "Pre-Flop" env dealt)
  end.

Definition play_flop (env : nat -> Turn) (self : PokerGame)
  : option PokerGame :=
  match Deck.deal_flop (deck self) with
  | None => None
  | Some (flop, cards) =>
      Some (betting_round "Flop" env
              {| num_players := num_players self; players := players self;
                 deck := cards; community_cards := flop; pot := pot self;
                 log := log self ++ [Board "Flop" flop];
                 dealer_position := dealer_position self |})
  end.

(** [play_turn] and [play_river] differ in the name of the street only. *)
Definition play_street (street : string) (env : nat -> Turn)
    (self : PokerGame) : option PokerGame :=
  match Deck.pop (deck self) with
  | None => None
  | Some (card, cards) =>
      let community := community_cards self ++ [card] in
      Some (betting_round street env
              {| num_players := num_players self; players := players self;
                 deck := cards; community_cards := community; pot := pot self;
                 log := log self ++ [Board street community];
                 dealer_position := dealer_position self |})
  end.

Definition play_turn := play_street "Turn".
Definition play_river := play_street "River".

Definition describe_hand_value (hand_value : Z) : string :=
  if 8 <=? hand_value then "Straight Flush"
  else if hand_value =? 7 then "Four of a Kind"
  else if hand_value =? 6 then "Full House"
  else if hand_value =? 5 then "Flush"
  else if hand_value =? 4 then "Straight"
  else if hand_value =? 3 then "Three of a Kind"
  else if hand_value =? 2 then "Two Pair"
  else if hand_value =? 1 then "One Pair"
  else "High Card".

Definition any_active_players (self : PokerGame) : bool :=
  existsb is_active (players self).

(** The state of the loop of [determine_winner]; [evaluated] records the
    arguments of every call of [evaluate_hand], in order. *)
Record Showdown : Type := {
  best_hand_value : option (Z * list Z);
  best_player : option AIPlayer;
  winning_hand : string;
  showdown_log : list LogLine;
  evaluated : list (list Card * list Card)
}.

Definition better (hand_value : Z) (best_ranks : list Z)
    (best : option (Z * list Z)) : bool :=
  match best with
  | None => true
  | Some (value, ranks) =>
      if value <? hand_value then true
      else (hand_value =? value) && Py.list_gt best_ranks ranks
  end.

Fixpoint showdown_loop (community : list Card) (active_players : list AIPlayer)
    (st : Showdown) : option Showdown :=
  match active_players with
  | [] => Some st
  | player :: rest =>
      match evaluate_hand (hand player) community with
      | None => None
      | Some (hand_value, best_ranks) =>
          let hand_description := describe_hand_value hand_value in
          let log' :=
            showdown_log st ++
            [HandValue (name player) hand_value best_ranks hand_description] in
          let calls := evaluated st ++ [(hand player, community)] in
          showdown_loop community rest
            (if better hand_value best_ranks (best_hand_value st) then
               {| best_hand_value := Some (hand_value, best_ranks);
                  best_player := Some player;
                  winning_hand := hand_description;
                  showdown_log := log'; evaluated := calls |}
             else
               {| best_hand_value := best_hand_value st;
                  best_player := best_player st;
                  winning_hand := winning_hand st;
                  showdown_log := log'; evaluated := calls |})
      end
  end.

(** [determine_winner]: the pair returned is ([best_player],
    [winning_hand]); [showdown_log] is the log of the game afterwards. *)
Definition determine_winner (self : PokerGame) : option Showdown :=
  let active_players := filter is_active (players self) in
  match active_players with
  | [] =>
      Some {| best_hand_value := None; best_player := None;
              winning_hand := "No winner";
              showdown_log := log self ++ [NoActivePlayers];
              evaluated := [] |}
  | _ :: _ =>
      match showdown_loop (community_cards self) active_players
              {| best_hand_value := None; best_player := None;
                 winning_hand := EmptyString; showdown_log := log self;
                 evaluated := [] |} with
      | None => None
      | Some st =>
          Some {| best_hand_value := best_hand_value st;
                  best_player := best_player st;
                  winning_hand := winning_hand st;
                  showdown_log :=
                    showdown_log st ++
                    [match best_player st with
                     | Some p => Winner (name p) (hand p) (community_cards self)
                     | None => NoWinner
                     end];
                  evaluated := evaluated st |}
      end
  end.

(* ================================================================== *)
(** ** gui.py: the reset between two rounds *)

(** [reset_game_for_next_round], on the game it works on; the stage
    counter and the timer of the window are not modelled. *)
Definition reset_game_for_next_round (shuffle : list Card -> list Card)
    (game : PokerGame) : PokerGame :=
  {| num_players := num_players game;
     players := map reset_for_next_round (players game);
     deck := Deck.reset shuffle;
     community_cards := [];
     pot := 0;
     log := log game ++ [NewRound];
     dealer_position := dealer_position game |}.

(* ================================================================== *)
(** ** Notions used in the statements *)

(** What the deal changes of a player: the hole cards only. *)
Definition dealt_in (before after : AIPlayer) : Prop :=
  name after = name before /\
  chips after = chips before /\
  current_bet after = current_bet before /\
  is_active after = is_active before /\
  List.length (hand after) = 2%nat.

(** The bets on record of the players that were asked, after their turn. *)
Fixpoint asked_bets (before after : list AIPlayer) : Z :=
  match before, after with
  | p :: before', p' :: after' =>
      (if is_active p then current_bet p' else 0) + asked_bets before' after'
  | _, _ => 0
  end.

(* ================================================================== *)
(** ** Hands and games used as examples *)

Module Ex.

Local Open Scope string_scope.

Definition wheel_hand : list Card := [(14, hearts); (2, diamonds)].
Definition wheel_board : list Card := [(3, clubs); (4, spades); (5, hearts)].

Definition six_high_hand : list Card := [(2, hearts); (3, diamonds)].
Definition six_high_board : list Card := [(4, clubs); (5, spades); (6, hearts)].

Definition gapped_hand : list Card := [(2, hearts); (4, diamonds)].
Definition gapped_board : list Card :=
  [(5, clubs); (6, spades); (7, hearts); (8, clubs); (9, clubs)].

Definition fives_hand : list Card := [(5, hearts); (5, clubs)].
Definition fives_board : list Card :=
  [(5, spades); (9, clubs); (9, hearts); (2, diamonds); (2, spades)].

Definition deuces_hand : list Card := [(2, diamonds); (2, spades)].
Definition deuces_board : list Card :=
  [(5, hearts); (5, clubs); (5, spades); (9, clubs); (9, hearts)].

Definition triples_board : list Card :=
  [(5, spades); (9, clubs); (9, hearts); (9, diamonds); (2, spades)].

Definition royal_hand : list Card := [(14, hearts); (13, hearts)].
Definition royal_board : list Card :=
  [(12, hearts); (11, hearts); (10, hearts); (2, clubs); (3, spades)].

(** A shuffle that leaves the deck as it was built. *)
Definition in_order (cards : list Card) : list Card := cards.

(** A turn in which the model answers [text] and [randint] draws the
    lower bound. *)
Definition answers (text : string) : Turn :=
  {| post := fun _ => Ollama.Content text; pick := 0 |}.

Definition bet_then_check (seat : nat) : Turn :=
  match seat with
  | O => answers "bet"
  | _ => answers "check"
  end.

Definition all_check (seat : nat) : Turn := answers "check".

Definition heads_up : PokerGame := new_game in_order 2 1000.

(** A showdown with one player left: the other one has folded. *)
Definition one_left : PokerGame :=
  {| num_players := 2;
     players :=
       [ {| name := "AI Player 1"; chips := 1000; hand := royal_hand;
            current_bet := 0; is_active := true |};
         {| name := "AI Player 2"; chips := 1000;
            hand := [(2, hearts); (7, clubs)];
            current_bet := 0; is_active := false |} ];
     deck := [];
     community_cards := royal_board;
     pot := 0;
     log := [];
     dealer_position := 1 |}.

Definition last_player : AIPlayer :=
  {| name := "AI Player 1"; chips := 1000; hand := royal_hand;
     current_bet := 0; is_active := true |}.

End Ex.

(* ================================================================== *)
(** ** ollama_integration.py: the choice of the model

    [tags] is the outcome of the request to the list of models: a
    failure of the request, or a status code with the names listed. *)

Module OllamaModels.

Local Open Scope string_scope.

Inductive TagsResponse : Type :=
| TagsFailed
| Tags (status_code : Z) (names : list string).

Definition get_available_models (tags : TagsResponse) : list string :=
  match tags with
  | TagsFailed => []
  | Tags status_code names => if (status_code =? 200)%Z then names else []
  end.

(** [needle in hay] on strings. *)
Fixpoint contains (needle hay : string) : bool :=
  String.prefix needle hay ||
  match hay with
  | EmptyString => false
  | String _ hay' => contains needle hay'
  end.

Definition poker_compatible (model : string) : bool :=
  contains "llama3" model || contains "command-r" model || contains "qwen" model.

Definition get_poker_compatible_model (tags : TagsResponse) : string :=
  match find poker_compatible (get_available_models tags) with
  | Some model => model
  | None => "llama3:latest"
  end.

End OllamaModels.

(* ================================================================== *)
From Stdlib Require Import Sorted.

(** ** Further notions used in the statements *)

(** All the cards of a game: in the hands, on the board, in the deck. *)
Definition cards_in_play (game : PokerGame) : list Card :=
  flat_map hand (players game) ++ community_cards game ++ deck game.

Definition total_chips (seats : list AIPlayer) : Z :=
  fold_right Z.add 0 (map chips seats).

(** The comparison of [determine_winner] between two evaluations. *)
Definition beats (a b : Z * list Z) : bool :=
  (fst b <? fst a) || ((fst a =? fst b) && Py.list_gt (snd a) (snd b)).

(** Five consecutive ranks, from [a] up. *)
Definition has_run (ranks : list Z) : Prop :=
  exists a, forall j, 0 <= j < 5 -> In (a + j) ranks.

(** The five consecutive ranks from [a] up are among [ranks]. *)
Definition run_at (ranks : list Z) (a : Z) : Prop :=
  forall j, 0 <= j < 5 -> In (a + j) ranks.

Definition has_wheel (ranks : list Z) : Prop :=
  In 14 ranks /\ In 2 ranks /\ In 3 ranks /\ In 4 ranks /\ In 5 ranks.

(** The name of a score, after the branch of [evaluate_hand] that
    returns it. *)
Definition category_name (hand_rank : Z) : string :=
  if hand_rank =? 9 then "Straight Flush"
  else if hand_rank =? 8 then "Four of a Kind"
  else if hand_rank =? 7 then "Full House"
  else if hand_rank =? 6 then "Flush"
  else if hand_rank =? 5 then "Straight"
  else if hand_rank =? 4 then "Three of a Kind"
  else if hand_rank =? 3 then "Two Pair"
  else if hand_rank =? 2 then "One Pair"
  else "High Card".

(** From the highest down. *)
Definition descending (l : list Z) : Prop := StronglySorted Z.ge l.

(** What a betting pass leaves of a seat: the name and the hole cards;
    a player out of the round is left as found, and none comes back. *)
Definition same_seat (before after : AIPlayer) : Prop :=
  name after = name before /\
  hand after = hand before /\
  (is_active before = false -> after = before) /\
  (is_active after = true -> is_active before = true).

(** The score that [evaluate_hand] gives to the cards, by the order of
    its tests. *)
Definition category (all_cards : list Card) : Z :=
  let rank_counts := Py.Counter Z.eqb (map fst all_cards) in
  let suit_counts := Py.Counter Suit_eqb (map snd all_cards) in
  if is_straight_flush all_cards then 9
  else if is_four_of_a_kind rank_counts then 8
  else if is_full_house rank_counts then 7
  else if is_flush suit_counts then 6
  else if is_straight (map fst all_cards) then 5
  else if is_three_of_a_kind rank_counts then 4
  else if is_two_pair rank_counts then 3
  else if is_one_pair rank_counts then 2
  else 1.

(** The line that [betting_round] logs for the turn of seat [i]: the
    name of the player, the decision received at that turn, and the bet
    that the player has on record after it. *)
Definition action_line (env : nat -> Turn) (i : nat) (after : AIPlayer)
  : LogLine :=
  Action (name after) (Ollama.get_ai_decision (post (env i)) 2)
    (current_bet after).

(** The lines of a betting pass over the seats from [i] on, [before]
    being the players as the pass finds them and [after] as it leaves
    them: one line for each player who was in the round. *)
Fixpoint action_lines (env : nat -> Turn) (i : nat)
    (before after : list AIPlayer) : list LogLine :=
  match before, after with
  | p :: before', p' :: after' =>
      if is_active p
      then action_line env i p' :: action_lines env (S i) before' after'
      else action_lines env (S i) before' after'
  | _, _ => []
  end.

(** [w], with the evaluation [score], is the first of the [seats] whose
    evaluation no other beats: every seat before it is beaten by it, and
    no seat after it beats it. *)
Definition first_best (community : list Card) (seats : list AIPlayer)
    (w : AIPlayer) (score : Z * list Z) : Prop :=
  exists before after,
    seats = before ++ w :: after /\
    evaluate_hand (hand w) community = Some score /\
    (forall q, In q before ->
       exists sq, evaluate_hand (hand q) community = Some sq /\
                  beats score sq = true) /\
    (forall q, In q after ->
       exists sq, evaluate_hand (hand q) community = Some sq /\
                  beats sq score = false).

(** The state of the loop of [determine_winner] once the seats [done]
    have been evaluated. *)
Definition leading (community : list Card) (done : list AIPlayer)
    (st : Showdown) : Prop :=
  (best_player st = None /\ best_hand_value st = None /\ done = []) \/
  (exists w score,
      best_player st = Some w /\ best_hand_value st = Some score /\
      winning_hand st = describe_hand_value (fst score) /\
      first_best community done w score).

(* ================================================================== *)
(** ** More examples *)

Module More.

Local Open Scope string_scope.

Definition seat (who : string) (cards : list Card) (active : bool) : AIPlayer :=
  {| name := who; chips := 1000; hand := cards; current_bet := 0;
     is_active := active |}.

(** A showdown of three players on the board of [Ex.royal_board]; a
    fourth player has folded. *)
Definition showdown : PokerGame :=
  {| num_players := 4;
     players :=
       [ seat "AI Player 1" [(2, hearts); (7, clubs)] true;
         seat "AI Player 2" [(9, hearts); (8, hearts)] true;
         seat "AI Player 3" [(14, spades); (14, clubs)] false;
         seat "AI Player 4" [(9, diamonds); (8, diamonds)] true ];
     deck := [];
     community_cards := Ex.royal_board;
     pot := 0;
     log := [];
     dealer_position := 2 |}.

(** Three pairs and an ace. *)
Definition two_pair_hand : list Card := [(5, hearts); (9, clubs)].
Definition two_pair_board : list Card :=
  [(5, spades); (9, hearts); (2, diamonds); (2, spades); (14, clubs)].

(** An answer of the list of models. *)
Definition listed : OllamaModels.TagsResponse :=
  OllamaModels.Tags 200 ["mistral:7b"; "qwen2:7b"; "llama3:8b"].

(** The wheel in hearts, with two cards of other suits. *)
Definition steel_wheel_hand : list Card := [(14, hearts); (2, hearts)].
Definition steel_wheel_board : list Card :=
  [(3, hearts); (4, hearts); (5, hearts); (9, clubs); (13, diamonds)].

(** An answer with white space around it and capital letters. *)
Definition padded : string := "  I RAISE.  ".

End More.

(* ================================================================== *)
(** ** Facts about [Counter] *)

Lemma Suit_eqb_spec (a b : Suit) : reflect (a = b) (Suit_eqb a b).
Proof. destruct a, b; simpl; constructor; congruence. Qed.

Section CounterFacts.
Context {K : Type} (eqb : K -> K -> bool).
Hypothesis eqb_spec : forall a b, reflect (a = b) (eqb a b).

Lemma eqb_refl k : eqb k k = true.
Proof. destruct (eqb_spec k k); congruence. Qed.

Lemma eqb_sym a b : eqb a b = eqb b a.
Proof. destruct (eqb_spec a b), (eqb_spec b a); congruence. Qed.

Lemma get_incr k c k' :
  Py.get eqb (Py.incr eqb k c) k' = if eqb k' k then S (Py.get eqb c k') else Py.get eqb c k'.
Proof.
  induction c as [|[k0 n] c IH]; simpl.
  - destruct (eqb k' k); reflexivity.
  - destruct (eqb_spec k k0) as [->|Hk]; simpl.
    + destruct (eqb k' k0); reflexivity.
    + rewrite IH. destruct (eqb_spec k' k0) as [->|]; [|reflexivity].
      destruct (eqb_spec k0 k); congruence.
Qed.

Lemma keys_incr k c k' :
  In k' (Py.keys (Py.incr eqb k c)) <-> k' = k \/ In k' (Py.keys c).
Proof.
  induction c as [|[k0 n] c IH]; simpl.
  - intuition congruence.
  - destruct (eqb_spec k k0) as [->|Hk]; simpl; intuition congruence.
Qed.

Lemma NoDup_keys_incr k c :
  NoDup (Py.keys c) -> NoDup (Py.keys (Py.incr eqb k c)).
Proof.
  induction c as [|[k0 n] c IH]; simpl; intros Hnd.
  - repeat constructor. simpl. tauto.
  - inversion Hnd as [|? ? Hnotin Hnd']; subst.
    destruct (eqb_spec k k0) as [->|Hk]; simpl.
    + constructor; assumption.
    + constructor; [|auto]. rewrite keys_incr. intuition congruence.
Qed.

Lemma sum_values_incr k c :
  list_sum (Py.values (Py.incr eqb k c)) = S (list_sum (Py.values c)).
Proof.
  induction c as [|[k0 n] c IH]; simpl; [reflexivity|].
  destruct (eqb k k0); simpl; [reflexivity|]. rewrite IH. lia.
Qed.

Lemma positive_incr k c :
  Forall (fun n => 1 <= n)%nat (Py.values c) ->
  Forall (fun n => 1 <= n)%nat (Py.values (Py.incr eqb k c)).
Proof.
  induction c as [|[k0 n] c IH]; simpl; intros H.
  - repeat constructor.
  - inversion H; subst. destruct (eqb k k0); simpl; constructor; auto; lia.
Qed.

Lemma get_In k n c : NoDup (Py.keys c) -> In (k, n) c -> Py.get eqb c k = n.
Proof.
  induction c as [|[k0 n0] c IH]; simpl; intros Hnd Hin; [contradiction|].
  inversion Hnd as [|? ? Hnotin Hnd']; subst.
  destruct Hin as [Heq|Hin].
  - inversion Heq; subst. now rewrite eqb_refl.
  - destruct (eqb_spec k k0) as [->|]; [|auto].
    exfalso. apply Hnotin. change k0 with (fst (k0, n)). now apply in_map.
Qed.

(** The state of the counter after a run of the counting loop. *)
Lemma counter_loop l : forall c,
  let c' := fold_left (fun c k => Py.incr eqb k c) l c in
  (NoDup (Py.keys c) -> NoDup (Py.keys c')) /\
  (forall k, Py.get eqb c' k = (Py.get eqb c k + Py.count eqb l k)%nat) /\
  (forall k, In k (Py.keys c') <-> In k (Py.keys c) \/ In k l) /\
  list_sum (Py.values c') = (list_sum (Py.values c) + List.length l)%nat.
Proof.
  induction l as [|x l IH]; intros c; simpl.
  - repeat split; auto; try tauto.
  - destruct (IH (Py.incr eqb x c)) as (Hnd & Hget & Hkeys & Hsum).
    repeat split.
    + intros H. apply Hnd, NoDup_keys_incr, H.
    + intros k. rewrite Hget, get_incr. unfold Py.count. simpl.
      destruct (eqb k x); simpl; lia.
    + rewrite Hkeys, keys_incr. intuition.
    + rewrite Hkeys, keys_incr. intuition.
    + rewrite Hsum, sum_values_incr. lia.
Qed.

Lemma Counter_NoDup l : NoDup (Py.keys (Py.Counter eqb l)).
Proof. apply (counter_loop l []). constructor. Qed.

Lemma Counter_In l k n : In (k, n) (Py.Counter eqb l) -> Py.count eqb l k = n.
Proof.
  intros Hin. rewrite <- (get_In k n _ (Counter_NoDup l) Hin).
  destruct (counter_loop l []) as (_ & Hget & _). now rewrite Hget.
Qed.

Lemma Counter_keys l k : In k (Py.keys (Py.Counter eqb l)) <-> In k l.
Proof.
  destruct (counter_loop l []) as (_ & _ & Hkeys & _).
  unfold Py.Counter. rewrite Hkeys. simpl. tauto.
Qed.

Lemma Counter_sum l :
  list_sum (Py.values (Py.Counter eqb l)) = List.length l.
Proof. destruct (counter_loop l []) as (_ & _ & _ & Hsum). exact Hsum. Qed.

Lemma count_le_length l k : (Py.count eqb l k <= List.length l)%nat.
Proof. apply filter_length_le. Qed.

(** Some element differs from [k] unless the whole list is [k]. *)
Lemma count_other l k :
  (Py.count eqb l k < List.length l)%nat -> exists x, In x l /\ eqb x k = false.
Proof.
  unfold Py.count. induction l as [|y l IH]; simpl; [lia|].
  destruct (eqb_spec k y) as [->|Hky]; simpl; intros Hlt.
  - destruct IH as (x & Hx & Hxk); [lia|]. exists x. auto.
  - exists y. split; [auto|]. destruct (eqb_spec y k); congruence.
Qed.

(** The elements lying in [ps] are at most the occurrences of each
    member of [ps], added up. *)
Lemma covered_bound ps l :
  (List.length (filter (fun x => Py.mem eqb x ps) l)
   <= list_sum (map (Py.count eqb l) ps))%nat.
Proof.
  induction ps as [|p ps IH]; simpl.
  - induction l; simpl; auto.
  - etransitivity; [|apply Nat.add_le_mono_l, IH].
    clear IH. unfold Py.count. induction l as [|y l IHl]; simpl; [lia|].
    rewrite (eqb_sym y p).
    destruct (eqb p y), (Py.mem eqb y ps); simpl; lia.
Qed.
End CounterFacts.

(* ================================================================== *)
(** ** The evaluator raises no exception on a legal number of cards *)

Section EvaluatorTotal.

Lemma In_insert x y l : In x (Py.insert y l) <-> x = y \/ In x l.
Proof.
  induction l as [|z l IH]; simpl; [intuition congruence|].
  destruct (y <=? z); simpl; [intuition congruence|]. rewrite IH. tauto.
Qed.

Lemma In_sorted x l : In x (Py.sorted l) <-> In x l.
Proof.
  induction l as [|y l IH]; simpl; [tauto|].
  rewrite In_insert, IH. intuition congruence.
Qed.

Lemma length_insert y l : List.length (Py.insert y l) = S (List.length l).
Proof.
  induction l as [|z l IH]; simpl; [reflexivity|].
  destruct (y <=? z); simpl; congruence.
Qed.

Lemma length_sorted l : List.length (Py.sorted l) = List.length l.
Proof.
  induction l as [|y l IH]; simpl; [reflexivity|].
  now rewrite length_insert, IH.
Qed.

Lemma In_sorted_reverse x l : In x (Py.sorted_reverse l) <-> In x l.
Proof. unfold Py.sorted_reverse. now rewrite <- in_rev, In_sorted. Qed.

Lemma In_firstn {A} (x : A) n : forall l, In x (firstn n l) -> In x l.
Proof.
  induction n as [|n IH]; intros [|y l]; simpl; try tauto.
  intros [H|H]; auto.
Qed.

Lemma max_defined l : l <> [] -> exists m, Py.max l = Some m.
Proof. destruct l; [congruence|]. simpl. eauto. Qed.

Lemma filter_nonempty {A} (f : A -> bool) l x :
  In x l -> f x = true -> filter f l <> [].
Proof.
  intros Hin Hf Hnil.
  assert (H : In x (filter f l)) by (apply filter_In; auto).
  rewrite Hnil in H. contradiction.
Qed.

(** [[...][0]] succeeds on the ranks of a count that occurs. *)
Lemma first_rank_with_count n rc :
  Py.nat_in n (Py.values rc) = true ->
  exists r, hd_error (ranks_with_count n rc) = Some r /\ In (r, n) rc.
Proof.
  unfold Py.nat_in, Py.values, ranks_with_count, Py.keys.
  induction rc as [|[k m] rc IH]; simpl; [discriminate|].
  rewrite (Nat.eqb_sym n m).
  destruct (Nat.eqb_spec m n) as [->|Hne]; simpl.
  - intros _. eauto.
  - intros H. destruct (IH H) as (r & Hr & Hin). eauto.
Qed.

Lemma In_ranks_with_count n rc r :
  In r (ranks_with_count n rc) -> In (r, n) rc.
Proof.
  unfold ranks_with_count, Py.keys. rewrite in_map_iff.
  intros ([k m] & Hk & Hin). simpl in Hk. subst k.
  apply filter_In in Hin. destruct Hin as [Hin Hm]. simpl in Hm.
  apply Nat.eqb_eq in Hm. now subst m.
Qed.

Lemma pairs_weigh_two xs :
  (2 * Py.nat_count 2 xs <= list_sum xs)%nat.
Proof.
  unfold Py.nat_count. induction xs as [|x xs IH]; [simpl; lia|].
  change (list_sum (x :: xs)) with (x + list_sum xs)%nat.
  cbn [filter]. destruct (Nat.eqb_spec 2 x); cbn [List.length]; lia.
Qed.

Variable all_ranks : list Z.
Let rank_counts := Py.Counter Z.eqb all_ranks.

Lemma four_of_a_kind_defined :
  List.length all_ranks <> 4%nat ->
  is_four_of_a_kind rank_counts = true ->
  exists best, get_best_four_of_a_kind rank_counts = Some best.
Proof.
  intros Hlen Hfour. unfold get_best_four_of_a_kind.
  destruct (first_rank_with_count 4 _ Hfour) as (four_rank & -> & Hin).
  apply (Counter_In Z.eqb Z.eqb_spec) in Hin.
  pose proof (count_le_length Z.eqb all_ranks four_rank) as Hle.
  destruct (count_other Z.eqb Z.eqb_spec all_ranks four_rank)
    as (x & Hx & Hne); [lia|].
  destruct (max_defined
              (filter (fun rank => negb (rank =? four_rank))
                 (Py.keys rank_counts))) as (kicker & ->); [|eauto].
  apply filter_nonempty with (x := x).
  - apply (Counter_keys Z.eqb Z.eqb_spec). exact Hx.
  - now rewrite Hne.
Qed.

Lemma full_house_defined :
  is_full_house rank_counts = true ->
  exists best, get_best_full_house rank_counts = Some best.
Proof.
  unfold is_full_house, get_best_full_house. intros H.
  apply andb_prop in H. destruct H as [H3 H2].
  destruct (first_rank_with_count 3 _ H3) as (three_rank & -> & _).
  destruct (first_rank_with_count 2 _ H2) as (pair_rank & -> & _).
  eauto.
Qed.

Lemma three_of_a_kind_defined :
  is_three_of_a_kind rank_counts = true ->
  exists best, get_best_three_of_a_kind rank_counts all_ranks = Some best.
Proof.
  unfold is_three_of_a_kind, get_best_three_of_a_kind. intros H3.
  destruct (first_rank_with_count 3 _ H3) as (three_rank & -> & _). eauto.
Qed.

Lemma one_pair_defined :
  is_one_pair rank_counts = true ->
  exists best, get_best_one_pair rank_counts all_ranks = Some best.
Proof.
  unfold is_one_pair, get_best_one_pair. intros H2.
  destruct (first_rank_with_count 2 _ H2) as (pair_rank & -> & _). eauto.
Qed.

Lemma two_pair_defined :
  List.length all_ranks <> 4%nat ->
  is_two_pair rank_counts = true ->
  exists best, get_best_two_pair rank_counts all_ranks = Some best.
Proof.
  intros Hlen Htwo. unfold get_best_two_pair.
  set (pairs := firstn 2 (Py.sorted_reverse (ranks_with_count 2 rank_counts))).
  assert (Hlong : (5 <= List.length all_ranks)%nat).
  { unfold is_two_pair in Htwo. apply Nat.leb_le in Htwo.
    pose proof (pairs_weigh_two (Py.values rank_counts)) as Hw.
    unfold rank_counts in Hw at 2. rewrite (Counter_sum Z.eqb Z.eqb_spec) in Hw. lia. }
  assert (Hcount : Forall (fun p => Py.count Z.eqb all_ranks p = 2%nat) pairs).
  { apply Forall_forall. intros p Hp. apply In_firstn in Hp.
    apply In_sorted_reverse, In_ranks_with_count in Hp.
    now apply (Counter_In Z.eqb Z.eqb_spec) in Hp. }
  assert (Hsum : (list_sum (map (Py.count Z.eqb all_ranks) pairs) <= 4)%nat).
  { assert (Hshort : (List.length pairs <= 2)%nat)
      by (unfold pairs; rewrite length_firstn; lia).
    destruct pairs as [|p [|q [|? ?]]]; simpl in *; try lia.
    - inversion Hcount; subst. lia.
    - inversion Hcount as [|? ? Hp Hrest]; subst.
      inversion Hrest; subst. lia. }
  pose proof (covered_bound Z.eqb Z.eqb_spec pairs all_ranks) as Hcov.
  pose proof (filter_length (fun x => Py.mem Z.eqb x pairs) all_ranks) as Hsplit.
  destruct (max_defined
              (filter (fun rank => negb (Py.mem Z.eqb rank pairs)) all_ranks))
    as (kicker & ->); [|eauto].
  intros Hnil. cbv beta in Hsplit. rewrite Hnil in Hsplit.
  simpl in Hsplit. lia.
Qed.

End EvaluatorTotal.

Lemma flush_defined (all_cards : list Card) :
  is_flush (Py.Counter Suit_eqb (map snd all_cards)) = true ->
  exists best, get_best_flush all_cards = Some best.
Proof.
  unfold is_flush, get_best_flush, Py.values, Py.keys.
  generalize (Py.Counter Suit_eqb (map snd all_cards)) as suit_counts.
  induction suit_counts as [|[s n] sc IH]; [discriminate|].
  cbn [existsb map filter snd].
  destruct (5 <=? n)%nat; cbn [orb map hd_error]; [eauto|]. exact IH.
Qed.

(** Whatever the cards are, the evaluation is defined as soon as their
    number is not four. *)
Lemma evaluate_hand_defined (hand community_cards : list Card) :
  List.length (hand ++ community_cards) <> 4%nat ->
  exists hand_rank best_ranks,
    evaluate_hand hand community_cards = Some (hand_rank, best_ranks).
Proof.
  intros Hlen. unfold evaluate_hand.
  assert (Hlen' : List.length (map fst (hand ++ community_cards)) <> 4%nat)
    by now rewrite length_map.
  destruct (is_straight_flush _); [eauto|].
  destruct (is_four_of_a_kind _) eqn:H4.
  { destruct (four_of_a_kind_defined _ Hlen' H4) as (b & ->). simpl. eauto. }
  destruct (is_full_house _) eqn:Hfh.
  { destruct (full_house_defined _ Hfh) as (b & ->). simpl. eauto. }
  destruct (is_flush _) eqn:Hfl.
  { destruct (flush_defined _ Hfl) as (b & ->). simpl. eauto. }
  destruct (is_straight _); [eauto|].
  destruct (is_three_of_a_kind _) eqn:H3.
  { destruct (three_of_a_kind_defined _ H3) as (b & ->). simpl. eauto. }
  destruct (is_two_pair _) eqn:H2p.
  { destruct (two_pair_defined _ Hlen' H2p) as (b & ->). simpl. eauto. }
  destruct (is_one_pair _) eqn:H1p.
  { destruct (one_pair_defined _ H1p) as (b & ->). simpl. eauto. }
  eauto.
Qed.

(* ================================================================== *)
(** ** What [get_best_straight] returns *)

Section BestStraight.

Lemma In_unique_ranks r ranks : In r (Py.sorted (Py.set ranks)) <-> In r ranks.
Proof. unfold Py.set. now rewrite In_sorted, nodup_In. Qed.

Lemma window5_nth u i a j :
  Py.window5 u i = Py.range5 a -> (j < 5)%nat ->
  nth_error u (i + j) = Some (a + Z.of_nat j).
Proof.
  unfold Py.window5, Py.range5. intros Hw Hj.
  assert (Hnth : nth_error (firstn 5 (skipn i u)) j = nth_error u (i + j)).
  { rewrite nth_error_firstn, nth_error_skipn.
    destruct (Nat.ltb_spec j 5); [reflexivity|lia]. }
  rewrite <- Hnth, Hw.
  do 5 (destruct j as [|j]; [simpl; f_equal; lia|]). lia.
Qed.

Lemma adjust_neg_inside len b : 0 <= b < len -> Py.adjust_neg len b = b.
Proof.
  intros H. unfold Py.adjust_neg.
  destruct (Z.ltb_spec b 0); [lia|]. destruct (Z.leb_spec len b); lia.
Qed.

Lemma adjust_neg_last len : 1 <= len -> Py.adjust_neg len (-1) = len - 1.
Proof.
  intros H. unfold Py.adjust_neg.
  destruct (Z.ltb_spec (-1) 0); [|lia].
  destruct (Z.ltb_spec (-1 + len) 0); lia.
Qed.

Lemma slice_down_first_window u :
  (5 <= List.length u)%nat -> Py.slice_down u 4 (-1) = [].
Proof.
  intros Hlen. unfold Py.slice_down.
  rewrite (adjust_neg_inside _ 4), adjust_neg_last by lia.
  destruct (Z.ltb_spec (Z.of_nat (List.length u) - 1) 4); [lia|reflexivity].
Qed.

Lemma slice_down_window u i a :
  (1 <= i)%nat -> (i + 4 < List.length u)%nat ->
  Py.window5 u i = Py.range5 a ->
  Py.slice_down u (Z.of_nat i + 4) (Z.of_nat i - 1)
  = [a + 4; a + 3; a + 2; a + 1; a].
Proof.
  intros Hi Hlen Hw. unfold Py.slice_down.
  rewrite !adjust_neg_inside by lia.
  destruct (Z.ltb_spec (Z.of_nat i - 1) (Z.of_nat i + 4)); [|lia].
  replace (Z.to_nat (Z.of_nat i + 4 - (Z.of_nat i - 1))) with 5%nat by lia.
  cbn [Py.walk_down].
  replace (Z.to_nat (Z.of_nat i + 4)) with (i + 4)%nat by lia.
  replace (Z.to_nat (Z.of_nat i + 4 - 1)) with (i + 3)%nat by lia.
  replace (Z.to_nat (Z.of_nat i + 4 - 1 - 1)) with (i + 2)%nat by lia.
  replace (Z.to_nat (Z.of_nat i + 4 - 1 - 1 - 1)) with (i + 1)%nat by lia.
  replace (Z.to_nat (Z.of_nat i + 4 - 1 - 1 - 1 - 1)) with (i + 0)%nat by lia.
  rewrite !(window5_nth u i a) by (assumption || lia).
  simpl. now rewrite Z.add_0_r.
Qed.

(** A tie-break computed by [get_best_straight] is empty, or the wheel
    [5, 4, 3, 2, 14], or five consecutive ranks from the top down; its
    members are ranks of the hand. *)
Lemma get_best_straight_shape ranks :
  (get_best_straight ranks = [] \/
   get_best_straight ranks = [5; 4; 3; 2; 14] \/
   exists top,
     get_best_straight ranks = [top; top - 1; top - 2; top - 3; top - 4]) /\
  (forall r, In r (get_best_straight ranks) -> In r ranks).
Proof.
  unfold get_best_straight.
  set (u := Py.sorted (Py.set ranks)).
  destruct (find _ _) as [i|] eqn:Hfind.
  - apply find_some in Hfind. destruct Hfind as [Hi Hrun].
    apply in_seq in Hi. unfold window_is_run in Hrun.
    destruct (nth_error u i) as [a|] eqn:Ha; [|discriminate].
    destruct (list_eq_dec _ _ _) as [Hw|]; [|discriminate].
    destruct i as [|i].
    + change (Z.of_nat 0 + 4) with 4. change (Z.of_nat 0 - 1) with (-1).
      rewrite (slice_down_first_window u) by lia.
      split; [auto|]. intros r [].
    + rewrite (slice_down_window u (S i) a) by (assumption || lia).
      split.
      * right; right. exists (a + 4).
        replace (a + 4 - 1) with (a + 3) by lia.
        replace (a + 4 - 2) with (a + 2) by lia.
        replace (a + 4 - 3) with (a + 1) by lia.
        replace (a + 4 - 4) with a by lia. reflexivity.
      * intros r Hr. apply In_unique_ranks. fold u.
        assert (Hj : exists j, (j < 5)%nat /\ r = a + Z.of_nat j).
        { simpl in Hr.
          destruct Hr as [<-|[<-|[<-|[<-|[<-|[]]]]]];
            [exists 4%nat|exists 3%nat|exists 2%nat|exists 1%nat|exists 0%nat];
            split; lia. }
        destruct Hj as (j & Hj & ->).
        eapply nth_error_In. apply (window5_nth u (S i) a j Hw Hj).
  - destruct (wheel_subset u) eqn:Hwheel; [|split; [auto|intros r []]].
    split; [auto|]. intros r Hr. apply In_unique_ranks. fold u.
    unfold wheel_subset in Hwheel. rewrite forallb_forall in Hwheel.
    assert (Hmem : Py.mem Z.eqb r u = true).
    { apply Hwheel. simpl in Hr. simpl. intuition. }
    unfold Py.mem in Hmem. apply existsb_exists in Hmem.
    destruct Hmem as (x & Hx & Heq). apply Z.eqb_eq in Heq. now subst.
Qed.

End BestStraight.

(* ================================================================== *)
(** ** Where the pattern matches *)

Module OllamaFacts.
Import Ollama.
Local Open Scope string_scope.

Lemma valid_action_shape k :
  In k valid_actions ->
  all_word k = true /\ exists a k', k = String a k' /\ is_word_char a = true.
Proof.
  simpl. intros [<-|[<-|[<-|[<-|[]]]]]; (split; [reflexivity|]);
    eexists; eexists; (split; [reflexivity|reflexivity]).
Qed.

Lemma space_not_word c : is_space c = true -> is_word_char c = false.
Proof.
  destruct c as [[] [] [] [] [] [] [] []]; try reflexivity; discriminate.
Qed.

Lemma is_space_lower_char c : is_space (lower_char c) = is_space c.
Proof. destruct c as [[] [] [] [] [] [] [] []]; reflexivity. Qed.

Lemma lower_char_idem c : lower_char (lower_char c) = lower_char c.
Proof. destruct c as [[] [] [] [] [] [] [] []]; reflexivity. Qed.

Lemma substring_0_0 s : substring 0 0 s = EmptyString.
Proof. destruct s; reflexivity. Qed.

Lemma get_0 s : String.get 0 s = head s.
Proof. destruct s; reflexivity. Qed.

(** A literal made of word characters, and the boundary after it. *)
Lemma match_literal_spec k : forall before s,
  all_word k = true ->
  (k = EmptyString -> word_side before = true) ->
  match_literal before k s = true <->
  substring 0 (String.length k) s = k /\
  word_side (String.get (String.length k) s) = false.
Proof.
  induction k as [|a k IH]; intros before s Hall Hbefore.
  - simpl. rewrite substring_0_0, get_0. unfold word_boundary.
    rewrite (Hbefore eq_refl). simpl.
    destruct (word_side (head s)); simpl; intuition congruence.
  - simpl in Hall. apply andb_prop in Hall. destruct Hall as [Ha Hall].
    destruct s as [|c s]; simpl.
    + intuition congruence.
    + destruct (Ascii.eqb_spec a c) as [->|Hne]; simpl.
      * rewrite (IH (Some c) s Hall (fun _ => Ha)).
        split.
        -- intros [-> Hw]. auto.
        -- intros [Heq Hw]. inversion Heq as [Hsub]. rewrite Hsub. auto.
      * split; [discriminate|]. intros [Heq _]. congruence.
Qed.

Lemma match_here_hit before s k :
  In k valid_actions -> match_here before s k = true <-> hit before s 0 k.
Proof.
  intros Hk. destruct (valid_action_shape k Hk) as (Hall & a & k' & -> & Ha).
  unfold match_here, hit. rewrite andb_true_iff.
  rewrite (match_literal_spec (String a k') before s Hall) by discriminate.
  split.
  - intros (Hb & Hsub & Hafter). repeat split; auto.
    destruct s as [|c s]; [discriminate|]. simpl in Hsub.
    inversion Hsub; subst c. unfold word_boundary in Hb. simpl in Hb.
    rewrite Ha in Hb. now destruct (word_side before).
  - intros (_ & Hsub & Hb & Hafter). repeat split; auto.
    destruct s as [|c s]; [discriminate|]. simpl in Hsub.
    inversion Hsub; subst c. unfold word_boundary. simpl.
    now rewrite Ha, Hb.
Qed.

Lemma hit_shift before c s n k :
  hit before (String c s) (S n) k <-> hit (Some c) s n k.
Proof.
  unfold hit. simpl. destruct n; simpl; tauto.
Qed.

Lemma no_hit_empty before n k : ~ hit before EmptyString n k.
Proof.
  intros (Hk & Hsub & _).
  destruct (valid_action_shape k Hk) as (_ & a & k' & -> & _).
  destruct n; discriminate.
Qed.

Lemma search_eq before s :
  search before s =
  match find (match_here before s) valid_actions with
  | Some k => Some k
  | None =>
      match s with
      | EmptyString => None
      | String c s' => search (Some c) s'
      end
  end.
Proof. destruct s; reflexivity. Qed.

(** [search] returns the keyword of the leftmost hit. *)
Lemma search_spec s : forall before,
  match search before s with
  | Some k =>
      exists n, hit before s n k /\
                forall m k', (m < n)%nat -> ~ hit before s m k'
  | None => forall n k, ~ hit before s n k
  end.
Proof.
  induction s as [|c s IH]; intros before; rewrite search_eq;
    destruct (find (match_here before _) valid_actions) as [k|] eqn:Hfind.
  - apply find_some in Hfind. destruct Hfind as [Hk Hm].
    exists 0%nat. split; [now apply match_here_hit|]. intros; lia.
  - intros n k. apply no_hit_empty.
  - apply find_some in Hfind. destruct Hfind as [Hk Hm].
    exists 0%nat. split; [now apply match_here_hit|]. intros; lia.
  - specialize (IH (Some c)).
    assert (Hzero : forall k, ~ hit before (String c s) 0 k).
    { intros k Hhit. pose proof Hhit as (Hk & _).
      apply match_here_hit in Hhit; [|exact Hk].
      pose proof (find_none _ _ Hfind k Hk) as Hnone. congruence. }
    destruct (search (Some c) s) as [k|].
    + destruct IH as (n & Hhit & Hmin). exists (S n). split.
      * now apply hit_shift.
      * intros [|m] k' Hlt; [apply Hzero|].
        rewrite hit_shift. apply Hmin. lia.
    + intros [|n] k; [apply Hzero|]. rewrite hit_shift. apply IH.
Qed.

Lemma substring_head n len a r : forall s,
  substring n (S len) s = String a r -> String.get n s = Some a.
Proof.
  induction n as [|n IH]; intros [|c s]; simpl; try discriminate.
  - intros H. now inversion H.
  - apply IH.
Qed.

(** Two keywords cannot stand at one offset: their first letters differ. *)
Lemma hit_unique before s n k k' :
  hit before s n k -> hit before s n k' -> k = k'.
Proof.
  intros (Hk & Hsub & _) (Hk' & Hsub' & _).
  simpl in Hk, Hk'.
  destruct Hk as [<-|[<-|[<-|[<-|[]]]]];
    destruct Hk' as [<-|[<-|[<-|[<-|[]]]]]; try reflexivity;
    apply substring_head in Hsub; apply substring_head in Hsub'; congruence.
Qed.

Lemma search_leftmost before s n k :
  hit before s n k ->
  (forall m k', (m < n)%nat -> ~ hit before s m k') ->
  search before s = Some k.
Proof.
  intros Hhit Hmin. pose proof (search_spec s before) as Hs.
  destruct (search before s) as [k0|].
  - destruct Hs as (n0 & Hhit0 & Hmin0).
    destruct (Nat.lt_trichotomy n0 n) as [Hlt|[->|Hgt]].
    + exfalso. exact (Hmin n0 k0 Hlt Hhit0).
    + f_equal. exact (hit_unique _ _ _ _ _ Hhit0 Hhit).
    + exfalso. exact (Hmin0 n k Hgt Hhit).
  - exfalso. exact (Hs n k Hhit).
Qed.

Lemma search_valid before s k : search before s = Some k -> In k valid_actions.
Proof.
  intros H. pose proof (search_spec s before) as Hs. rewrite H in Hs.
  destruct Hs as (n & (Hk & _) & _). exact Hk.
Qed.

(** *** [strip] and [lower] do not move the matches *)

Lemma find_ext_in {A} (f g : A -> bool) l :
  (forall x, In x l -> f x = g x) -> find f l = find g l.
Proof.
  induction l as [|x l IH]; intros H; simpl; [reflexivity|].
  rewrite (H x) by (simpl; auto). rewrite IH; [reflexivity|].
  intros y Hy. apply H. simpl. auto.
Qed.

Lemma find_all_false {A} (f : A -> bool) l :
  (forall x, In x l -> f x = false) -> find f l = None.
Proof.
  induction l as [|x l IH]; intros H; simpl; [reflexivity|].
  rewrite (H x) by (simpl; auto). apply IH. intros y Hy. apply H. simpl. auto.
Qed.

Lemma lower_idem s : lower (lower s) = lower s.
Proof. induction s as [|c s IH]; simpl; [|rewrite lower_char_idem, IH]; reflexivity. Qed.

Lemma lower_lstrip s : lower (lstrip s) = lstrip (lower s).
Proof.
  induction s as [|c s IH]; simpl; [reflexivity|].
  rewrite is_space_lower_char. destruct (is_space c); [exact IH|reflexivity].
Qed.

Lemma lower_rstrip s : lower (rstrip s) = rstrip (lower s).
Proof.
  induction s as [|c s IH]; simpl; [reflexivity|].
  rewrite <- IH, is_space_lower_char.
  destruct (rstrip s); simpl; [destruct (is_space c)|]; reflexivity.
Qed.

Lemma lower_strip s : lower (strip s) = strip (lower s).
Proof. unfold strip. now rewrite lower_rstrip, lower_lstrip. Qed.

Lemma match_here_before b1 b2 s k :
  word_side b1 = word_side b2 -> In k valid_actions ->
  match_here b1 s k = match_here b2 s k.
Proof.
  intros Hb Hk. destruct (valid_action_shape k Hk) as (_ & a & k' & -> & _).
  unfold match_here, word_boundary. rewrite Hb. now destruct s.
Qed.

Lemma search_before b1 b2 s :
  word_side b1 = word_side b2 -> search b1 s = search b2 s.
Proof.
  intros Hb. rewrite (search_eq b1), (search_eq b2).
  rewrite (find_ext_in (match_here b1 s) (match_here b2 s)); [reflexivity|].
  intros k Hk. now apply match_here_before.
Qed.

Lemma match_literal_nonword before a k c s :
  is_word_char a = true -> is_word_char c = false ->
  match_literal before (String a k) (String c s) = false.
Proof.
  intros Ha Hc. simpl. destruct (Ascii.eqb_spec a c); [congruence|reflexivity].
Qed.

Lemma search_space before c s :
  is_space c = true -> search before (String c s) = search None s.
Proof.
  intros Hc. pose proof (space_not_word c Hc) as Hw. rewrite search_eq.
  rewrite find_all_false.
  - apply search_before. simpl. exact Hw.
  - intros k Hk. destruct (valid_action_shape k Hk) as (_ & a & k' & -> & Ha).
    unfold match_here. rewrite (match_literal_nonword before a k' c s Ha Hw).
    apply andb_false_r.
Qed.

Lemma search_lstrip s : search None (lstrip s) = search None s.
Proof.
  induction s as [|c s IH]; [reflexivity|]. cbn [lstrip].
  destruct (is_space c) eqn:Hc; [|reflexivity].
  now rewrite IH, (search_space None c s Hc).
Qed.

Lemma rstrip_cons c s :
  (rstrip (String c s) = EmptyString /\ is_space c = true /\ rstrip s = EmptyString) \/
  rstrip (String c s) = String c (rstrip s).
Proof.
  simpl. destruct (rstrip s); [|auto]. destruct (is_space c); auto.
Qed.

Lemma head_rstrip s : word_side (head (rstrip s)) = word_side (head s).
Proof.
  destruct s as [|c s]; [reflexivity|].
  destruct (rstrip_cons c s) as [(-> & Hc & _)| ->]; [|reflexivity].
  simpl. symmetry. now apply space_not_word.
Qed.

Lemma match_literal_rstrip k : forall before s,
  all_word k = true ->
  match_literal before k (rstrip s) = match_literal before k s.
Proof.
  induction k as [|a k IH]; intros before s Hall.
  - cbn [match_literal]. unfold word_boundary. now rewrite head_rstrip.
  - simpl in Hall. apply andb_prop in Hall. destruct Hall as [Ha Hall].
    destruct s as [|c s]; [reflexivity|].
    destruct (rstrip_cons c s) as [(-> & Hc & _)| ->].
    + rewrite (match_literal_nonword before a k c s Ha (space_not_word c Hc)).
      reflexivity.
    + cbn [match_literal]. now rewrite IH.
Qed.

Lemma search_empty before : search before EmptyString = None.
Proof.
  rewrite search_eq. rewrite find_all_false; [reflexivity|].
  intros k Hk. destruct (valid_action_shape k Hk) as (_ & a & k' & -> & _).
  unfold match_here. simpl. apply andb_false_r.
Qed.

Lemma search_rstrip s : forall before,
  search before (rstrip s) = search before s.
Proof.
  induction s as [|c s IH]; intros before; [reflexivity|].
  rewrite (search_eq before (String c s)), (search_eq before (rstrip (String c s))).
  rewrite (find_ext_in (match_here before (rstrip (String c s)))
             (match_here before (String c s))).
  - destruct (find _ valid_actions); [reflexivity|].
    destruct (rstrip_cons c s) as [(-> & Hc & Hs)| ->].
    + now rewrite <- IH, Hs, search_empty.
    + apply IH.
  - intros k Hk. destruct (valid_action_shape k Hk) as (Hall & _).
    unfold match_here, word_boundary.
    now rewrite head_rstrip, match_literal_rstrip.
Qed.

Lemma search_strip s : search None (strip s) = search None s.
Proof. unfold strip. now rewrite search_rstrip, search_lstrip. Qed.

(** The normalisation done by [get_ai_decision] before sanitizing has no
    effect on the outcome. *)
Lemma sanitize_normalised content :
  sanitize_decision (lower (strip content)) = sanitize_decision content.
Proof.
  unfold sanitize_decision. now rewrite lower_idem, lower_strip, search_strip.
Qed.

Lemma is_valid_In k : In k valid_actions -> is_valid k = true.
Proof. simpl. intros [<-|[<-|[<-|[<-|[]]]]]; reflexivity. Qed.

Lemma sanitize_valid decision : In (sanitize_decision decision) valid_actions.
Proof.
  unfold sanitize_decision.
  destruct (search None (lower decision)) as [k|] eqn:Hs.
  - exact (search_valid _ _ _ Hs).
  - simpl. auto.
Qed.

Lemma attempts_received post attempt remaining content :
  post attempt = Content content ->
  attempts post attempt (S remaining) = sanitize_decision content.
Proof.
  intros Hpost. simpl. rewrite Hpost, sanitize_normalised.
  now rewrite (is_valid_In _ (sanitize_valid content)).
Qed.

Lemma attempts_valid post : forall remaining attempt,
  In (attempts post attempt remaining) valid_actions.
Proof.
  induction remaining as [|n IH]; intros attempt; simpl; [auto|].
  destruct (post attempt) as [|content]; [simpl; auto|].
  destruct (is_valid _); [apply sanitize_valid|apply IH].
Qed.

End OllamaFacts.

(* ================================================================== *)
(** ** Dealing *)

Section Dealing.

Lemma full_deck_size : List.length Deck.full = 52%nat.
Proof. reflexivity. Qed.

Lemma pop_defined cards :
  (1 <= List.length cards)%nat ->
  exists card rest,
    Deck.pop cards = Some (card, rest) /\
    List.length rest = (List.length cards - 1)%nat.
Proof.
  intros Hlen. unfold Deck.pop.
  rewrite <- (length_rev cards) in *.
  destruct (rev cards) as [|card rest]; simpl in *; [lia|].
  exists card, (rev rest). rewrite length_rev. split; [reflexivity|lia].
Qed.

Lemma deal_defined n : forall cards,
  (n <= List.length cards)%nat ->
  exists dealt rest,
    Deck.deal n cards = Some (dealt, rest) /\
    List.length dealt = n /\
    List.length rest = (List.length cards - n)%nat.
Proof.
  induction n as [|n IH]; intros cards Hlen; simpl.
  - exists [], cards. repeat split. lia.
  - destruct (pop_defined cards) as (card & rest & -> & Hrest); [lia|].
    destruct (IH rest) as (dealt & rest' & -> & Hdealt & Hrest'); [lia|].
    exists (card :: dealt), rest'. simpl. repeat split; lia.
Qed.

Lemma deal_players_defined todo : forall cards log0,
  (2 * List.length todo <= List.length cards)%nat ->
  exists todo' cards' log',
    deal_players todo cards log0 = Some (todo', cards', log') /\
    Forall2 dealt_in todo todo' /\
    List.length cards' = (List.length cards - 2 * List.length todo)%nat.
Proof.
  induction todo as [|player rest IH]; intros cards log0 Hlen.
  - exists [], cards, log0. simpl. repeat split; [constructor|lia].
  - cbn [deal_players]. simpl List.length in Hlen. unfold Deck.deal_hand.
    destruct (deal_defined 2 cards) as (dealt & cards1 & -> & Hdealt & Hcards1);
      [lia|].
    destruct (IH cards1
                (log0 ++ [Dealt (name (deal_hand player dealt))
                            (hand (deal_hand player dealt))]))
      as (rest' & cards2 & log2 & -> & Hrest & Hcards2); [lia|].
    exists (deal_hand player dealt :: rest'), cards2, log2.
    repeat split.
    + constructor; [|exact Hrest]. unfold dealt_in. simpl. auto.
    + simpl List.length. lia.
Qed.

End Dealing.

(* ================================================================== *)
(** ** What a betting pass adds to the pot *)

Lemma betting_loop_pot env community todo : forall i bet pot0 log0,
  pass_pot (betting_loop env community i todo bet pot0 log0)
  = pot0 + asked_bets todo
             (seated (betting_loop env community i todo bet pot0 log0)).
Proof.
  induction todo as [|player rest IH]; intros i bet pot0 log0; simpl.
  - lia.
  - destruct (is_active player) eqn:Hactive.
    + destruct (make_decision (env i) player community bet) as [decision player'].
      simpl. rewrite IH. lia.
    + simpl. rewrite IH. lia.
Qed.

(** A player that folds or checks keeps the bet on record. *)
Lemma make_decision_keeps_bet turn self community bet decision self' :
  make_decision turn self community bet = (decision, self') ->
  decision = "fold"%string \/ decision = "check"%string ->
  current_bet self' = current_bet self /\ chips self' = chips self.
Proof.
  unfold make_decision. intros Hdec Hkind.
  destruct (negb (is_active self)); [inversion Hdec; subst; auto|].
  destruct (String.eqb_spec (Ollama.get_ai_decision (post turn) 2) "fold").
  { inversion Hdec; subst; auto. }
  destruct (String.eqb_spec (Ollama.get_ai_decision (post turn) 2) "check").
  { inversion Hdec; subst; auto. }
  destruct (String.eqb _ "bet"); [inversion Hdec; subst; intuition congruence|].
  destruct (String.eqb _ "raise"); inversion Hdec; subst; intuition congruence.
Qed.

(* ================================================================== *)
(** ** The showdown of a single player *)

Lemma showdown_single community player st hand_value best_ranks :
  best_hand_value st = None ->
  evaluate_hand (hand player) community = Some (hand_value, best_ranks) ->
  exists st',
    showdown_loop community [player] st = Some st' /\
    best_player st' = Some player /\
    evaluated st' = evaluated st ++ [(hand player, community)].
Proof.
  intros Hnone Heval. simpl. rewrite Heval, Hnone. simpl.
  eexists. split; [reflexivity|]. simpl. auto.
Qed.

(* ================================================================== *)
(** ** Properties of the hand evaluator *)

Lemma scored_rank hand_rank best hand_rank' best_ranks :
  scored hand_rank best = Some (hand_rank', best_ranks) -> hand_rank' = hand_rank.
Proof. destruct best; simpl; intros H; inversion H; reflexivity. Qed.

(** The first window of the scan yields an empty tie-break: with
    [i = 0] the slice [unique_ranks[i+4:i-1:-1]] stops at index [-1],
    which Python reads as the last index. *)
Lemma first_window_empty ranks :
  window_is_run (Py.sorted (Py.set ranks)) 0 = true ->
  (5 <= List.length (Py.sorted (Py.set ranks)))%nat ->
  get_best_straight ranks = [].
Proof.
  intros Hrun Hlen. unfold get_best_straight.
  destruct (List.length (Py.sorted (Py.set ranks)) - 4)%nat as [|n] eqn:Hn;
    [lia|].
  cbn [seq find]. rewrite Hrun.
  now apply slice_down_first_window.
Qed.

(** C1 (the code departs from the claim).  The wheel is scored as a
    Straight whose tie-break starts with 5, but the straight 2-3-4-5-6
    gets the empty tie-break, so that the comparison of [determine_winner]
    places the wheel above it instead of below. *)
Theorem C1_wheel_beats_six_high :
  evaluate_hand Ex.wheel_hand Ex.wheel_board = Some (5, [5; 4; 3; 2; 14]) /\
  evaluate_hand Ex.six_high_hand Ex.six_high_board = Some (5, []) /\
  Py.list_gt [5; 4; 3; 2; 14] [] = true /\
  better 5 [5; 4; 3; 2; 14] (Some (5, [])) = true /\
  better 5 [] (Some (5, [5; 4; 3; 2; 14])) = false.
Proof. repeat split; reflexivity. Qed.

(** C2 (the code departs from the claim).  With the distinct ranks
    2, 4, 5, 6, 7, 8, 9 the scan stops at the lowest run, 4 to 8, and
    the tie-break starts with 8 although a run up to 9 is present. *)
Theorem C2_lowest_run_is_returned :
  evaluate_hand Ex.gapped_hand Ex.gapped_board = Some (5, [8; 7; 6; 5; 4]) /\
  get_best_straight [5; 6; 7; 8; 9] = [].
Proof. split; reflexivity. Qed.

(** C3 (the code departs from the claim).  The same seven cards, given
    in two orders, are scored with two different tie-breaks. *)
Theorem C3_order_changes_the_result :
  Permutation (Ex.fives_hand ++ Ex.fives_board)
              (Ex.deuces_hand ++ Ex.deuces_board) /\
  evaluate_hand Ex.fives_hand Ex.fives_board = Some (7, [5; 9]) /\
  evaluate_hand Ex.deuces_hand Ex.deuces_board = Some (7, [5; 2]).
Proof.
  split; [|split; reflexivity].
  apply (Permutation_app_comm
           [(5, hearts); (5, clubs); (5, spades); (9, clubs); (9, hearts)]
           [(2, diamonds); (2, spades)]).
Qed.

(** C4 (the code departs from the claim).  With three fives, two nines
    and two deuces the pair of the full house is the one met first, here
    the deuces; with three fives and three nines no rank has count 2 and
    the hand is scored as ThreeOfAKind. *)
Theorem C4_full_house_takes_first_met :
  evaluate_hand Ex.deuces_hand Ex.deuces_board = Some (7, [5; 2]) /\
  evaluate_hand Ex.fives_hand Ex.triples_board = Some (4, [5; 9; 9]).
Proof. split; reflexivity. Qed.

(** C5, as stated, fails: the tie-break of Example 1 is not [[14]]. *)
Lemma C5_tie_break_is_not_one_card :
  ~ (forall hand community best_ranks,
        evaluate_hand hand community = Some (9, best_ranks) ->
        exists top, best_ranks = [top]).
Proof.
  intros H.
  destruct (H Ex.royal_hand Ex.royal_board [14; 13; 12; 11; 10] eq_refl)
    as (top & Htop).
  discriminate Htop.
Qed.

(** On four cards the kicker of two pairs, or of four of a kind, is
    the [max] of an empty list. *)
Example four_cards_raise :
  evaluate_hand [(2, hearts); (2, diamonds)] [(3, clubs); (3, spades)] = None /\
  evaluate_hand [(2, hearts); (2, diamonds)] [(2, clubs); (2, spades)] = None.
Proof. split; reflexivity. Qed.

(** C10.  With two hole cards and no, three, four or five community
    cards, all distinct, the evaluation raises no exception: it returns a
    score and a tie-break. *)
Theorem C10_evaluate_hand_total (hand community_cards : list Card) :
  List.length hand = 2%nat ->
  In (List.length community_cards) [0; 3; 4; 5]%nat ->
  NoDup (hand ++ community_cards) ->
  exists hand_rank best_ranks,
    evaluate_hand hand community_cards = Some (hand_rank, best_ranks).
Proof.
  intros Hhand Hboard _. apply evaluate_hand_defined.
  rewrite length_app, Hhand. simpl in Hboard. lia.
Qed.

Lemma C10_witness :
  exists hand_rank best_ranks,
    evaluate_hand Ex.fives_hand Ex.fives_board = Some (hand_rank, best_ranks).
Proof.
  apply C10_evaluate_hand_total.
  - reflexivity.
  - simpl. auto.
  - repeat (constructor; [simpl; intuition congruence|]). constructor.
Defined.

(* ================================================================== *)
(** ** Properties of the round *)

(** C6 (the code departs from the claim).  Two players with 1000 chips:
    before the flop the first bets 50 and the second checks; on the flop
    both check.  No chip moves on the flop, yet the pot grows from 50 to
    100: the pass adds the bet on record of every player it asks. *)
Theorem C6_check_adds_the_bet_on_record :
  exists after_pre_flop after_flop,
    play_pre_flop Ex.in_order Ex.bet_then_check Ex.heads_up
      = Some after_pre_flop /\
    play_flop Ex.all_check after_pre_flop = Some after_flop /\
    pot after_pre_flop = 50 /\
    map chips (players after_pre_flop) = [950; 1000] /\
    pot after_flop = 100 /\
    map chips (players after_flop) = [950; 1000] /\
    map current_bet (players after_flop) = [50; 0].
Proof.
  eexists. eexists.
  split; [vm_compute; reflexivity|].
  split; [vm_compute; reflexivity|].
  repeat split; reflexivity.
Qed.

(** C7, as stated, fails: the evaluator is called for the last player. *)
Lemma C7_evaluator_is_invoked :
  ~ (forall game p,
        filter is_active (players game) = [p] ->
        exists r, determine_winner game = Some r /\
                  best_player r = Some p /\
                  evaluated r = []).
Proof.
  intros H.
  destruct (H Ex.one_left Ex.last_player eq_refl) as (r & Hr & _ & Hcalls).
  vm_compute in Hr. inversion Hr; subst r. discriminate Hcalls.
Qed.

(** C7, amended.  When exactly one player is active at the showdown,
    that player is declared the winner, after one call of the evaluator,
    on the cards of that player. *)
Theorem C7_last_player_wins (game : PokerGame) (p : AIPlayer) :
  filter is_active (players game) = [p] ->
  List.length (hand p) = 2%nat ->
  In (List.length (community_cards game)) [0; 3; 4; 5]%nat ->
  exists r,
    determine_winner game = Some r /\
    best_player r = Some p /\
    evaluated r = [(hand p, community_cards game)].
Proof.
  intros Hactive Hhand Hboard. unfold determine_winner. rewrite Hactive.
  destruct (evaluate_hand_defined (hand p) (community_cards game))
    as (hand_value & best_ranks & Heval).
  { rewrite length_app, Hhand. simpl in Hboard. lia. }
  destruct (showdown_single (community_cards game) p
              {| best_hand_value := None; best_player := None;
                 winning_hand := EmptyString; showdown_log := log game;
                 evaluated := [] |}
              hand_value best_ranks eq_refl Heval)
    as (st & -> & Hbest & Hcalls).
  eexists. split; [reflexivity|]. simpl. auto.
Qed.

Lemma C7_witness :
  exists r,
    determine_winner Ex.one_left = Some r /\
    best_player r = Some Ex.last_player /\
    evaluated r = [(Ex.royal_hand, Ex.royal_board)].
Proof.
  apply (C7_last_player_wins Ex.one_left Ex.last_player).
  - reflexivity.
  - reflexivity.
  - simpl. auto.
Defined.

Lemma dealt_in_after_reset before after :
  Forall2 dealt_in (map reset_for_next_round before) after ->
  Forall (fun p => is_active p = true /\ current_bet p = 0 /\
                   List.length (hand p) = 2%nat) after.
Proof.
  revert after. induction before as [|b before IH]; intros after H;
    inversion H as [|? a ? after' (_ & _ & Hbet & Hact & Hhand) Hrest]; subst.
  - constructor.
  - constructor; [|apply IH, Hrest]. simpl in Hbet, Hact. auto.
Qed.

(** C8, as stated, fails: a player who has folded is still out once the
    cards of the next round are dealt. *)
Lemma C8_pre_flop_does_not_reset_players :
  ~ (forall shuffle game dealt,
        pre_flop_deal shuffle game = Some dealt ->
        Forall (fun p => is_active p = true) (players dealt)).
Proof.
  intros H. specialize (H Ex.in_order Ex.one_left _ eq_refl).
  vm_compute in H.
  inversion H as [|? ? _ Hrest]. inversion Hrest as [|? ? Hfolded _].
  discriminate Hfolded.
Qed.

(** C8, amended.  Up to its betting pass, the pre-flop step refills the
    deck, empties the board and the pot, moves the dealer by one seat and
    deals two hole cards to every player; it leaves the chips, the bet on
    record and the active flag of every player as they were.  These are
    reset by [reset_game_for_next_round]: after it, every player is
    active, with no bet on record, when the betting pass starts. *)
Theorem C8_pre_flop_deals_and_keeps_flags
    (shuffle : list Card -> list Card) (game : PokerGame) :
  (forall cards, List.length (shuffle cards) = List.length cards) ->
  num_players game <> 0 ->
  (List.length (players game) <= 26)%nat ->
  exists dealt,
    pre_flop_deal shuffle game = Some dealt /\
    dealer_position dealt = (dealer_position game + 1) mod num_players game /\
    pot dealt = 0 /\
    community_cards dealt = [] /\
    List.length (deck dealt) = (52 - 2 * List.length (players game))%nat /\
    Forall2 dealt_in (players game) (players dealt) /\
    (forall shuffle0 game0,
        game = reset_game_for_next_round shuffle0 game0 ->
        Forall (fun p => is_active p = true /\ current_bet p = 0 /\
                         List.length (hand p) = 2%nat) (players dealt)).
Proof.
  intros Hshuffle Hn Hseats. unfold pre_flop_deal.
  destruct (Z.eqb_spec (num_players game) 0) as [|_]; [contradiction|].
  assert (Hdeck : List.length (Deck.reset shuffle) = 52%nat)
    by (unfold Deck.reset; now rewrite Hshuffle, full_deck_size).
  destruct (deal_players_defined (players game) (Deck.reset shuffle)
              (log game ++ [NewRound]))
    as (players' & cards & log' & -> & Hdealt & Hcards); [lia|].
  eexists. split; [reflexivity|].
  cbn [dealer_position pot community_cards deck players].
  repeat split; try assumption.
  - lia.
  - intros shuffle0 game0 ->.
    now apply dealt_in_after_reset with (before := players game0).
Qed.

Lemma C8_witness :
  exists dealt,
    pre_flop_deal Ex.in_order
      (reset_game_for_next_round Ex.in_order Ex.one_left) = Some dealt /\
    dealer_position dealt = 0 /\
    Forall (fun p => is_active p = true /\ current_bet p = 0 /\
                     List.length (hand p) = 2%nat) (players dealt).
Proof.
  destruct (C8_pre_flop_deals_and_keeps_flags Ex.in_order
              (reset_game_for_next_round Ex.in_order Ex.one_left))
    as (dealt & Hdealt & Hdealer & _ & _ & _ & _ & Hreset).
  - reflexivity.
  - discriminate.
  - simpl. lia.
  - exists dealt. split; [exact Hdealt|]. split; [exact Hdealer|].
    exact (Hreset Ex.in_order Ex.one_left eq_refl).
Defined.

(* ================================================================== *)
(** ** Properties of the decision boundary *)

(** C9, as stated, fails: a keyword inside a longer word is an
    occurrence of the keyword, but the pattern does not match it. *)
Lemma C9_keyword_inside_a_word :
  ~ (forall text n k,
        Ollama.occurs_at text n k ->
        (forall m k', (m < n)%nat -> ~ Ollama.occurs_at text m k') ->
        Ollama.sanitize_decision text = k).
Proof.
  intros H.
  assert (Hbet : Ollama.sanitize_decision "Betting" = "bet"%string).
  { apply (H "Betting"%string 0%nat "bet"%string).
    - split; [simpl; auto|reflexivity].
    - intros m k' Hm. lia. }
  vm_compute in Hbet. discriminate Hbet.
Qed.

(** C9, amended.  In a text of ASCII characters the boundary returns
    the first keyword that stands as a word of its own, whatever the
    case of its letters, and ['check'] when there is none; such a text,
    once received, is answered at the first attempt.  For any text the
    result is one of the four actions; it is ['fold'] when the request
    fails or when no attempt is left. *)
Theorem C9_decision_boundary
    (text : string) (post : nat -> Ollama.Response) (max_retries : nat) :
  (Ollama.is_ascii text = true ->
   (forall n k,
       Ollama.word_at text n k ->
       (forall m k', (m < n)%nat -> ~ Ollama.word_at text m k') ->
       Ollama.sanitize_decision text = k) /\
   ((forall n k, ~ Ollama.word_at text n k) ->
    Ollama.sanitize_decision text = "check"%string) /\
   (post 0%nat = Ollama.Content text -> max_retries <> 0%nat ->
    Ollama.get_ai_decision post max_retries = Ollama.sanitize_decision text)) /\
  In (Ollama.sanitize_decision text) Ollama.valid_actions /\
  (post 0%nat = Ollama.RequestException ->
   Ollama.get_ai_decision post max_retries = "fold"%string) /\
  (forall attempt, Ollama.attempts post attempt 0 = "fold"%string) /\
  In (Ollama.get_ai_decision post max_retries) Ollama.valid_actions.
Proof.
  unfold Ollama.word_at, Ollama.get_ai_decision.
  split; [intros _; split; [|split]|repeat split].
  - intros n k Hhit Hmin. unfold Ollama.sanitize_decision.
    now rewrite (OllamaFacts.search_leftmost None _ n k Hhit Hmin).
  - intros Hnone. unfold Ollama.sanitize_decision.
    pose proof (OllamaFacts.search_spec (Ollama.lower text) None) as Hs.
    destruct (Ollama.search None (Ollama.lower text)) as [k|]; [|reflexivity].
    destruct Hs as (n & Hhit & _). destruct (Hnone n k Hhit).
  - intros Hpost Hretries. destruct max_retries; [congruence|].
    now apply OllamaFacts.attempts_received.
  - apply OllamaFacts.sanitize_valid.
  - intros Hpost. destruct max_retries; simpl; [|rewrite Hpost]; reflexivity.
  - apply OllamaFacts.attempts_valid.
Qed.

Lemma C9_witness :
  Ollama.sanitize_decision "unfold, then Raise!" = "raise"%string /\
  Ollama.get_ai_decision (fun _ => Ollama.Content "unfold, then Raise!") 2
    = "raise"%string /\
  Ollama.get_ai_decision (fun _ => Ollama.RequestException) 2 = "fold"%string.
Proof.
  destruct (C9_decision_boundary "unfold, then Raise!"
              (fun _ => Ollama.Content "unfold, then Raise!") 2)
    as (Hascii & _).
  destruct (Hascii eq_refl) as (Hfirst & _ & Hreceived).
  destruct (C9_decision_boundary "unfold, then Raise!"
              (fun _ => Ollama.RequestException) 2)
    as (_ & _ & Hfailed & _).
  assert (Hraise :
            Ollama.sanitize_decision "unfold, then Raise!" = "raise"%string).
  { apply (Hfirst 13%nat).
    - repeat split; simpl; auto.
    - intros m k' Hm (Hk & Hsub & Hbefore & Hafter).
      simpl in Hk.
      do 13 (destruct m as [|m];
             [destruct Hk as [<-|[<-|[<-|[<-|[]]]]];
              (discriminate Hsub || discriminate Hbefore
               || discriminate Hafter)|]).
      lia. }
  split; [exact Hraise|]. split.
  - rewrite <- Hraise. apply Hreceived; [reflexivity|discriminate].
  - apply Hfailed. reflexivity.
Defined.

(* ================================================================== *)
(** ** Sorting *)

Section Sorting.

Lemma insert_insert x y : forall l,
  Py.insert x (Py.insert y l) = Py.insert y (Py.insert x l).
Proof.
  induction l as [|z l IH]; simpl;
    repeat match goal with
           | |- context [?a <=? ?b] => destruct (Z.leb_spec a b); simpl
           end;
    try lia; try reflexivity;
    try (assert (x = y) by lia; subst; reflexivity).
  now rewrite IH.
Qed.

(** The result of [sorted] depends on the elements only. *)
Lemma sorted_Permutation l l' : Permutation l l' -> Py.sorted l = Py.sorted l'.
Proof.
  induction 1 as [|x l l' _ IH|x y l|l l' l'' _ IH1 _ IH2]; simpl.
  - reflexivity.
  - now rewrite IH.
  - apply insert_insert.
  - now rewrite IH1.
Qed.

Lemma Permutation_insert x l : Permutation (Py.insert x l) (x :: l).
Proof.
  induction l as [|y l IH]; simpl; [reflexivity|].
  destruct (x <=? y); [reflexivity|].
  rewrite IH. apply perm_swap.
Qed.

Lemma Permutation_sorted l : Permutation (Py.sorted l) l.
Proof.
  induction l as [|x l IH]; simpl; [reflexivity|].
  rewrite Permutation_insert. now constructor.
Qed.

Lemma insert_ascending x l :
  StronglySorted Z.le l -> StronglySorted Z.le (Py.insert x l).
Proof.
  induction 1 as [|y l Hsorted IH Hall]; simpl.
  - repeat constructor.
  - destruct (Z.leb_spec x y).
    + constructor; [now constructor|]. constructor; [assumption|].
      eapply Forall_impl; [|exact Hall]. simpl. intros; lia.
    + constructor; [exact IH|].
      apply Forall_forall. intros z Hz. apply In_insert in Hz.
      destruct Hz as [->|Hz]; [lia|].
      rewrite Forall_forall in Hall. now apply Hall.
Qed.

Lemma sorted_ascending l : StronglySorted Z.le (Py.sorted l).
Proof.
  induction l as [|x l IH]; simpl; [constructor|]. now apply insert_ascending.
Qed.

Lemma StronglySorted_app_inv {A} (R : A -> A -> Prop) l1 l2 :
  StronglySorted R (l1 ++ l2) ->
  StronglySorted R l1 /\ StronglySorted R l2 /\
  (forall x y, In x l1 -> In y l2 -> R x y).
Proof.
  induction l1 as [|a l1 IH]; simpl; intros H.
  - repeat split; [constructor|assumption|intros ? ? []].
  - inversion H as [|? ? Hs Hall]; subst.
    destruct (IH Hs) as (H1 & H2 & H12).
    rewrite Forall_forall in Hall. repeat split.
    + constructor; [assumption|]. apply Forall_forall. intros x Hx.
      apply Hall, in_or_app. auto.
    + assumption.
    + intros x y [<-|Hx] Hy; [apply Hall, in_or_app; auto|now apply H12].
Qed.

Lemma StronglySorted_app {A} (R : A -> A -> Prop) l1 l2 :
  StronglySorted R l1 -> StronglySorted R l2 ->
  (forall x y, In x l1 -> In y l2 -> R x y) ->
  StronglySorted R (l1 ++ l2).
Proof.
  induction 1 as [|a l1 Hs IH Hall]; simpl; intros H2 H12; [assumption|].
  constructor.
  - apply IH; [assumption|]. intros x y Hx Hy. apply H12; simpl; auto.
  - apply Forall_forall. intros x Hx. apply in_app_or in Hx.
    destruct Hx as [Hx|Hx].
    + rewrite Forall_forall in Hall. now apply Hall.
    + apply H12; simpl; auto.
Qed.

Lemma rev_descending l : StronglySorted Z.le l -> descending (rev l).
Proof.
  unfold descending. induction 1 as [|a l Hs IH Hall]; simpl; [constructor|].
  apply StronglySorted_app; [assumption|repeat constructor|].
  intros x y Hx [<-|[]]. apply in_rev in Hx.
  rewrite Forall_forall in Hall. specialize (Hall x Hx). lia.
Qed.

Lemma sorted_reverse_descending l : descending (Py.sorted_reverse l).
Proof. apply rev_descending, sorted_ascending. Qed.

Lemma Permutation_sorted_reverse l : Permutation (Py.sorted_reverse l) l.
Proof.
  unfold Py.sorted_reverse. rewrite <- Permutation_rev. apply Permutation_sorted.
Qed.

Lemma sorted_reverse_Permutation l l' :
  Permutation l l' -> Py.sorted_reverse l = Py.sorted_reverse l'.
Proof. unfold Py.sorted_reverse. intros H. now rewrite (sorted_Permutation l l' H). Qed.

Lemma ascending_strict l :
  StronglySorted Z.le l -> NoDup l -> StronglySorted Z.lt l.
Proof.
  induction 1 as [|a l Hs IH Hall]; intros Hnd; [constructor|].
  inversion Hnd as [|? ? Hnotin Hnd']; subst.
  constructor; [auto|]. apply Forall_forall. intros x Hx.
  rewrite Forall_forall in Hall. specialize (Hall x Hx).
  assert (x <> a) by congruence. lia.
Qed.

(** The distinct ranks, as the scans see them: strictly increasing. *)
Lemma unique_ranks_strict ranks :
  StronglySorted Z.lt (Py.sorted (Py.set ranks)).
Proof.
  apply ascending_strict; [apply sorted_ascending|].
  apply (Permutation_NoDup (l := Py.set ranks)).
  - symmetry. apply Permutation_sorted.
  - apply NoDup_nodup.
Qed.

Lemma unique_ranks_Permutation l l' :
  Permutation l l' -> Py.sorted (Py.set l) = Py.sorted (Py.set l').
Proof.
  intros H. apply sorted_Permutation. unfold Py.set.
  apply NoDup_Permutation; try apply NoDup_nodup.
  intros x. rewrite !nodup_In. split; apply Permutation_in; [|symmetry]; exact H.
Qed.

End Sorting.

(* ================================================================== *)
(** ** Counters and permutations *)

Section PermutationFacts.

Lemma Permutation_filter {A} (f : A -> bool) l l' :
  Permutation l l' -> Permutation (filter f l) (filter f l').
Proof.
  induction 1 as [|x l l' _ IH|x y l|l l' l'' _ IH1 _ IH2]; simpl.
  - constructor.
  - destruct (f x); [now constructor|assumption].
  - destruct (f x), (f y); try reflexivity. apply perm_swap.
  - now transitivity (filter f l').
Qed.

Lemma existsb_Permutation {A} (f : A -> bool) l l' :
  Permutation l l' -> existsb f l = existsb f l'.
Proof.
  induction 1 as [|x l l' _ IH|x y l|l l' l'' _ IH1 _ IH2]; simpl.
  - reflexivity.
  - now rewrite IH.
  - destruct (f x), (f y); reflexivity.
  - congruence.
Qed.

Lemma existsb_same {A} (f g : A -> bool) l :
  (forall x, f x = g x) -> existsb f l = existsb g l.
Proof. intros H. induction l as [|x l IH]; simpl; [|rewrite H, IH]; reflexivity. Qed.

Context {K : Type} (eqb : K -> K -> bool).
Hypothesis eqb_spec : forall a b, reflect (a = b) (eqb a b).

Lemma count_Permutation l l' k :
  Permutation l l' -> Py.count eqb l k = Py.count eqb l' k.
Proof.
  intros H. unfold Py.count.
  apply Permutation_length. now apply Permutation_filter.
Qed.

Lemma Counter_In_iff l k n :
  In (k, n) (Py.Counter eqb l) <-> In k l /\ Py.count eqb l k = n.
Proof.
  split.
  - intros Hin. split.
    + apply (Counter_keys eqb eqb_spec). unfold Py.keys.
      change k with (fst (k, n)). now apply in_map.
    + now apply (Counter_In eqb eqb_spec).
  - intros [Hk Hn]. apply (Counter_keys eqb eqb_spec) in Hk.
    unfold Py.keys in Hk. apply in_map_iff in Hk.
    destruct Hk as ([k' n'] & Hfst & Hin). simpl in Hfst. subst k'.
    pose proof (Counter_In eqb eqb_spec _ _ _ Hin). congruence.
Qed.

Lemma NoDup_Counter l : NoDup (Py.Counter eqb l).
Proof.
  apply (NoDup_map_inv fst). apply (Counter_NoDup eqb eqb_spec).
Qed.

(** Counting a rearranged list gives the same entries, rearranged. *)
Lemma Counter_Permutation l l' :
  Permutation l l' -> Permutation (Py.Counter eqb l) (Py.Counter eqb l').
Proof.
  intros H. apply NoDup_Permutation; try apply NoDup_Counter.
  intros [k n]. rewrite !Counter_In_iff, (count_Permutation l l' k H).
  split; intros [Hin Hn]; (split; [|exact Hn]).
  - now apply (Permutation_in _ H).
  - now apply (Permutation_in _ (Permutation_sym H)).
Qed.

Lemma values_Permutation (c c' : list (K * nat)) :
  Permutation c c' -> Permutation (Py.values c) (Py.values c').
Proof. apply Permutation_map. Qed.

End PermutationFacts.

Lemma nat_in_Permutation n xs xs' :
  Permutation xs xs' -> Py.nat_in n xs = Py.nat_in n xs'.
Proof. apply existsb_Permutation. Qed.

Lemma nat_count_Permutation n xs xs' :
  Permutation xs xs' -> Py.nat_count n xs = Py.nat_count n xs'.
Proof.
  intros H. unfold Py.nat_count. apply Permutation_length.
  now apply Permutation_filter.
Qed.

(** *** [max] *)

Lemma fold_max_spec l : forall x,
  let m := fold_left Z.max l x in
  (m = x \/ In m l) /\ x <= m /\ forall y, In y l -> y <= m.
Proof.
  induction l as [|z l IH]; intros x; simpl.
  - repeat split; auto; try lia; intros y [].
  - destruct (IH (Z.max x z)) as (Hm & Hx & Hall).
    repeat split.
    + destruct Hm as [Hm|Hm]; [|auto].
      destruct (Z.max_spec x z) as [[_ Hz]|[_ Hz]]; rewrite Hz in Hm;
        [right; left; congruence|left; congruence].
    + lia.
    + intros y [<-|Hy]; [lia|auto].
Qed.

(** [max] returns a member that no member exceeds. *)
Lemma max_spec l m :
  Py.max l = Some m <-> In m l /\ forall y, In y l -> y <= m.
Proof.
  destruct l as [|x l]; simpl.
  - split; [discriminate|intros [[] _]].
  - pose proof (fold_max_spec l x) as (Hm & Hx & Hall). split.
    + intros H. inversion H; subst m. split.
      * destruct Hm as [Hm|Hm]; [left; congruence|right; exact Hm].
      * intros y [<-|Hy]; auto.
    + intros [Hin Hmax]. f_equal.
      assert (fold_left Z.max l x <= m).
      { apply Hmax. destruct Hm as [->|Hm]; auto. }
      assert (m <= fold_left Z.max l x).
      { destruct Hin as [<-|Hin]; auto. }
      lia.
Qed.

Lemma max_Permutation l l' : Permutation l l' -> Py.max l = Py.max l'.
Proof.
  intros H. destruct (Py.max l) as [m|] eqn:Hl.
  - symmetry. apply max_spec. apply max_spec in Hl. destruct Hl as [Hin Hmax].
    split; [now apply (Permutation_in _ H)|].
    intros y Hy. apply Hmax. now apply (Permutation_in _ (Permutation_sym H)).
  - destruct l; [|discriminate]. apply Permutation_nil in H. now subst.
Qed.

(* ================================================================== *)
(** ** The evaluator on rearranged cards *)

Section Rearranged.

Variables all_cards all_cards' : list Card.
Hypothesis rearranged : Permutation all_cards all_cards'.

Let ranks := map fst all_cards.
Let ranks' := map fst all_cards'.
Let rank_counts := Py.Counter Z.eqb ranks.
Let rank_counts' := Py.Counter Z.eqb ranks'.
Let suit_counts := Py.Counter Suit_eqb (map snd all_cards).
Let suit_counts' := Py.Counter Suit_eqb (map snd all_cards').

Lemma ranks_rearranged : Permutation ranks ranks'.
Proof. now apply Permutation_map. Qed.

Lemma rank_counts_rearranged : Permutation rank_counts rank_counts'.
Proof. apply (Counter_Permutation Z.eqb Z.eqb_spec), ranks_rearranged. Qed.

Lemma suit_counts_rearranged : Permutation suit_counts suit_counts'.
Proof.
  apply (Counter_Permutation Suit_eqb Suit_eqb_spec). now apply Permutation_map.
Qed.

Lemma rank_values_rearranged :
  Permutation (Py.values rank_counts) (Py.values rank_counts').
Proof. apply Permutation_map, rank_counts_rearranged. Qed.

Lemma suited_rearranged suit :
  Permutation
    (map fst (filter (fun card : Card => Suit_eqb (snd card) suit) all_cards))
    (map fst (filter (fun card : Card => Suit_eqb (snd card) suit) all_cards')).
Proof. now apply Permutation_map, Permutation_filter. Qed.

Lemma is_straight_rearranged l l' :
  Permutation l l' -> is_straight l = is_straight l'.
Proof.
  intros H. unfold is_straight. now rewrite (unique_ranks_Permutation l l' H).
Qed.

Lemma get_best_straight_rearranged l l' :
  Permutation l l' -> get_best_straight l = get_best_straight l'.
Proof.
  intros H. unfold get_best_straight.
  now rewrite (unique_ranks_Permutation l l' H).
Qed.

Lemma is_straight_flush_rearranged :
  is_straight_flush all_cards = is_straight_flush all_cards'.
Proof.
  unfold is_straight_flush. fold suit_counts suit_counts'.
  rewrite (existsb_Permutation _ _ _ suit_counts_rearranged).
  apply existsb_same. intros [suit n].
  now rewrite (is_straight_rearranged _ _ (suited_rearranged suit)).
Qed.

Lemma is_four_of_a_kind_rearranged :
  is_four_of_a_kind rank_counts = is_four_of_a_kind rank_counts'.
Proof. apply nat_in_Permutation, rank_values_rearranged. Qed.

Lemma is_full_house_rearranged :
  is_full_house rank_counts = is_full_house rank_counts'.
Proof.
  unfold is_full_house.
  now rewrite !(nat_in_Permutation _ _ _ rank_values_rearranged).
Qed.

Lemma is_flush_rearranged : is_flush suit_counts = is_flush suit_counts'.
Proof.
  unfold is_flush. apply existsb_Permutation, Permutation_map,
    suit_counts_rearranged.
Qed.

Lemma is_three_of_a_kind_rearranged :
  is_three_of_a_kind rank_counts = is_three_of_a_kind rank_counts'.
Proof. apply nat_in_Permutation, rank_values_rearranged. Qed.

Lemma is_two_pair_rearranged :
  is_two_pair rank_counts = is_two_pair rank_counts'.
Proof.
  unfold is_two_pair.
  now rewrite (nat_count_Permutation _ _ _ rank_values_rearranged).
Qed.

Lemma is_one_pair_rearranged :
  is_one_pair rank_counts = is_one_pair rank_counts'.
Proof. apply nat_in_Permutation, rank_values_rearranged. Qed.

Lemma category_rearranged : category all_cards = category all_cards'.
Proof.
  unfold category. fold ranks ranks' rank_counts rank_counts'
    suit_counts suit_counts'.
  rewrite is_straight_flush_rearranged, is_four_of_a_kind_rearranged,
    is_full_house_rearranged, is_flush_rearranged,
    (is_straight_rearranged _ _ ranks_rearranged),
    is_three_of_a_kind_rearranged, is_two_pair_rearranged,
    is_one_pair_rearranged.
  reflexivity.
Qed.

End Rearranged.

Lemma evaluate_hand_category hand community hand_rank best_ranks :
  evaluate_hand hand community = Some (hand_rank, best_ranks) ->
  hand_rank = category (hand ++ community).
Proof.
  unfold evaluate_hand, category. intros H.
  repeat match type of H with
         | (if ?c then _ else _) = _ => destruct c
         | scored _ _ = _ => apply scored_rank in H; exact H
         | Some _ = _ => inversion H; reflexivity
         end.
Qed.

Lemma heavy_entries_bound {K} (n : nat) (f : K * nat -> bool) c :
  (forall e, f e = true -> (n <= snd e)%nat) ->
  (n * List.length (filter f c) <= list_sum (Py.values c))%nat.
Proof.
  intros Hf. induction c as [|e c IH]; [simpl; lia|].
  change (list_sum (Py.values (e :: c)))
    with (snd e + list_sum (Py.values c))%nat.
  cbn [filter]. destruct (f e) eqn:He; cbn [List.length]; [|lia].
  specialize (Hf e He). lia.
Qed.

Lemma Permutation_short {A} (a b : list A) :
  Permutation a b -> (List.length a <= 1)%nat -> a = b.
Proof.
  intros H Hlen. destruct a as [|x [|y a]]; simpl in Hlen; [| |lia].
  - symmetry. now apply Permutation_nil.
  - symmetry. now apply Permutation_length_1_inv.
Qed.

Lemma length_ranks_with_count n rc :
  List.length (ranks_with_count n rc) = Py.nat_count n (Py.values rc).
Proof.
  unfold ranks_with_count, Py.keys, Py.nat_count, Py.values.
  rewrite length_map. induction rc as [|[k m] rc IH]; [reflexivity|].
  cbn [filter map snd]. rewrite (Nat.eqb_sym n m).
  destruct (Nat.eqb m n); cbn [List.length]; now rewrite IH.
Qed.

Section RearrangedBest.

Variables all_cards all_cards' : list Card.
Hypothesis rearranged : Permutation all_cards all_cards'.
Hypothesis short : (List.length all_cards <= 7)%nat.

Let ranks := map fst all_cards.
Let ranks' := map fst all_cards'.
Let rank_counts := Py.Counter Z.eqb ranks.
Let rank_counts' := Py.Counter Z.eqb ranks'.

Lemma ranks_with_count_rearranged n :
  Permutation (ranks_with_count n rank_counts)
              (ranks_with_count n rank_counts').
Proof.
  unfold ranks_with_count, Py.keys.
  apply Permutation_map, Permutation_filter.
  apply (rank_counts_rearranged _ _ rearranged).
Qed.

Lemma get_best_four_of_a_kind_rearranged :
  get_best_four_of_a_kind rank_counts = get_best_four_of_a_kind rank_counts'.
Proof.
  unfold get_best_four_of_a_kind.
  rewrite <- (Permutation_short _ _ (ranks_with_count_rearranged 4)).
  - destruct (hd_error _) as [four_rank|]; [|reflexivity].
    rewrite (max_Permutation
               (filter (fun rank => negb (rank =? four_rank)) (Py.keys rank_counts))
               (filter (fun rank => negb (rank =? four_rank)) (Py.keys rank_counts')));
      [reflexivity|].
    apply Permutation_filter, Permutation_map.
    apply (rank_counts_rearranged _ _ rearranged).
  - unfold ranks_with_count, Py.keys. rewrite length_map.
    pose proof (heavy_entries_bound 4
                  (fun rc : Z * nat => Nat.eqb (snd rc) 4) rank_counts) as Hb.
    unfold rank_counts at 2 in Hb.
    rewrite (Counter_sum Z.eqb Z.eqb_spec) in Hb. unfold ranks in Hb.
    rewrite length_map in Hb.
    assert (4 * List.length
                  (filter (fun rc : Z * nat => Nat.eqb (snd rc) 4) rank_counts)
            <= 7)%nat; [|lia].
    etransitivity; [apply Hb|exact short].
    intros e He. apply Nat.eqb_eq in He. lia.
Qed.

Lemma get_best_flush_rearranged :
  get_best_flush all_cards = get_best_flush all_cards'.
Proof.
  unfold get_best_flush.
  set (suit_counts := Py.Counter Suit_eqb (map snd all_cards)).
  set (suit_counts' := Py.Counter Suit_eqb (map snd all_cards')).
  assert (Hperm : Permutation suit_counts suit_counts')
    by apply (suit_counts_rearranged _ _ rearranged).
  rewrite <- (Permutation_short
                (Py.keys (filter (fun sc : Suit * nat => (5 <=? snd sc)%nat)
                            suit_counts))
                (Py.keys (filter (fun sc : Suit * nat => (5 <=? snd sc)%nat)
                            suit_counts'))).
  - destruct (hd_error _) as [flush_suit|]; [|reflexivity].
    now rewrite (sorted_reverse_Permutation _ _
                   (suited_rearranged _ _ rearranged flush_suit)).
  - unfold Py.keys. now apply Permutation_map, Permutation_filter.
  - unfold Py.keys. rewrite length_map.
    pose proof (heavy_entries_bound 5
                  (fun sc : Suit * nat => (5 <=? snd sc)%nat) suit_counts) as Hb.
    unfold suit_counts at 2 in Hb.
    rewrite (Counter_sum Suit_eqb Suit_eqb_spec), length_map in Hb.
    assert (5 * List.length
                  (filter (fun sc : Suit * nat => (5 <=? snd sc)%nat) suit_counts)
            <= 7)%nat; [|lia].
    etransitivity; [apply Hb|exact short].
    intros e He. now apply Nat.leb_le in He.
Qed.

Lemma get_best_two_pair_rearranged :
  get_best_two_pair rank_counts ranks = get_best_two_pair rank_counts' ranks'.
Proof.
  unfold get_best_two_pair.
  rewrite (sorted_reverse_Permutation _ _ (ranks_with_count_rearranged 2)).
  set (pairs := firstn 2 _).
  rewrite (max_Permutation
             (filter (fun rank => negb (Py.mem Z.eqb rank pairs)) ranks)
             (filter (fun rank => negb (Py.mem Z.eqb rank pairs)) ranks'));
    [reflexivity|].
  apply Permutation_filter, (ranks_rearranged _ _ rearranged).
Qed.

Lemma get_best_one_pair_rearranged :
  is_two_pair rank_counts = false ->
  get_best_one_pair rank_counts ranks = get_best_one_pair rank_counts' ranks'.
Proof.
  intros Hone. unfold get_best_one_pair.
  rewrite <- (Permutation_short _ _ (ranks_with_count_rearranged 2)).
  - destruct (hd_error _) as [pair_rank|]; [|reflexivity].
    rewrite (sorted_reverse_Permutation
               (filter (fun rank => negb (rank =? pair_rank)) ranks)
               (filter (fun rank => negb (rank =? pair_rank)) ranks'));
      [reflexivity|].
    apply Permutation_filter, (ranks_rearranged _ _ rearranged).
  - rewrite length_ranks_with_count. unfold is_two_pair in Hone.
    apply Nat.leb_gt in Hone. lia.
Qed.

Lemma get_high_card_rearranged : get_high_card ranks = get_high_card ranks'.
Proof.
  apply sorted_reverse_Permutation, (ranks_rearranged _ _ rearranged).
Qed.

End RearrangedBest.

(* ================================================================== *)
(** ** Further properties of the hand evaluator *)

(** X1.  The score of a hand does not depend on the order of the cards,
    nor on how they are split between the hand and the board: for any
    number of cards but four, both evaluations succeed with one score. *)
Theorem X1_score_ignores_order
    (hand community hand' community' : list Card) :
  Permutation (hand ++ community) (hand' ++ community') ->
  List.length (hand ++ community) <> 4%nat ->
  exists hand_rank best_ranks best_ranks',
    evaluate_hand hand community = Some (hand_rank, best_ranks) /\
    evaluate_hand hand' community' = Some (hand_rank, best_ranks').
Proof.
  intros Hperm Hlen.
  destruct (evaluate_hand_defined hand community Hlen) as (v & r & He).
  destruct (evaluate_hand_defined hand' community') as (v' & r' & He').
  { now rewrite <- (Permutation_length Hperm). }
  exists v, r, r'. split; [exact He|]. rewrite He'.
  apply evaluate_hand_category in He, He'.
  rewrite He, He', (category_rearranged _ _ Hperm). reflexivity.
Qed.

Lemma X1_witness :
  exists hand_rank best_ranks best_ranks',
    evaluate_hand Ex.fives_hand Ex.fives_board = Some (hand_rank, best_ranks) /\
    evaluate_hand Ex.deuces_hand Ex.deuces_board
    = Some (hand_rank, best_ranks').
Proof.
  apply X1_score_ignores_order.
  - apply (Permutation_app_comm
             [(5, hearts); (5, clubs); (5, spades); (9, clubs); (9, hearts)]
             [(2, diamonds); (2, spades)]).
  - discriminate.
Defined.

(** X2.  On at most seven cards, the whole result, score and tie-break,
    does not depend on the order of the cards unless the hand is scored
    FullHouse (7) or ThreeOfAKind (4). *)
Theorem X2_result_ignores_order
    (hand community hand' community' : list Card)
    (hand_rank : Z) (best_ranks : list Z) :
  Permutation (hand ++ community) (hand' ++ community') ->
  (List.length (hand ++ community) <= 7)%nat ->
  evaluate_hand hand community = Some (hand_rank, best_ranks) ->
  hand_rank <> 7 -> hand_rank <> 4 ->
  evaluate_hand hand' community' = Some (hand_rank, best_ranks).
Proof.
  intros Hperm Hshort Heval H7 H4. unfold evaluate_hand in *. cbv zeta in *.
  rewrite <- (is_straight_flush_rearranged _ _ Hperm),
    <- (is_four_of_a_kind_rearranged _ _ Hperm),
    <- (is_full_house_rearranged _ _ Hperm),
    <- (is_flush_rearranged _ _ Hperm),
    <- (is_straight_rearranged _ _ (ranks_rearranged _ _ Hperm)),
    <- (is_three_of_a_kind_rearranged _ _ Hperm),
    <- (is_two_pair_rearranged _ _ Hperm),
    <- (is_one_pair_rearranged _ _ Hperm),
    <- (get_best_straight_rearranged _ _ (ranks_rearranged _ _ Hperm)),
    <- (get_best_four_of_a_kind_rearranged _ _ Hperm Hshort),
    <- (get_best_flush_rearranged _ _ Hperm Hshort),
    <- (get_best_two_pair_rearranged _ _ Hperm),
    <- (get_high_card_rearranged _ _ Hperm).
  destruct (is_straight_flush _); [exact Heval|].
  destruct (is_four_of_a_kind _); [exact Heval|].
  destruct (is_full_house _).
  { apply scored_rank in Heval. congruence. }
  destruct (is_flush _); [exact Heval|].
  destruct (is_straight _); [exact Heval|].
  destruct (is_three_of_a_kind _).
  { apply scored_rank in Heval. congruence. }
  destruct (is_two_pair _) eqn:Htwo; [exact Heval|].
  rewrite <- (get_best_one_pair_rearranged _ _ Hperm Hshort Htwo).
  exact Heval.
Qed.

Lemma X2_witness :
  evaluate_hand Ex.royal_board Ex.royal_hand = Some (9, [14; 13; 12; 11; 10]).
Proof.
  apply (X2_result_ignores_order Ex.royal_hand Ex.royal_board).
  - apply Permutation_app_comm.
  - simpl. lia.
  - reflexivity.
  - discriminate.
  - discriminate.
Defined.

(** *** Runs in the distinct ranks *)

Lemma strict_next x l :
  StronglySorted Z.lt (x :: l) -> In (x + 1) l -> exists l', l = (x + 1) :: l'.
Proof.
  intros Hs Hin. inversion Hs as [|? ? Hl Hall]; subst.
  destruct l as [|y l']; [contradiction|].
  inversion Hall as [|? ? Hxy _]; subst.
  inversion Hl as [|? ? _ Hall']; subst.
  destruct Hin as [->|Hin]; [eauto|].
  rewrite Forall_forall in Hall'. specialize (Hall' _ Hin). lia.
Qed.

Lemma strict_tail x l : StronglySorted Z.lt (x :: l) -> StronglySorted Z.lt l.
Proof. inversion 1; assumption. Qed.

Lemma strict_run x l :
  StronglySorted Z.lt (x :: l) ->
  (forall j, 1 <= j < 5 -> In (x + j) l) ->
  exists l', l = [x + 1; x + 2; x + 3; x + 4] ++ l'.
Proof.
  intros Hs Hin.
  destruct (strict_next x l Hs (Hin 1 ltac:(lia))) as (l1 & ->).
  apply strict_tail in Hs.
  assert (H2 : In (x + 1 + 1) l1).
  { destruct (Hin 2 ltac:(lia)) as [H|H]; [lia|]. now replace (x + 1 + 1) with (x + 2) by lia. }
  destruct (strict_next _ _ Hs H2) as (l2 & ->). apply strict_tail in Hs.
  assert (H3 : In (x + 1 + 1 + 1) l2).
  { destruct (Hin 3 ltac:(lia)) as [H|[H|H]]; try lia.
    now replace (x + 1 + 1 + 1) with (x + 3) by lia. }
  destruct (strict_next _ _ Hs H3) as (l3 & ->). apply strict_tail in Hs.
  assert (H4 : In (x + 1 + 1 + 1 + 1) l3).
  { destruct (Hin 4 ltac:(lia)) as [H|[H|[H|H]]]; try lia.
    now replace (x + 1 + 1 + 1 + 1) with (x + 4) by lia. }
  destruct (strict_next _ _ Hs H4) as (l4 & ->).
  exists l4. simpl.
  replace (x + 1 + 1 + 1 + 1) with (x + 4) by lia.
  replace (x + 1 + 1 + 1) with (x + 3) by lia.
  replace (x + 1 + 1) with (x + 2) by lia. reflexivity.
Qed.

(** Five consecutive values stand side by side in a strictly increasing
    list. *)
Lemma run_position u a :
  StronglySorted Z.lt u ->
  (forall j, 0 <= j < 5 -> In (a + j) u) ->
  exists l1 l3,
    u = l1 ++ Py.range5 a ++ l3 /\ (forall y, In y l1 -> y < a).
Proof.
  intros Hs Hin.
  assert (Ha : In a u) by (replace a with (a + 0) by lia; apply Hin; lia).
  apply in_split in Ha. destruct Ha as (l1 & l2 & ->).
  apply StronglySorted_app_inv in Hs. destruct Hs as (_ & Hs2 & Hlt).
  assert (Hbelow : forall y, In y l1 -> y < a).
  { intros y Hy. apply Hlt; simpl; auto. }
  destruct (strict_run a l2 Hs2) as (l3 & ->).
  { intros j Hj. specialize (Hin j ltac:(lia)).
    apply in_app_or in Hin. destruct Hin as [Hin|[Hin|Hin]]; [|lia|exact Hin].
    specialize (Hbelow _ Hin). lia. }
  exists l1, l3. split; [|exact Hbelow].
  unfold Py.range5. reflexivity.
Qed.

Lemma window_at l1 a l3 :
  let u := l1 ++ Py.range5 a ++ l3 in
  window_is_run u (List.length l1) = true /\
  In (List.length l1) (seq 0 (List.length u - 4)).
Proof.
  intros u. split.
  - assert (Hnth : nth_error u (List.length l1) = Some a).
    { unfold u. rewrite nth_error_app2, Nat.sub_diag by lia. reflexivity. }
    assert (Hw : Py.window5 u (List.length l1) = Py.range5 a).
    { unfold Py.window5, u.
      rewrite skipn_app, skipn_all, Nat.sub_diag. reflexivity. }
    unfold window_is_run. rewrite Hnth, Hw.
    destruct (list_eq_dec Z.eq_dec (Py.range5 a) (Py.range5 a));
      [reflexivity|congruence].
  - apply in_seq. unfold u. rewrite !length_app. simpl. lia.
Qed.

Lemma window_run u i :
  window_is_run u i = true ->
  exists a, nth_error u i = Some a /\ Py.window5 u i = Py.range5 a.
Proof.
  unfold window_is_run. destruct (nth_error u i) as [a|]; [|discriminate].
  destruct (list_eq_dec _ _ _); [eauto|discriminate].
Qed.

Lemma window_has_run ranks i :
  window_is_run (Py.sorted (Py.set ranks)) i = true ->
  exists a, nth_error (Py.sorted (Py.set ranks)) i = Some a /\
            forall j, 0 <= j < 5 -> In (a + j) ranks.
Proof.
  intros H. destruct (window_run _ _ H) as (a & Ha & Hw).
  exists a. split; [exact Ha|]. intros j Hj.
  apply In_unique_ranks.
  apply nth_error_In with (n := (i + Z.to_nat j)%nat).
  rewrite (window5_nth _ i a (Z.to_nat j) Hw) by lia.
  f_equal. lia.
Qed.

Lemma is_straight_sound ranks :
  is_straight ranks = true -> has_run ranks \/ has_wheel ranks.
Proof.
  unfold is_straight. set (u := Py.sorted (Py.set ranks)).
  destruct (List.length u <? 5)%nat; [discriminate|].
  destruct (existsb _ _) eqn:Hscan.
  - intros _. left. apply existsb_exists in Hscan.
    destruct Hscan as (i & _ & Hrun).
    destruct (window_has_run ranks i Hrun) as (a & _ & Ha). now exists a.
  - intros Hwheel. right. unfold wheel_subset in Hwheel.
    rewrite forallb_forall in Hwheel.
    assert (Hmem : forall r, In r [14; 2; 3; 4; 5] -> In r ranks).
    { intros r Hr. specialize (Hwheel r Hr). unfold Py.mem in Hwheel.
      apply existsb_exists in Hwheel. destruct Hwheel as (x & Hx & Heq).
      apply Z.eqb_eq in Heq. subst x. now apply In_unique_ranks. }
    unfold has_wheel. repeat split; apply Hmem; simpl; auto 6.
Qed.

Lemma is_straight_complete ranks :
  has_run ranks \/ has_wheel ranks -> is_straight ranks = true.
Proof.
  unfold is_straight. set (u := Py.sorted (Py.set ranks)).
  pose proof (unique_ranks_strict ranks) as Hstrict. fold u in Hstrict.
  intros [(a & Ha)|Hwheel].
  - destruct (run_position u a Hstrict) as (l1 & l3 & Hu & _).
    { intros j Hj. apply In_unique_ranks, Ha, Hj. }
    destruct (window_at l1 a l3) as [Hrun Hseq]. rewrite <- Hu in Hrun, Hseq.
    assert (Hlen : (5 <= List.length u)%nat).
    { rewrite Hu, !length_app. simpl. lia. }
    destruct (Nat.ltb_spec (List.length u) 5); [lia|].
    assert (Hscan : existsb (window_is_run u) (seq 0 (List.length u - 4)) = true).
    { apply existsb_exists. eauto. }
    now rewrite Hscan.
  - assert (Hmem : forall r, In r [14; 2; 3; 4; 5] -> In r u).
    { unfold has_wheel in Hwheel. intros r Hr. apply In_unique_ranks.
      simpl in Hr. intuition (subst; assumption). }
    assert (Hlen : (5 <= List.length u)%nat).
    { apply (NoDup_incl_length (l := [14; 2; 3; 4; 5])); [|exact Hmem].
      repeat (constructor; [simpl; intuition lia|]). constructor. }
    destruct (Nat.ltb_spec (List.length u) 5); [lia|].
    destruct (existsb _ _); [reflexivity|].
    unfold wheel_subset. apply forallb_forall. intros r Hr.
    unfold Py.mem. apply existsb_exists. exists r. split; [auto|].
    apply Z.eqb_refl.
Qed.

Lemma is_straight_length ranks :
  is_straight ranks = true -> (5 <= List.length ranks)%nat.
Proof.
  unfold is_straight.
  destruct (Nat.ltb_spec (List.length (Py.sorted (Py.set ranks))) 5) as [|Hlen];
    [discriminate|].
  intros _. rewrite length_sorted in Hlen.
  etransitivity; [exact Hlen|].
  apply NoDup_incl_length; [apply NoDup_nodup|].
  intros x Hx. unfold Py.set in Hx. now apply nodup_In in Hx.
Qed.

(** X3.  [is_straight] holds exactly when the ranks contain five
    consecutive values, or the wheel 14, 2, 3, 4, 5. *)
Theorem X3_is_straight_iff (ranks : list Z) :
  is_straight ranks = true <-> has_run ranks \/ has_wheel ranks.
Proof.
  split; intros H.
  - now apply is_straight_sound.
  - now apply is_straight_complete.
Qed.

Lemma X3_witness :
  is_straight [9; 3; 6; 14; 7; 5; 4] = true /\ is_straight [14; 9; 2; 3; 4; 5; 9] = true.
Proof.
  split; apply X3_is_straight_iff.
  - left. exists 3. intros j Hj.
    assert (j = 0 \/ j = 1 \/ j = 2 \/ j = 3 \/ j = 4) as [->|[->|[->|[->| ->]]]]
      by lia; simpl; auto 12.
  - right. unfold has_wheel. simpl. auto 12.
Defined.

Lemma find_seq_first (f : nat -> bool) n : forall s i,
  find f (seq s n) = Some i ->
  (s <= i < s + n)%nat /\ f i = true /\
  forall j, (s <= j < i)%nat -> f j = false.
Proof.
  induction n as [|n IH]; intros s i; simpl; [discriminate|].
  destruct (f s) eqn:Hs.
  - intros H. inversion H; subst i. repeat split; try lia. exact Hs.
  - intros H. destruct (IH _ _ H) as (Hrange & Hi & Hfirst).
    repeat split; try lia; [exact Hi|].
    intros j Hj. destruct (Nat.eq_dec j s) as [->|]; [exact Hs|].
    apply Hfirst. lia.
Qed.

Lemma lowest_run_scored (ranks : list Z) (a : Z) :
  (forall j, 0 <= j < 5 -> In (a + j) ranks) ->
  (forall b, b < a -> ~ (forall j, 0 <= j < 5 -> In (b + j) ranks)) ->
  ((forall r, In r ranks -> a <= r) -> get_best_straight ranks = []) /\
  ((exists r, In r ranks /\ r < a) ->
   get_best_straight ranks = [a + 4; a + 3; a + 2; a + 1; a]).
Proof.
  intros Hrun Hleast.
  pose proof (unique_ranks_strict ranks) as Hstrict.
  destruct (run_position _ a Hstrict) as (l1 & l3 & Hu & Hbelow).
  { intros j Hj. apply In_unique_ranks, Hrun, Hj. }
  destruct (window_at l1 a l3) as [Hwin Hseq]. rewrite <- Hu in Hwin, Hseq.
  unfold get_best_straight.
  destruct (find _ _) as [i|] eqn:Hfind.
  2:{ apply find_none with (x := List.length l1) in Hfind; [congruence|exact Hseq]. }
  destruct (find_seq_first _ _ _ _ Hfind) as (Hrange & Hi & Hfirst).
  assert (Hii : i = List.length l1).
  { destruct (Nat.lt_trichotomy i (List.length l1)) as [Hlt|[Heq|Hgt]];
      [exfalso|exact Heq|exfalso].
    - destruct (window_has_run ranks i Hi) as (b & Hb & Hbrun).
      rewrite Hu, nth_error_app1 in Hb by exact Hlt.
      apply nth_error_In, Hbelow in Hb. exact (Hleast b Hb Hbrun).
    - rewrite (Hfirst (List.length l1)) in Hwin; [discriminate|lia]. }
  subst i.
  assert (Hw : Py.window5 (Py.sorted (Py.set ranks)) (List.length l1)
               = Py.range5 a).
  { destruct (window_run _ _ Hwin) as (a' & Ha' & Hw).
    rewrite Hu, nth_error_app2, Nat.sub_diag in Ha' by lia.
    inversion Ha'; subst a'. exact Hw. }
  split.
  - intros Hmin. destruct l1 as [|y l1].
    + change (Z.of_nat (List.length (@nil Z)) + 4) with 4.
      change (Z.of_nat (List.length (@nil Z)) - 1) with (-1).
      apply slice_down_first_window. rewrite Hu, length_app. simpl. lia.
    + exfalso. assert (Hy : y < a) by (apply Hbelow; simpl; auto).
      assert (In y ranks).
      { apply In_unique_ranks. rewrite Hu. simpl. auto. }
      specialize (Hmin y H). lia.
  - intros (r & Hr & Hlt). apply slice_down_window; [| |exact Hw].
    + destruct l1; [|simpl; lia]. exfalso.
      apply In_unique_ranks in Hr. rewrite Hu in Hr. simpl in Hr.
      rewrite Hu in Hstrict. simpl in Hstrict.
      inversion Hstrict as [|? ? _ Hall]; subst.
      rewrite Forall_forall in Hall.
      destruct Hr as [Hr|Hr]; [lia|]. specialize (Hall r Hr). lia.
    + rewrite Hu, !length_app. simpl. lia.
Qed.

(** X4.  When the ranks hold five consecutive values, [get_best_straight]
    answers for the lowest such run, from [a] to [a + 4]: the five ranks
    from the top down if a lower rank is present, and the empty list if
    [a] is the lowest rank of all. *)
Theorem X4_lowest_run_is_scored (ranks : list Z) (a : Z) :
  (forall j, 0 <= j < 5 -> In (a + j) ranks) ->
  (forall b, b < a -> ~ (forall j, 0 <= j < 5 -> In (b + j) ranks)) ->
  ((forall r, In r ranks -> a <= r) -> get_best_straight ranks = []) /\
  ((exists r, In r ranks /\ r < a) ->
   get_best_straight ranks = [a + 4; a + 3; a + 2; a + 1; a]).
Proof.
  intros Hrun Hleast.
  destruct (lowest_run_scored ranks a Hrun Hleast) as [Hfirst Hslice].
  split; [exact Hfirst|exact Hslice].
Qed.

Lemma X4_witness :
  get_best_straight [5; 2; 9; 8; 4; 7; 6] = [8; 7; 6; 5; 4] /\
  get_best_straight [9; 5; 6; 7; 5; 8] = [].
Proof.
  split.
  - apply (X4_lowest_run_is_scored [5; 2; 9; 8; 4; 7; 6] 4).
    + intros j Hj.
      assert (j = 0 \/ j = 1 \/ j = 2 \/ j = 3 \/ j = 4)
        as [->|[->|[->|[->| ->]]]] by lia; simpl; auto 12.
    + intros b Hb Hrun.
      pose proof (Hrun 0 ltac:(lia)) as H0. pose proof (Hrun 1 ltac:(lia)) as H1.
      simpl in H0, H1. lia.
    + exists 2. simpl. split; [auto|lia].
  - apply (X4_lowest_run_is_scored [9; 5; 6; 7; 5; 8] 5).
    + intros j Hj.
      assert (j = 0 \/ j = 1 \/ j = 2 \/ j = 3 \/ j = 4)
        as [->|[->|[->|[->| ->]]]] by lia; simpl; auto 12.
    + intros b Hb Hrun. pose proof (Hrun 0 ltac:(lia)) as H0.
      simpl in H0. lia.
    + intros r Hr. simpl in Hr. lia.
Defined.

(** *** What the tie-breaks are made of *)

Lemma scored_value hand_rank best hand_rank' best_ranks :
  scored hand_rank best = Some (hand_rank', best_ranks) -> best = Some best_ranks.
Proof. destruct best; simpl; intros H; inversion H; reflexivity. Qed.

(** The branch of [evaluate_hand] that produced a result: the tests
    before it failed, its own test held. *)
Ltac evaluate_branch H :=
  unfold evaluate_hand in H; cbv zeta in H;
  repeat match type of H with
         | (if ?c then _ else _) = _ => destruct c eqn:?
         end;
  try (let H' := fresh in
       pose proof (scored_rank _ _ _ _ H) as H'; discriminate H');
  try discriminate H.

Lemma count_filter_fst (all_cards : list Card) k :
  Py.count Z.eqb (map fst all_cards) k
  = List.length (filter (fun card : Card => fst card =? k) all_cards).
Proof.
  unfold Py.count. induction all_cards as [|[r s] l IH]; [reflexivity|].
  cbn [map filter fst]. rewrite (Z.eqb_sym k r).
  destruct (r =? k); cbn [List.length]; now rewrite IH.
Qed.

Lemma count_filter_snd (all_cards : list Card) suit :
  Py.count Suit_eqb (map snd all_cards) suit
  = List.length (filter (fun card : Card => Suit_eqb (snd card) suit) all_cards).
Proof.
  unfold Py.count. induction all_cards as [|[r s] l IH]; [reflexivity|].
  cbn [map filter snd].
  replace (Suit_eqb suit s) with (Suit_eqb s suit) by (destruct s, suit; reflexivity).
  destruct (Suit_eqb s suit); cbn [List.length]; now rewrite IH.
Qed.

(** X5.  A FourOfAKind result (score 8) names a rank that exactly four
    cards hold, then the highest of the other ranks. *)
Theorem X5_four_of_a_kind_tie_break
    (hand community : list Card) (best_ranks : list Z) :
  evaluate_hand hand community = Some (8, best_ranks) ->
  exists four_rank kicker,
    best_ranks = [four_rank; kicker] /\
    List.length (filter (fun card : Card => fst card =? four_rank)
                   (hand ++ community)) = 4%nat /\
    In kicker (map fst (hand ++ community)) /\
    kicker <> four_rank /\
    forall rank, In rank (map fst (hand ++ community)) ->
                 rank <> four_rank -> rank <= kicker.
Proof.
  intros H. evaluate_branch H. apply scored_value in H.
  unfold get_best_four_of_a_kind in H.
  destruct (hd_error _) as [four_rank|] eqn:Hfour; [|discriminate].
  destruct (Py.max _) as [kicker|] eqn:Hmax; [|discriminate].
  inversion H; subst best_ranks. exists four_rank, kicker.
  assert (Hin : In four_rank (ranks_with_count 4
                  (Py.Counter Z.eqb (map fst (hand ++ community))))).
  { destruct (ranks_with_count 4 _); [discriminate|].
    inversion Hfour. simpl. auto. }
  apply In_ranks_with_count, (Counter_In Z.eqb Z.eqb_spec) in Hin.
  rewrite count_filter_fst in Hin.
  apply max_spec in Hmax. destruct Hmax as [Hk Hhigh].
  apply filter_In in Hk. destruct Hk as [Hk Hne].
  apply (proj1 (Counter_keys Z.eqb Z.eqb_spec _ _)) in Hk.
  apply negb_true_iff, Z.eqb_neq in Hne.
  split; [reflexivity|]. split; [exact Hin|]. split; [exact Hk|].
  split; [exact Hne|].
  intros rank Hrank Hother. apply Hhigh, filter_In. split.
  - now apply (Counter_keys Z.eqb Z.eqb_spec).
  - now apply negb_true_iff, Z.eqb_neq.
Qed.

Lemma X5_witness :
  exists four_rank kicker,
    [2; 9] = [four_rank; kicker] /\
    List.length (filter (fun card : Card => fst card =? four_rank)
                   ([(2, clubs); (2, spades)] ++
                    [(2, hearts); (2, diamonds); (9, clubs); (5, spades);
                     (7, hearts)])) = 4%nat /\
    In kicker (map fst ([(2, clubs); (2, spades)] ++
                        [(2, hearts); (2, diamonds); (9, clubs); (5, spades);
                         (7, hearts)])) /\
    kicker <> four_rank /\
    forall rank,
      In rank (map fst ([(2, clubs); (2, spades)] ++
                        [(2, hearts); (2, diamonds); (9, clubs); (5, spades);
                         (7, hearts)])) ->
      rank <> four_rank -> rank <= kicker.
Proof.
  apply (X5_four_of_a_kind_tie_break [(2, clubs); (2, spades)]
           [(2, hearts); (2, diamonds); (9, clubs); (5, spades); (7, hearts)]).
  reflexivity.
Defined.

(** X6.  A Flush result (score 6) lists five ranks from the highest
    down, taken from the cards of one suit that at least five cards
    share; no other card of that suit is higher than any of them. *)
Theorem X6_flush_tie_break
    (hand community : list Card) (best_ranks : list Z) :
  evaluate_hand hand community = Some (6, best_ranks) ->
  List.length best_ranks = 5%nat /\
  descending best_ranks /\
  exists suit others,
    Permutation (best_ranks ++ others)
      (map fst (filter (fun card : Card => Suit_eqb (snd card) suit)
                  (hand ++ community))) /\
    forall x y, In x best_ranks -> In y others -> y <= x.
Proof.
  intros H. evaluate_branch H. apply scored_value in H.
  unfold get_best_flush in H.
  destruct (hd_error _) as [flush_suit|] eqn:Hsuit; [|discriminate].
  set (suited := map fst (filter (fun card : Card => Suit_eqb (snd card) flush_suit)
                            (hand ++ community))) in *.
  assert (Hbest : firstn 5 (Py.sorted_reverse suited) = best_ranks)
    by congruence.
  clear H.
  assert (Hmany : (5 <= List.length suited)%nat).
  { unfold Py.keys in Hsuit.
    destruct (filter _ (Py.Counter Suit_eqb _)) as [|[s n] rest] eqn:Hf;
      [discriminate|].
    inversion Hsuit; subst s.
    assert (Hin : In (flush_suit, n)
                    (filter (fun sc : Suit * nat => (5 <=? snd sc)%nat)
                       (Py.Counter Suit_eqb (map snd (hand ++ community)))))
      by (rewrite Hf; simpl; auto).
    apply filter_In in Hin. destruct Hin as [Hin Hn]. cbn [snd] in Hn.
    apply Nat.leb_le in Hn.
    apply (Counter_In Suit_eqb Suit_eqb_spec) in Hin.
    rewrite count_filter_snd in Hin. unfold suited.
    rewrite length_map. rewrite <- Hin in Hn. exact Hn. }
  pose proof (sorted_reverse_descending suited) as Hdesc.
  pose proof (Permutation_sorted_reverse suited) as Hperm.
  rewrite <- (firstn_skipn 5 (Py.sorted_reverse suited)) in Hdesc, Hperm.
  unfold descending in *.
  apply StronglySorted_app_inv in Hdesc. destruct Hdesc as (Hd1 & _ & Hcross).
  rewrite <- Hbest. split; [|split; [exact Hd1|]].
  - rewrite length_firstn.
    rewrite (Permutation_length (Permutation_sorted_reverse suited)). lia.
  - exists flush_suit, (skipn 5 (Py.sorted_reverse suited)).
    split; [exact Hperm|]. intros x y Hx Hy. specialize (Hcross x y Hx Hy). lia.
Qed.

Lemma X6_witness :
  List.length [13; 10; 9; 6; 3] = 5%nat /\
  descending [13; 10; 9; 6; 3] /\
  exists suit others,
    Permutation ([13; 10; 9; 6; 3] ++ others)
      (map fst (filter (fun card : Card => Suit_eqb (snd card) suit)
                  ([(2, clubs); (9, clubs)] ++
                   [(13, clubs); (3, clubs); (6, clubs); (10, clubs);
                    (14, hearts)]))) /\
    forall x y, In x [13; 10; 9; 6; 3] -> In y others -> y <= x.
Proof.
  apply (X6_flush_tie_break [(2, clubs); (9, clubs)]
           [(13, clubs); (3, clubs); (6, clubs); (10, clubs); (14, hearts)]).
  reflexivity.
Defined.

Lemma suits_bound (l : list Suit) : NoDup l -> (List.length l <= 4)%nat.
Proof.
  intros H.
  apply (NoDup_incl_length (l' := [hearts; diamonds; clubs; spades]) H).
  intros [] _; simpl; auto.
Qed.

Lemma NoDup_map_on {A B} (f : A -> B) l :
  NoDup l ->
  (forall x y, In x l -> In y l -> f x = f y -> x = y) ->
  NoDup (map f l).
Proof.
  induction 1 as [|x l Hnotin Hnd IH]; intros Hinj; simpl; constructor.
  - intros Hin. apply in_map_iff in Hin. destruct Hin as (y & Hy & Hin).
    apply Hnotin. rewrite (Hinj x y); simpl; auto.
  - apply IH. intros a b Ha Hb. apply Hinj; simpl; auto.
Qed.

(** Among distinct cards, at most four share a rank. *)
Lemma rank_count_bound (all_cards : list Card) k :
  NoDup all_cards -> (Py.count Z.eqb (map fst all_cards) k <= 4)%nat.
Proof.
  intros Hnd. rewrite count_filter_fst.
  set (same := filter (fun card : Card => fst card =? k) all_cards).
  assert (Hsuits : NoDup (map (@snd Z Suit) same)); [|
    apply suits_bound in Hsuits; now rewrite length_map in Hsuits].
  apply NoDup_map_on; [now apply NoDup_filter|].
  intros [r s] [r' s'] Hx Hy Heq. simpl in Heq. subst s'.
  apply filter_In in Hx, Hy. destruct Hx as [_ Hx], Hy as [_ Hy].
  simpl in Hx, Hy. apply Z.eqb_eq in Hx, Hy. congruence.
Qed.

Lemma count_absent l n k :
  Py.nat_in n (Py.values (Py.Counter Z.eqb l)) = false ->
  In k l -> Py.count Z.eqb l k <> n.
Proof.
  intros Hnone Hk Hcount.
  assert (Hin : In (k, n) (Py.Counter Z.eqb l))
    by (apply (Counter_In_iff Z.eqb Z.eqb_spec); auto).
  assert (Htrue : Py.nat_in n (Py.values (Py.Counter Z.eqb l)) = true).
  { unfold Py.nat_in, Py.values. apply existsb_exists. exists n. split.
    - change n with (snd (k, n)). now apply in_map.
    - apply Nat.eqb_refl. }
  congruence.
Qed.

Lemma count_present l k : In k l -> (1 <= Py.count Z.eqb l k)%nat.
Proof.
  unfold Py.count. induction l as [|x l IH]; simpl; [contradiction|].
  intros [->|Hk].
  - rewrite Z.eqb_refl. simpl. lia.
  - destruct (k =? x); simpl; [lia|auto].
Qed.

Lemma NoDup_single_counts l :
  (forall k, In k l -> Py.count Z.eqb l k = 1%nat) -> NoDup l.
Proof.
  induction l as [|x l IH]; intros Hone; constructor.
  - intros Hx. pose proof (Hone x (or_introl eq_refl)) as H1.
    pose proof (count_present l x Hx) as H2.
    unfold Py.count in *. simpl in H1. rewrite Z.eqb_refl in H1.
    simpl in H1. lia.
  - apply IH. intros k Hk. pose proof (Hone k (or_intror Hk)) as H1.
    pose proof (count_present l k Hk) as H2.
    unfold Py.count in *. simpl in H1.
    destruct (k =? x); simpl in H1; lia.
Qed.

(** X7.  A HighCard result (score 1) on distinct cards means that no
    two cards share a rank; the tie-break lists all the ranks from the
    highest down. *)
Theorem X7_high_card_tie_break
    (hand community : list Card) (best_ranks : list Z) :
  NoDup (hand ++ community) ->
  evaluate_hand hand community = Some (1, best_ranks) ->
  NoDup (map fst (hand ++ community)) /\
  Permutation best_ranks (map fst (hand ++ community)) /\
  descending best_ranks.
Proof.
  intros Hnd H. evaluate_branch H.
  inversion H as [Hbest]. clear H. split.
  - apply NoDup_single_counts. intros k Hk.
    pose proof (rank_count_bound _ k Hnd) as Hle.
    pose proof (count_present _ k Hk) as Hge.
    match goal with
    | H4 : is_four_of_a_kind _ = false, H3 : is_three_of_a_kind _ = false,
      H2 : is_one_pair _ = false |- _ =>
        pose proof (count_absent _ 4 k H4 Hk);
        pose proof (count_absent _ 3 k H3 Hk);
        pose proof (count_absent _ 2 k H2 Hk)
    end.
    lia.
  - split; [apply Permutation_sorted_reverse|apply sorted_reverse_descending].
Qed.

Lemma X7_witness :
  NoDup (map fst ([(14, hearts); (9, clubs)] ++
                  [(2, spades); (7, hearts); (12, diamonds)])) /\
  Permutation [14; 12; 9; 7; 2]
    (map fst ([(14, hearts); (9, clubs)] ++
              [(2, spades); (7, hearts); (12, diamonds)])) /\
  descending [14; 12; 9; 7; 2].
Proof.
  apply (X7_high_card_tie_break [(14, hearts); (9, clubs)]
           [(2, spades); (7, hearts); (12, diamonds)]).
  - repeat (constructor; [simpl; intuition congruence|]). constructor.
  - reflexivity.
Defined.

Lemma ranks_with_count_In n rc r :
  In (r, n) rc -> In r (ranks_with_count n rc).
Proof.
  intros Hin. unfold ranks_with_count, Py.keys.
  change r with (fst (r, n)). apply in_map, filter_In.
  split; [exact Hin|]. simpl. apply Nat.eqb_refl.
Qed.

Lemma NoDup_keys_filter {K V} (f : K * V -> bool) (c : list (K * V)) :
  NoDup (Py.keys c) -> NoDup (Py.keys (filter f c)).
Proof.
  unfold Py.keys. induction c as [|e c IH]; simpl; intros Hnd; [constructor|].
  inversion Hnd as [|? ? Hnotin Hnd']; subst.
  destruct (f e); simpl; [|auto]. constructor; [|auto].
  intros Hin. apply Hnotin. apply in_map_iff in Hin.
  destruct Hin as (e' & He' & Hin). apply filter_In in Hin.
  rewrite <- He'. apply in_map. tauto.
Qed.

(** X8.  A TwoPair result (score 3) names the two highest ranks that
    exactly two cards hold, the higher first, then the highest of the
    other ranks. *)
Theorem X8_two_pair_tie_break
    (hand community : list Card) (best_ranks : list Z) :
  evaluate_hand hand community = Some (3, best_ranks) ->
  exists high low kicker,
    (best_ranks = [high; low; kicker]) /\
    (low < high) /\
    (List.length (filter (fun card : Card => fst card =? high)
                    (hand ++ community)) = 2%nat) /\
    (List.length (filter (fun card : Card => fst card =? low)
                    (hand ++ community)) = 2%nat) /\
    (forall rank,
        List.length (filter (fun card : Card => fst card =? rank)
                       (hand ++ community)) = 2%nat ->
        rank = high \/ rank <= low) /\
    In kicker (map fst (hand ++ community)) /\
    kicker <> high /\ kicker <> low /\
    (forall rank, In rank (map fst (hand ++ community)) ->
                  rank <> high -> rank <> low -> rank <= kicker).
Proof.
  intros H. evaluate_branch H. apply scored_value in H.
  unfold get_best_two_pair in H.
  set (ranks := map fst (hand ++ community)) in *.
  set (rank_counts := Py.Counter Z.eqb ranks) in *.
  set (twos := ranks_with_count 2 rank_counts) in *.
  assert (Hlen : (2 <= List.length (Py.sorted_reverse twos))%nat).
  { rewrite (Permutation_length (Permutation_sorted_reverse twos)).
    unfold twos. rewrite length_ranks_with_count.
    match goal with
    | Htwo : is_two_pair _ = true |- _ =>
        unfold is_two_pair in Htwo; now apply Nat.leb_le in Htwo
    end. }
  pose proof (sorted_reverse_descending twos) as Hdesc.
  assert (Hnd : NoDup (Py.sorted_reverse twos)).
  { apply (Permutation_NoDup (Permutation_sym (Permutation_sorted_reverse twos))).
    unfold twos, ranks_with_count. apply NoDup_keys_filter.
    apply (Counter_NoDup Z.eqb Z.eqb_spec). }
  assert (Htwos : forall x, In x (Py.sorted_reverse twos) <->
                            Py.count Z.eqb ranks x = 2%nat /\ In x ranks).
  { intros x. rewrite In_sorted_reverse. unfold twos. split.
    - intros Hx. apply In_ranks_with_count in Hx.
      apply (Counter_In_iff Z.eqb Z.eqb_spec) in Hx. tauto.
    - intros [Hc Hx]. apply ranks_with_count_In.
      apply (Counter_In_iff Z.eqb Z.eqb_spec). tauto. }
  destruct (Py.sorted_reverse twos) as [|high [|low tail]];
    simpl in Hlen; try lia.
  cbn [firstn] in H.
  destruct (Py.max _) as [kicker|] eqn:Hmax; [|discriminate].
  inversion H; subst best_ranks. clear H.
  exists high, low, kicker.
  unfold descending in Hdesc.
  inversion Hdesc as [|? ? Hdesc' Hhigh]; subst.
  inversion Hdesc' as [|? ? _ Hlow]; subst.
  inversion Hnd as [|? ? Hnotin _]; subst.
  rewrite Forall_forall in Hhigh, Hlow.
  assert (Hhl : low < high).
  { specialize (Hhigh low (or_introl eq_refl)).
    assert (low <> high) by (intros ->; apply Hnotin; simpl; auto). lia. }
  destruct (proj1 (Htwos high) (or_introl eq_refl)) as [Hch _].
  destruct (proj1 (Htwos low) (or_intror (or_introl eq_refl))) as [Hcl _].
  unfold ranks in Hch, Hcl. rewrite count_filter_fst in Hch, Hcl.
  apply max_spec in Hmax. destruct Hmax as [Hk Hbest].
  apply filter_In in Hk. destruct Hk as [Hk Hout].
  apply negb_true_iff in Hout. simpl in Hout.
  apply orb_false_iff in Hout. destruct Hout as [Hkh Hout].
  apply orb_false_iff in Hout. destruct Hout as [Hkl _].
  apply Z.eqb_neq in Hkh, Hkl.
  split; [reflexivity|]. split; [exact Hhl|]. split; [exact Hch|].
  split; [exact Hcl|]. split.
  { intros rank Hrank.
    assert (Hin : In rank ranks).
    { unfold ranks.
      destruct (filter (fun card : Card => fst card =? rank) (hand ++ community))
        as [|card rest] eqn:Hf; [discriminate|].
      assert (Hc : In card (filter (fun card : Card => fst card =? rank)
                              (hand ++ community)))
        by (rewrite Hf; simpl; auto).
      apply filter_In in Hc. destruct Hc as [Hc Heq].
      apply Z.eqb_eq in Heq. subst rank. now apply in_map. }
    rewrite <- count_filter_fst in Hrank. fold ranks in Hrank.
    destruct (proj2 (Htwos rank) (conj Hrank Hin)) as [<-|[<-|Htail]];
      [auto|right; lia|].
    right. specialize (Hlow rank Htail). lia. }
  split; [exact Hk|]. split; [exact Hkh|]. split; [exact Hkl|].
  intros rank Hrank Hh Hl. apply Hbest, filter_In. split; [exact Hrank|].
  apply negb_true_iff. simpl.
  apply Z.eqb_neq in Hh, Hl. now rewrite Hh, Hl.
Qed.

Lemma X8_witness :
  exists high low kicker,
    ([9; 5; 14] = [high; low; kicker]) /\
    (low < high) /\
    (List.length (filter (fun card : Card => fst card =? high)
                   (More.two_pair_hand ++ More.two_pair_board)) = 2%nat) /\
    (List.length (filter (fun card : Card => fst card =? low)
                   (More.two_pair_hand ++ More.two_pair_board)) = 2%nat) /\
    (forall rank,
        List.length (filter (fun card : Card => fst card =? rank)
                       (More.two_pair_hand ++ More.two_pair_board)) = 2%nat ->
        rank = high \/ rank <= low) /\
    In kicker (map fst (More.two_pair_hand ++ More.two_pair_board)) /\
    kicker <> high /\ kicker <> low /\
    (forall rank,
        In rank (map fst (More.two_pair_hand ++ More.two_pair_board)) ->
        rank <> high -> rank <> low -> rank <= kicker).
Proof.
  apply (X8_two_pair_tie_break More.two_pair_hand More.two_pair_board).
  reflexivity.
Defined.

(** X24.  A hand is scored StraightFlush (9) exactly when the cards
    of one suit hold five consecutive ranks, or the wheel. *)
Theorem X24_straight_flush_iff (hand community : list Card) :
  (exists best_ranks, evaluate_hand hand community = Some (9, best_ranks)) <->
  (exists suit,
      has_run (map fst (filter (fun card : Card => Suit_eqb (snd card) suit)
                          (hand ++ community))) \/
      has_wheel (map fst (filter (fun card : Card => Suit_eqb (snd card) suit)
                            (hand ++ community)))).
Proof.
  split.
  - intros (best_ranks & H). evaluate_branch H.
    match goal with
    | Hsf : is_straight_flush _ = true |- _ =>
        unfold is_straight_flush in Hsf; apply existsb_exists in Hsf;
        destruct Hsf as ([suit n] & _ & Hsf);
        apply andb_prop in Hsf; destruct Hsf as [_ Hsf]
    end.
    exists suit. now apply is_straight_sound.
  - intros (suit & Hsuit). apply is_straight_complete in Hsuit.
    pose proof (is_straight_length _ Hsuit) as Hlen. rewrite length_map in Hlen.
    assert (Hsf : is_straight_flush (hand ++ community) = true).
    { unfold is_straight_flush. apply existsb_exists.
      exists (suit, Py.count Suit_eqb (map snd (hand ++ community)) suit).
      split.
      - apply (Counter_In_iff Suit_eqb Suit_eqb_spec). split; [|reflexivity].
        destruct (filter (fun card : Card => Suit_eqb (snd card) suit)
                    (hand ++ community)) as [|card rest] eqn:Hf;
          [simpl in Hlen; lia|].
        assert (Hc : In card (filter (fun card : Card => Suit_eqb (snd card) suit)
                                (hand ++ community)))
          by (rewrite Hf; simpl; auto).
        apply filter_In in Hc. destruct Hc as [Hc Heq].
        destruct (Suit_eqb_spec (snd card) suit) as [<-|]; [|discriminate].
        now apply in_map.
      - rewrite count_filter_snd, Hsuit, andb_true_r.
        now apply Nat.leb_le. }
    unfold evaluate_hand. cbv zeta. rewrite Hsf. eauto.
Qed.

Lemma X24_witness :
  exists best_ranks,
    evaluate_hand Ex.royal_hand Ex.royal_board = Some (9, best_ranks).
Proof.
  apply X24_straight_flush_iff. exists hearts. left. exists 10.
  intros j Hj.
  assert (j = 0 \/ j = 1 \/ j = 2 \/ j = 3 \/ j = 4)
    as [->|[->|[->|[->| ->]]]] by lia; simpl; auto 12.
Defined.

(** *** The tie-break of a straight flush *)

Lemma In_suit_ranks (cards : list Card) (suit : Suit) (r : Z) :
  In r (map fst (filter (fun card : Card => Suit_eqb (snd card) suit) cards))
  <-> In (r, suit) cards.
Proof.
  rewrite in_map_iff. split.
  - intros ([r' s] & Hr & Hin). apply filter_In in Hin.
    destruct Hin as [Hin Hs]. cbn [fst snd] in Hr, Hs. subst r'.
    destruct (Suit_eqb_spec s suit) as [->|]; [exact Hin|discriminate].
  - intros Hin. exists (r, suit). split; [reflexivity|].
    apply filter_In. split; [exact Hin|]. cbn [snd].
    destruct (Suit_eqb_spec suit suit); congruence.
Qed.

Lemma suit_ranks_incl (cards : list Card) (suit : Suit) (r : Z) :
  In r (map fst (filter (fun card : Card => Suit_eqb (snd card) suit) cards)) ->
  In r (map fst cards).
Proof.
  intros H. apply In_suit_ranks in H.
  change r with (fst (r, suit)). now apply in_map.
Qed.

Lemma wheel_scored ranks :
  ~ has_run ranks -> has_wheel ranks ->
  get_best_straight ranks = [5; 4; 3; 2; 14].
Proof.
  intros Hnone Hwheel. unfold get_best_straight.
  destruct (find _ _) as [i|] eqn:Hfind.
  - exfalso. apply find_some in Hfind. destruct Hfind as [_ Hi].
    destruct (window_has_run ranks i Hi) as (a & _ & Ha).
    apply Hnone. now exists a.
  - assert (Hsub : wheel_subset (Py.sorted (Py.set ranks)) = true).
    { unfold wheel_subset. apply forallb_forall. intros r Hr.
      unfold Py.mem. apply existsb_exists. exists r.
      split; [|apply Z.eqb_refl]. apply In_unique_ranks.
      unfold has_wheel in Hwheel. simpl in Hr.
      intuition (subst; assumption). }
    now rewrite Hsub.
Qed.

(** The straight flush of 5 to 9 in hearts with the four of clubs: the
    tie-break is the lowest run of the ranks of all the cards. *)
Example straight_flush_of_all_ranks :
  evaluate_hand [(5, hearts); (6, hearts)]
    [(7, hearts); (8, hearts); (9, hearts); (4, clubs); (2, diamonds)]
  = Some (9, [8; 7; 6; 5; 4]).
Proof. reflexivity. Qed.

(** C5, amended.  When the ranks of the cards of a StraightFlush hold
    one straight only, a single run of five consecutive ranks with a
    lower rank beside it or else the wheel alone, the tie-break lists the
    five ranks of the straight formed within the flush suit, from its
    top card down: [top, top - 1, top - 2, top - 3, top - 4], or
    [5, 4, 3, 2, 14] for the wheel. *)
Theorem C5_straight_flush_tie_break
    (hand community : list Card) (best_ranks : list Z) :
  evaluate_hand hand community = Some (9, best_ranks) ->
  (forall top,
      run_at (map fst (hand ++ community)) (top - 4) ->
      (forall b, run_at (map fst (hand ++ community)) b -> b = top - 4) ->
      ~ has_wheel (map fst (hand ++ community)) ->
      (exists r, In r (map fst (hand ++ community)) /\ r < top - 4) ->
      best_ranks = [top; top - 1; top - 2; top - 3; top - 4] /\
      exists suit, forall r, In r best_ranks -> In (r, suit) (hand ++ community)) /\
  (~ has_run (map fst (hand ++ community)) ->
   best_ranks = [5; 4; 3; 2; 14] /\
   exists suit, forall r, In r best_ranks -> In (r, suit) (hand ++ community)).
Proof.
  intros H. evaluate_branch H. injection H as Hbest.
  match goal with
  | Hflush : is_straight_flush _ = true |- _ => rename Hflush into Hsf
  end.
  unfold is_straight_flush in Hsf. apply existsb_exists in Hsf.
  destruct Hsf as ([suit n] & _ & Hsf).
  apply andb_prop in Hsf. destruct Hsf as [_ Hsf].
  apply is_straight_sound in Hsf.
  split.
  - intros top Hrun Honly Hnowheel Hlower.
    assert (Hlist : best_ranks = [top; top - 1; top - 2; top - 3; top - 4]).
    { rewrite <- Hbest.
      destruct (lowest_run_scored _ (top - 4) Hrun) as [_ Hslice].
      { intros b Hb Hbrun. apply Honly in Hbrun. lia. }
      rewrite (Hslice Hlower).
      replace (top - 4 + 4) with top by lia.
      replace (top - 4 + 3) with (top - 1) by lia.
      replace (top - 4 + 2) with (top - 2) by lia.
      replace (top - 4 + 1) with (top - 3) by lia.
      reflexivity. }
    split; [exact Hlist|]. exists suit. intros r Hr.
    destruct Hsf as [(a & Ha)|Hwheel].
    + assert (Haa : a = top - 4).
      { apply Honly. intros j Hj. eapply suit_ranks_incl, Ha, Hj. }
      apply In_suit_ranks. rewrite Hlist in Hr. simpl in Hr.
      destruct Hr as [<-|[<-|[<-|[<-|[<-|[]]]]]].
      * replace top with (a + 4) by lia. apply Ha. lia.
      * replace (top - 1) with (a + 3) by lia. apply Ha. lia.
      * replace (top - 2) with (a + 2) by lia. apply Ha. lia.
      * replace (top - 3) with (a + 1) by lia. apply Ha. lia.
      * replace (top - 4) with (a + 0) by lia. apply Ha. lia.
    + exfalso. apply Hnowheel. unfold has_wheel in *.
      repeat split; eapply suit_ranks_incl; apply Hwheel.
  - intros Hnone.
    assert (Hsuit : has_wheel
                      (map fst (filter (fun card : Card => Suit_eqb (snd card) suit)
                                  (hand ++ community)))).
    { destruct Hsf as [(a & Ha)|Hwheel]; [|exact Hwheel].
      exfalso. apply Hnone. exists a. intros j Hj.
      eapply suit_ranks_incl, Ha, Hj. }
    assert (Hlist : best_ranks = [5; 4; 3; 2; 14]).
    { rewrite <- Hbest. apply wheel_scored; [exact Hnone|].
      unfold has_wheel in *. repeat split; eapply suit_ranks_incl; apply Hsuit. }
    split; [exact Hlist|]. exists suit. intros r Hr.
    apply In_suit_ranks. rewrite Hlist in Hr. simpl in Hr.
    unfold has_wheel in Hsuit. intuition (subst; assumption).
Qed.

Lemma C5_witness :
  (evaluate_hand Ex.royal_hand Ex.royal_board
   = Some (9, [14; 13; 12; 11; 10]) /\
   exists suit,
     forall r, In r [14; 13; 12; 11; 10] ->
               In (r, suit) (Ex.royal_hand ++ Ex.royal_board)) /\
  (evaluate_hand More.steel_wheel_hand More.steel_wheel_board
   = Some (9, [5; 4; 3; 2; 14]) /\
   exists suit,
     forall r, In r [5; 4; 3; 2; 14] ->
               In (r, suit) (More.steel_wheel_hand ++ More.steel_wheel_board)).
Proof.
  split; (split; [reflexivity|]).
  - destruct (C5_straight_flush_tie_break Ex.royal_hand Ex.royal_board
                [14; 13; 12; 11; 10] eq_refl) as [Hrun _].
    destruct (Hrun 14) as [_ Hsuit].
    + intros j Hj.
      assert (j = 0 \/ j = 1 \/ j = 2 \/ j = 3 \/ j = 4)
        as [->|[->|[->|[->| ->]]]] by lia; simpl; auto 12.
    + intros b Hb.
      pose proof (Hb 0 ltac:(lia)) as H0. pose proof (Hb 4 ltac:(lia)) as H4.
      simpl in H0, H4. lia.
    + intros (_ & _ & _ & H4 & _). simpl in H4. lia.
    + exists 2. simpl. split; [auto 8|lia].
    + exact Hsuit.
  - destruct (C5_straight_flush_tie_break More.steel_wheel_hand
                More.steel_wheel_board [5; 4; 3; 2; 14] eq_refl)
      as [_ Hwheel].
    destruct Hwheel as [_ Hsuit]; [|exact Hsuit].
    intros (a & Ha).
    pose proof (Ha 0 ltac:(lia)) as H0. pose proof (Ha 1 ltac:(lia)) as H1.
    pose proof (Ha 4 ltac:(lia)) as H4. simpl in H0, H1, H4. lia.
Defined.

(* ================================================================== *)
(** ** Further properties of the deck and of the deals *)

Lemma pop_spec cards card rest :
  Deck.pop cards = Some (card, rest) -> cards = rest ++ [card].
Proof.
  unfold Deck.pop. destruct (rev cards) as [|c r] eqn:Hrev; [discriminate|].
  intros H. inversion H; subst. rewrite <- (rev_involutive cards), Hrev.
  reflexivity.
Qed.

Lemma deal_spec n : forall cards dealt rest,
  Deck.deal n cards = Some (dealt, rest) ->
  cards = rest ++ rev dealt /\ List.length dealt = n.
Proof.
  induction n as [|n IH]; intros cards dealt rest; simpl.
  - intros H. inversion H; subst. now rewrite app_nil_r.
  - destruct (Deck.pop cards) as [[card cards']|] eqn:Hpop; [|discriminate].
    destruct (Deck.deal n cards') as [[dealt' rest']|] eqn:Hdeal; [|discriminate].
    intros H. inversion H; subst. apply pop_spec in Hpop.
    destruct (IH _ _ _ Hdeal) as [Hcards' Hlen].
    split; [|simpl; congruence].
    simpl. rewrite Hpop, Hcards', <- !app_assoc. reflexivity.
Qed.

Lemma pop_empty : Deck.pop [] = None.
Proof. reflexivity. Qed.

Lemma deal_underflow n : forall cards,
  (List.length cards < n)%nat -> Deck.deal n cards = None.
Proof.
  induction n as [|n IH]; intros cards Hlen; simpl; [lia|].
  destruct (Deck.pop cards) as [[card cards']|] eqn:Hpop; [|reflexivity].
  apply pop_spec in Hpop. rewrite IH; [reflexivity|].
  rewrite Hpop, length_app in Hlen. simpl in Hlen. lia.
Qed.

(** X9.  A deal of [n] cards takes the last [n] cards of the deck, the
    last one first, and leaves the others in place; it fails exactly
    when the deck holds fewer than [n] cards. *)
Theorem X9_deal_takes_the_last_cards (n : nat) (cards : list Card) :
  ((n <= List.length cards)%nat ->
   Deck.deal n cards
   = Some (rev (skipn (List.length cards - n) cards),
           firstn (List.length cards - n) cards)) /\
  ((List.length cards < n)%nat -> Deck.deal n cards = None).
Proof.
  split; [|apply deal_underflow].
  intros Hlen.
  destruct (deal_defined n cards Hlen) as (dealt & rest & Hdeal & Hn & Hrest).
  rewrite Hdeal. destruct (deal_spec _ _ _ _ Hdeal) as [Hcards _].
  rewrite <- Hrest. clear Hrest Hdeal Hlen. subst cards.
  rewrite skipn_app, firstn_app, Nat.sub_diag, skipn_all, firstn_all.
  simpl. now rewrite rev_involutive, app_nil_r.
Qed.

Lemma X9_witness :
  Deck.deal 2 [(2, hearts); (3, hearts); (4, hearts)]
  = Some ([(4, hearts); (3, hearts)], [(2, hearts)]) /\
  Deck.deal 2 [(2, hearts)] = None.
Proof.
  destruct (X9_deal_takes_the_last_cards 2
              [(2, hearts); (3, hearts); (4, hearts)]) as [Hdeal _].
  destruct (X9_deal_takes_the_last_cards 2 [(2, hearts)]) as [_ Hnone].
  split.
  - apply Hdeal. simpl. lia.
  - apply Hnone. simpl. lia.
Defined.

(* ================================================================== *)
(** ** Further properties of the players *)

Lemma randint_range a b pick : a <= b -> a <= randint a b pick <= b.
Proof.
  intros H. unfold randint.
  pose proof (Z.mod_pos_bound pick (b - a + 1) ltac:(lia)). lia.
Qed.

(** X10.  A bet never exceeds the chips of the player nor is negative;
    unless the player is all-in, it lies between the larger of the table
    bet and 50, and the table bet plus 200. *)
Theorem X10_bet_amount_bounds (self : AIPlayer) (table_bet pick : Z) :
  0 <= chips self ->
  0 <= calculate_bet_amount self table_bet pick <= chips self /\
  (calculate_bet_amount self table_bet pick = chips self \/
   Z.max table_bet 50 <= calculate_bet_amount self table_bet pick
   <= table_bet + 200).
Proof.
  intros Hchips. unfold calculate_bet_amount.
  destruct (Z.ltb_spec (Z.min (chips self) (table_bet + 200))
              (Z.max table_bet 50)) as [Hlow|Hok].
  - split; [lia|left; reflexivity].
  - pose proof (randint_range _ _ pick Hok) as Hr. split; [lia|right; lia].
Qed.

Lemma X10_witness :
  0 <= calculate_bet_amount Ex.last_player 120 7 <= 1000 /\
  (calculate_bet_amount Ex.last_player 120 7 = 1000 \/
   Z.max 120 50 <= calculate_bet_amount Ex.last_player 120 7 <= 120 + 200).
Proof.
  apply (X10_bet_amount_bounds Ex.last_player 120 7). simpl. lia.
Defined.

(** X11.  A raise never exceeds the chips of the player nor is negative;
    unless the player is all-in, it lies between twice the table bet and
    three times the table bet plus 100. *)
Theorem X11_raise_amount_bounds (self : AIPlayer) (table_bet pick : Z) :
  0 <= chips self -> 0 <= table_bet ->
  0 <= calculate_raise_amount self table_bet pick <= chips self /\
  (calculate_raise_amount self table_bet pick = chips self \/
   table_bet * 2 <= calculate_raise_amount self table_bet pick
   <= table_bet * 3 + 100).
Proof.
  intros Hchips Hbet. unfold calculate_raise_amount.
  destruct (Z.leb_spec (chips self) (table_bet * 2)) as [Hshort|Hlong].
  - split; [lia|left; reflexivity].
  - destruct (Z.ltb_spec (Z.min (chips self) (table_bet * 3 + 100))
                (table_bet * 2)) as [Hlow|Hok].
    + split; [lia|left; reflexivity].
    + pose proof (randint_range _ _ pick Hok) as Hr. split; [lia|right; lia].
Qed.

Lemma X11_witness :
  0 <= calculate_raise_amount Ex.last_player 120 7 <= 1000 /\
  (calculate_raise_amount Ex.last_player 120 7 = 1000 \/
   120 * 2 <= calculate_raise_amount Ex.last_player 120 7 <= 120 * 3 + 100).
Proof.
  apply (X11_raise_amount_bounds Ex.last_player 120 7); simpl; lia.
Defined.

(** The ways [make_decision] ends; the last branch of the source, for
    an answer that is no action, is never taken. *)
Lemma make_decision_answer turn self community bet :
  is_active self = true ->
  fst (make_decision turn self community bet)
  = Ollama.get_ai_decision (post turn) 2.
Proof.
  intros Hactive. unfold make_decision. rewrite Hactive. cbn [negb].
  repeat match goal with
         | |- context [if ?c then _ else _] => destruct c
         end; reflexivity.
Qed.

Lemma make_decision_cases turn self community bet decision self' :
  make_decision turn self community bet = (decision, self') ->
  (is_active self = false /\ decision = "fold"%string /\ self' = self) \/
  (is_active self = true /\
   ((decision = "fold"%string /\ self' = fold self) \/
    (decision = "check"%string /\ self' = self) \/
    (decision = "bet"%string /\
     self' = commit self (calculate_bet_amount self bet (pick turn))) \/
    (decision = "raise"%string /\
     self' = commit self (calculate_raise_amount self bet (pick turn))))).
Proof.
  unfold make_decision. destruct (is_active self); simpl.
  2:{ intros H. inversion H. auto. }
  pose proof (OllamaFacts.attempts_valid (post turn) 2 0) as Hvalid.
  fold (Ollama.get_ai_decision (post turn) 2) in Hvalid.
  intros H. right. split; [reflexivity|].
  simpl in Hvalid.
  destruct Hvalid as [Hd|[Hd|[Hd|[Hd|[]]]]]; rewrite <- Hd in H; simpl in H;
    inversion H; subst; auto 6.
Qed.

(** X12.  A turn always ends in one of the four actions.  It keeps the
    name and the hole cards; the player stays in the round exactly when
    active before and not folding; a fold or a check moves no chip and
    keeps the bet on record; a bet or a raise takes from the chips what
    it puts on record. *)
Theorem X12_make_decision_outcome
    (turn : Turn) (self : AIPlayer) (community : list Card) (bet : Z)
    (decision : string) (self' : AIPlayer) :
  make_decision turn self community bet = (decision, self') ->
  In decision Ollama.valid_actions /\
  name self' = name self /\
  hand self' = hand self /\
  (is_active self' = true <->
   is_active self = true /\ decision <> "fold"%string) /\
  (decision = "fold"%string \/ decision = "check"%string ->
   chips self' = chips self /\ current_bet self' = current_bet self) /\
  (decision = "bet"%string \/ decision = "raise"%string ->
   chips self' + current_bet self' = chips self).
Proof.
  intros H. apply make_decision_cases in H.
  destruct H as [(Hflag & -> & ->)
                |(Hflag & [(-> & ->)|[(-> & ->)|[(-> & ->)|(-> & ->)]]])];
    simpl; rewrite ?Hflag;
    (split; [auto 6|]); (split; [reflexivity|]); (split; [reflexivity|]);
    (split; [|split]).
  all: try solve [intuition (discriminate || congruence)].
  all: intros [?|?]; try discriminate; simpl; auto; lia.
Qed.

Lemma X12_witness :
  In "bet"%string Ollama.valid_actions /\
  chips (snd (make_decision (Ex.answers "I bet.") Ex.last_player [] 0))
  + current_bet (snd (make_decision (Ex.answers "I bet.") Ex.last_player [] 0))
  = 1000.
Proof.
  destruct (X12_make_decision_outcome (Ex.answers "I bet.") Ex.last_player [] 0
              "bet"%string
              (snd (make_decision (Ex.answers "I bet.") Ex.last_player [] 0))
              eq_refl) as (Hvalid & _ & _ & _ & _ & Hpaid).
  split; [exact Hvalid|]. apply Hpaid. auto.
Defined.

(* ================================================================== *)
(** ** Further properties of the betting pass *)

Lemma bet_amount_range self bet pick :
  0 <= chips self -> 0 <= calculate_bet_amount self bet pick <= chips self.
Proof.
  intros Hchips. unfold calculate_bet_amount.
  destruct (Z.ltb_spec (Z.min (chips self) (bet + 200)) (Z.max bet 50))
    as [Hlow|Hok]; [lia|].
  pose proof (randint_range _ _ pick Hok). lia.
Qed.

Lemma raise_amount_range self bet pick :
  0 <= chips self -> 0 <= bet ->
  0 <= calculate_raise_amount self bet pick <= chips self.
Proof.
  intros Hchips Hbet. unfold calculate_raise_amount.
  destruct (Z.leb_spec (chips self) (bet * 2)); [lia|].
  destruct (Z.ltb_spec (Z.min (chips self) (bet * 3 + 100)) (bet * 2))
    as [Hlow|Hok]; [lia|].
  pose proof (randint_range _ _ pick Hok). lia.
Qed.

Lemma make_decision_seat turn self community bet decision self' :
  make_decision turn self community bet = (decision, self') ->
  same_seat self self'.
Proof.
  intros H. apply make_decision_cases in H. unfold same_seat.
  destruct H as [(Hflag & _ & ->)
                |(Hflag & [(_ & ->)|[(_ & ->)|[(_ & ->)|(_ & ->)]]])];
    simpl; rewrite ?Hflag; repeat split; auto; discriminate.
Qed.

Lemma make_decision_chips turn self community bet decision self' :
  make_decision turn self community bet = (decision, self') ->
  0 <= chips self -> 0 <= bet ->
  0 <= chips self' <= chips self.
Proof.
  intros H Hchips Hbet. apply make_decision_cases in H.
  pose proof (bet_amount_range self bet (pick turn) Hchips).
  pose proof (raise_amount_range self bet (pick turn) Hchips Hbet).
  destruct H as [(_ & _ & ->)
                |(_ & [(_ & ->)|[(_ & ->)|[(_ & ->)|(_ & ->)]]])];
    simpl; lia.
Qed.

Lemma make_decision_paid turn self community bet decision self' :
  make_decision turn self community bet = (decision, self') ->
  current_bet self = 0 ->
  chips self' + current_bet self' = chips self.
Proof.
  intros H Hzero. apply make_decision_cases in H.
  destruct H as [(_ & _ & ->)
                |(_ & [(_ & ->)|[(_ & ->)|[(_ & ->)|(_ & ->)]]])];
    simpl; lia.
Qed.

Section BettingLoop.

Variables (env : nat -> Turn) (community : list Card).

Lemma betting_loop_seats todo : forall i bet pot0 log0,
  Forall2 same_seat todo
    (seated (betting_loop env community i todo bet pot0 log0)).
Proof.
  induction todo as [|player rest IH]; intros i bet pot0 log0; simpl.
  - constructor.
  - destruct (is_active player) eqn:Hactive.
    + destruct (make_decision (env i) player community bet)
        as [decision player'] eqn:Hturn.
      simpl. constructor; [|apply IH].
      exact (make_decision_seat _ _ _ _ _ _ Hturn).
    + simpl. constructor; [|apply IH].
      unfold same_seat. repeat split; auto.
Qed.

Lemma betting_loop_chips todo : forall i bet pot0 log0,
  Forall (fun p => 0 <= chips p) todo -> 0 <= bet ->
  Forall2 (fun p p' => 0 <= chips p' <= chips p) todo
    (seated (betting_loop env community i todo bet pot0 log0)).
Proof.
  induction todo as [|player rest IH]; intros i bet pot0 log0 Hall Hbet; simpl.
  - constructor.
  - inversion Hall as [|? ? Hp Hrest]; subst.
    destruct (is_active player) eqn:Hactive.
    + destruct (make_decision (env i) player community bet)
        as [decision player'] eqn:Hturn.
      simpl. constructor.
      * exact (make_decision_chips _ _ _ _ _ _ Hturn Hp Hbet).
      * apply IH; [exact Hrest|].
        destruct (bet <? current_bet player') eqn:Hlt; [|exact Hbet].
        apply Z.ltb_lt in Hlt. lia.
    + simpl. constructor; [lia|]. now apply IH.
Qed.

Lemma betting_loop_paid todo : forall i bet pot0 log0,
  Forall (fun p => current_bet p = 0) todo ->
  pass_pot (betting_loop env community i todo bet pot0 log0)
  + total_chips (seated (betting_loop env community i todo bet pot0 log0))
  = pot0 + total_chips todo.
Proof.
  unfold total_chips.
  induction todo as [|player rest IH]; intros i bet pot0 log0 Hall; simpl.
  - reflexivity.
  - inversion Hall as [|? ? Hp Hrest]; subst.
    destruct (is_active player) eqn:Hactive.
    + destruct (make_decision (env i) player community bet)
        as [decision player'] eqn:Hturn.
      simpl. pose proof (make_decision_paid _ _ _ _ _ _ Hturn Hp).
      specialize (IH (S i)
                    (if bet <? current_bet player' then current_bet player'
                     else bet)
                    (pot0 + current_bet player')
                    (log0 ++ [Action (name player') decision
                                (current_bet player')]) Hrest).
      lia.
    + simpl. specialize (IH (S i) bet pot0 log0 Hrest). lia.
Qed.

Lemma betting_loop_lines todo : forall i bet pot0 log0,
  pass_log (betting_loop env community i todo bet pot0 log0)
  = log0 ++ action_lines env i todo
              (seated (betting_loop env community i todo bet pot0 log0)).
Proof.
  induction todo as [|player rest IH]; intros i bet pot0 log0;
    cbn [betting_loop].
  - cbn. now rewrite app_nil_r.
  - destruct (is_active player) eqn:Hactive.
    + destruct (make_decision (env i) player community bet)
        as [decision player'] eqn:Hturn.
      pose proof (make_decision_answer (env i) player community bet Hactive)
        as Hanswer.
      rewrite Hturn in Hanswer. cbn [fst] in Hanswer.
      cbn [pass_log seated action_lines]. rewrite Hactive, IH, <- app_assoc.
      cbn [app]. unfold action_line. rewrite <- Hanswer. reflexivity.
    + cbn [pass_log seated action_lines]. rewrite Hactive. apply IH.
Qed.

Lemma length_action_lines before : forall i after,
  List.length before = List.length after ->
  List.length (action_lines env i before after)
  = List.length (filter is_active before).
Proof.
  induction before as [|p before IH]; intros i [|p' after] Hlen;
    try discriminate; [reflexivity|].
  cbn [action_lines filter]. injection Hlen as Hlen.
  destruct (is_active p); cbn [List.length]; now rewrite IH.
Qed.

Lemma length_seated todo : forall i bet pot0 log0,
  List.length (seated (betting_loop env community i todo bet pot0 log0))
  = List.length todo.
Proof.
  induction todo as [|player rest IH]; intros i bet pot0 log0;
    cbn [betting_loop]; [reflexivity|].
  destruct (is_active player).
  - destruct (make_decision (env i) player community bet) as [decision player'].
    cbn [seated List.length]. now rewrite IH.
  - cbn [seated List.length]. now rewrite IH.
Qed.

End BettingLoop.

(** X13.  A betting pass touches neither the deck, nor the board, nor
    the dealer; it keeps the seats, with their names and hole cards; a
    player who is out of the round is left as found, and no player comes
    back into the round. *)
Theorem X13_betting_round_frame
    (round_name : string) (env : nat -> Turn) (game : PokerGame) :
  num_players (betting_round round_name env game) = num_players game /\
  deck (betting_round round_name env game) = deck game /\
  community_cards (betting_round round_name env game) = community_cards game /\
  dealer_position (betting_round round_name env game) = dealer_position game /\
  Forall2 same_seat (players game)
    (players (betting_round round_name env game)).
Proof.
  unfold betting_round. cbn [num_players deck community_cards dealer_position players].
  split; [reflexivity|]. split; [reflexivity|]. split; [reflexivity|].
  split; [reflexivity|]. apply betting_loop_seats.
Qed.

(** X14.  If no player has a negative number of chips before a betting
    pass, none has afterwards, and no player has more chips than
    before. *)
Theorem X14_betting_round_chips
    (round_name : string) (env : nat -> Turn) (game : PokerGame) :
  Forall (fun p => 0 <= chips p) (players game) ->
  Forall2 (fun p p' => 0 <= chips p' <= chips p) (players game)
    (players (betting_round round_name env game)).
Proof.
  intros Hchips. unfold betting_round. cbn [players].
  apply betting_loop_chips; [exact Hchips|reflexivity].
Qed.

Lemma X14_witness :
  Forall2 (fun p p' => 0 <= chips p' <= chips p) (players Ex.one_left)
    (players (betting_round "Flop" Ex.bet_then_check Ex.one_left)).
Proof.
  apply X14_betting_round_chips.
  repeat constructor; simpl; lia.
Defined.

(** X15.  When no player has a bet on record, as after the reset
    between two rounds, a betting pass adds to the pot exactly the chips
    that leave the players: the pot and the chips together are kept. *)
Theorem X15_first_pass_keeps_the_chips
    (round_name : string) (env : nat -> Turn) (game : PokerGame) :
  Forall (fun p => current_bet p = 0) (players game) ->
  pot (betting_round round_name env game)
  + total_chips (players (betting_round round_name env game))
  = pot game + total_chips (players game).
Proof.
  intros Hzero. unfold betting_round. cbn [pot players].
  now apply betting_loop_paid.
Qed.

Lemma X15_witness :
  pot (betting_round "Pre-Flop" Ex.bet_then_check Ex.one_left)
  + total_chips (players (betting_round "Pre-Flop" Ex.bet_then_check Ex.one_left))
  = 2000.
Proof.
  apply (X15_first_pass_keeps_the_chips "Pre-Flop" Ex.bet_then_check Ex.one_left).
  repeat constructor.
Defined.

(** A betting pass adds to the pot, for every player who was in
    the round when asked, the bet which that player has on record after
    the turn, whatever the decision was. *)
Lemma betting_round_pot
    (round_name : string) (env : nat -> Turn) (game : PokerGame) :
  pot (betting_round round_name env game)
  = pot game
    + asked_bets (players game) (players (betting_round round_name env game)).
Proof.
  unfold betting_round. cbn [pot players]. apply betting_loop_pot.
Qed.

(** X16.  A betting pass only appends to the log: the line that opens
    the pass, then, in the order of the seats, one line for each player
    who was in the round, with the name of the player, the decision
    received at that turn and the bet that the player has on record
    after it; nothing for the others. *)
Theorem X16_betting_round_log
    (round_name : string) (env : nat -> Turn) (game : PokerGame) :
  log (betting_round round_name env game)
  = log game ++ BettingRound round_name
      :: action_lines env 0 (players game)
           (players (betting_round round_name env game)) /\
  List.length (action_lines env 0 (players game)
                 (players (betting_round round_name env game)))
  = List.length (filter is_active (players game)).
Proof.
  unfold betting_round. cbn [log players]. split.
  - rewrite betting_loop_lines, <- app_assoc. reflexivity.
  - apply length_action_lines. symmetry. apply length_seated.
Qed.

(* ================================================================== *)
(** ** Further properties of the round *)

Lemma full_deck_distinct : NoDup Deck.full.
Proof.
  unfold Deck.full, Deck.suits. simpl.
  repeat (constructor; [simpl; intuition congruence|]). constructor.
Qed.

Lemma deal_players_cards todo : forall cards log0 todo' cards' log',
  deal_players todo cards log0 = Some (todo', cards', log') ->
  Permutation (flat_map hand todo' ++ cards') cards.
Proof.
  induction todo as [|player rest IH]; intros cards log0 todo' cards' log';
    cbn [deal_players].
  - intros H. inversion H; subst. reflexivity.
  - unfold Deck.deal_hand.
    destruct (Deck.deal 2 cards) as [[dealt cards1]|] eqn:Hdeal; [|discriminate].
    destruct (deal_players rest cards1 _) as [[[rest' cards2] log2]|] eqn:Hrest;
      [|discriminate].
    intros H. inversion H; subst. clear H.
    apply deal_spec in Hdeal. destruct Hdeal as [-> _].
    apply IH in Hrest. cbn [flat_map hand deal_hand].
    rewrite <- app_assoc, Hrest, Permutation_app_comm.
    apply Permutation_app_head. apply Permutation_rev.
Qed.

Lemma same_seat_hands before after :
  Forall2 same_seat before after -> map hand after = map hand before.
Proof.
  induction 1 as [|p p' before after (_ & Hhand & _) _ IH]; simpl;
    [reflexivity|]. now rewrite Hhand, IH.
Qed.

Lemma flat_map_hands (seats : list AIPlayer) :
  flat_map hand seats = List.concat (map hand seats).
Proof. apply flat_map_concat_map. Qed.

Lemma betting_round_cards round_name env game :
  cards_in_play (betting_round round_name env game) = cards_in_play game /\
  map hand (players (betting_round round_name env game))
  = map hand (players game).
Proof.
  pose proof (betting_loop_seats env (community_cards game) (players game) 0 0
                (pot game) (log game ++ [BettingRound round_name])) as Hseats.
  apply same_seat_hands in Hseats.
  unfold cards_in_play, betting_round.
  cbn [players community_cards deck]. rewrite !flat_map_hands, Hseats. auto.
Qed.

Lemma betting_round_keeps round_name env game :
  deck (betting_round round_name env game) = deck game /\
  community_cards (betting_round round_name env game) = community_cards game /\
  List.length (players (betting_round round_name env game))
  = List.length (players game).
Proof.
  split; [reflexivity|]. split; [reflexivity|].
  symmetry. apply (Forall2_length (R := same_seat)).
  unfold betting_round. cbn [players]. apply betting_loop_seats.
Qed.

Lemma pre_flop_cards shuffle env game :
  (forall cards, Permutation (shuffle cards) cards) ->
  num_players game <> 0 ->
  (List.length (players game) <= 26)%nat ->
  exists after,
    play_pre_flop shuffle env game = Some after /\
    community_cards after = [] /\
    List.length (deck after) = (52 - 2 * List.length (players game))%nat /\
    List.length (players after) = List.length (players game) /\
    Forall (fun cards => List.length cards = 2%nat) (map hand (players after)) /\
    Permutation (cards_in_play after) Deck.full.
Proof.
  intros Hshuffle Hn Hseats. unfold play_pre_flop, pre_flop_deal.
  destruct (Z.eqb_spec (num_players game) 0) as [|_]; [contradiction|].
  assert (Hdeck : List.length (Deck.reset shuffle) = 52%nat).
  { unfold Deck.reset. now rewrite (Permutation_length (Hshuffle _)). }
  destruct (deal_players_defined (players game) (Deck.reset shuffle)
              (log game ++ [NewRound]))
    as (players' & cards & log' & Hdeal & Hdealt & Hcards); [lia|].
  rewrite Hdeal. eexists. split; [reflexivity|].
  set (dealt := {| num_players := num_players game; players := players';
                   deck := cards; community_cards := []; pot := 0;
                   log := log';
                   dealer_position :=
                     (dealer_position game + 1) mod num_players game |}).
  destruct (betting_round_cards "Pre-Flop" env dealt) as [Hplay Hhands].
  destruct (betting_round_keeps "Pre-Flop" env dealt) as (Hdk & Hcc & Hlen).
  rewrite Hcc, Hdk, Hlen, Hhands, Hplay. cbn [community_cards deck players dealt].
  split; [reflexivity|]. split; [lia|].
  split; [symmetry; exact (Forall2_length Hdealt)|]. split.
  - clear - Hdealt. induction Hdealt as [|p p' ? ? (_ & _ & _ & _ & H2) _ IH];
      simpl; constructor; assumption.
  - unfold cards_in_play, dealt. cbn [players community_cards deck app].
    rewrite (deal_players_cards _ _ _ _ _ _ Hdeal). apply Hshuffle.
Qed.

Lemma flop_cards env game :
  community_cards game = [] ->
  (3 <= List.length (deck game))%nat ->
  exists after,
    play_flop env game = Some after /\
    List.length (community_cards after) = 3%nat /\
    List.length (deck after) = (List.length (deck game) - 3)%nat /\
    map hand (players after) = map hand (players game) /\
    Permutation (cards_in_play after) (cards_in_play game).
Proof.
  intros Hboard Hdeck. unfold play_flop, Deck.deal_flop.
  destruct (deal_defined 3 (deck game) Hdeck)
    as (flop & cards & Hdeal & Hflop & Hcards).
  rewrite Hdeal. eexists. split; [reflexivity|].
  set (mid := {| num_players := num_players game; players := players game;
                 deck := cards; community_cards := flop; pot := pot game;
                 log := log game ++ [Board "Flop" flop];
                 dealer_position := dealer_position game |}).
  destruct (betting_round_cards "Flop" env mid) as [Hplay Hhands].
  destruct (betting_round_keeps "Flop" env mid) as (Hdk & Hcc & _).
  rewrite Hcc, Hdk, Hhands, Hplay. unfold mid, cards_in_play.
  cbn [community_cards deck players].
  split; [exact Hflop|]. split; [exact Hcards|]. split; [reflexivity|].
  apply deal_spec in Hdeal. destruct Hdeal as [-> _]. rewrite Hboard.
  apply Permutation_app_head. cbn [app]. rewrite Permutation_app_comm.
  apply Permutation_app_head, Permutation_rev.
Qed.

Lemma street_cards street env game :
  (1 <= List.length (deck game))%nat ->
  exists after,
    play_street street env game = Some after /\
    List.length (community_cards after)
    = S (List.length (community_cards game)) /\
    List.length (deck after) = (List.length (deck game) - 1)%nat /\
    map hand (players after) = map hand (players game) /\
    Permutation (cards_in_play after) (cards_in_play game).
Proof.
  intros Hdeck. unfold play_street.
  destruct (pop_defined (deck game) Hdeck) as (card & cards & Hpop & Hcards).
  rewrite Hpop. eexists. split; [reflexivity|].
  set (mid := {| num_players := num_players game; players := players game;
                 deck := cards;
                 community_cards := community_cards game ++ [card];
                 pot := pot game;
                 log := log game ++ [Board street (community_cards game ++ [card])];
                 dealer_position := dealer_position game |}).
  destruct (betting_round_cards street env mid) as [Hplay Hhands].
  destruct (betting_round_keeps street env mid) as (Hdk & Hcc & _).
  rewrite Hcc, Hdk, Hhands, Hplay. unfold mid, cards_in_play.
  cbn [community_cards deck players].
  split; [rewrite length_app; simpl; lia|]. split; [exact Hcards|].
  split; [reflexivity|].
  apply pop_spec in Hpop. rewrite Hpop.
  apply Permutation_app_head. rewrite <- app_assoc.
  apply Permutation_app_head, Permutation_app_comm.
Qed.

(** X17.  With a shuffle that rearranges the deck and at most 23
    players, the four streets of a round never run out of cards.  After
    the river the board holds five cards and every player two; the
    cards in the hands, on the board and left in the deck are the 52
    cards of the deck, so that no card is dealt twice. *)
Theorem X17_round_deals_each_card_once
    (shuffle : list Card -> list Card) (pre_flop flop turn river : nat -> Turn)
    (game : PokerGame) :
  (forall cards, Permutation (shuffle cards) cards) ->
  num_players game <> 0 ->
  (2 * List.length (players game) + 5 <= 52)%nat ->
  exists g1 g2 g3 g4,
    play_pre_flop shuffle pre_flop game = Some g1 /\
    play_flop flop g1 = Some g2 /\
    play_turn turn g2 = Some g3 /\
    play_river river g3 = Some g4 /\
    List.length (community_cards g4) = 5%nat /\
    Forall (fun cards => List.length cards = 2%nat) (map hand (players g4)) /\
    List.length (deck g4) = (47 - 2 * List.length (players game))%nat /\
    Permutation (cards_in_play g4) Deck.full /\
    NoDup (cards_in_play g4).
Proof.
  intros Hshuffle Hn Hseats.
  destruct (pre_flop_cards shuffle pre_flop game Hshuffle Hn)
    as (g1 & H1 & Hb1 & Hd1 & _ & Hh1 & Hp1); [lia|].
  destruct (flop_cards flop g1 Hb1)
    as (g2 & H2 & Hb2 & Hd2 & Hh2 & Hp2); [lia|].
  destruct (street_cards "Turn" turn g2)
    as (g3 & H3 & Hb3 & Hd3 & Hh3 & Hp3); [lia|].
  destruct (street_cards "River" river g3)
    as (g4 & H4 & Hb4 & Hd4 & Hh4 & Hp4); [lia|].
  exists g1, g2, g3, g4.
  assert (Hperm : Permutation (cards_in_play g4) Deck.full).
  { now rewrite Hp4, Hp3, Hp2. }
  split; [exact H1|]. split; [exact H2|]. split; [exact H3|].
  split; [exact H4|]. split; [lia|].
  split; [rewrite Hh4, Hh3, Hh2; exact Hh1|]. split; [lia|].
  split; [exact Hperm|].
  apply (Permutation_NoDup (Permutation_sym Hperm)), full_deck_distinct.
Qed.

Lemma X17_witness :
  exists g1 g2 g3 g4,
    play_pre_flop Ex.in_order Ex.bet_then_check Ex.heads_up = Some g1 /\
    play_flop Ex.all_check g1 = Some g2 /\
    play_turn Ex.all_check g2 = Some g3 /\
    play_river Ex.all_check g3 = Some g4 /\
    List.length (community_cards g4) = 5%nat /\
    Forall (fun cards => List.length cards = 2%nat) (map hand (players g4)) /\
    List.length (deck g4) = (47 - 2 * List.length (players Ex.heads_up))%nat /\
    Permutation (cards_in_play g4) Deck.full /\
    NoDup (cards_in_play g4).
Proof.
  apply X17_round_deals_each_card_once.
  - intros cards. apply Permutation_refl.
  - discriminate.
  - simpl. lia.
Defined.

(* ================================================================== *)
(** ** Further properties of the showdown *)

Section Comparison.

Lemma list_gt_irrefl a : Py.list_gt a a = false.
Proof.
  induction a as [|x a IH]; simpl; [reflexivity|].
  now rewrite Z.ltb_irrefl.
Qed.

Lemma list_gt_trans a : forall b c,
  Py.list_gt a b = true -> Py.list_gt b c = true -> Py.list_gt a c = true.
Proof.
  induction a as [|x a IH]; intros [|y b] [|z c]; simpl; try discriminate;
    try reflexivity.
  destruct (Z.ltb_spec y x), (Z.ltb_spec x y), (Z.ltb_spec z y),
    (Z.ltb_spec y z), (Z.ltb_spec z x), (Z.ltb_spec x z);
    try lia; try discriminate; try reflexivity.
  apply IH.
Qed.

Lemma list_gt_total a : forall b,
  Py.list_gt a b = false -> Py.list_gt b a = false -> a = b.
Proof.
  induction a as [|x a IH]; intros [|y b]; simpl; try discriminate;
    try reflexivity.
  destruct (Z.ltb_spec y x), (Z.ltb_spec x y); try lia; try discriminate.
  intros Hab Hba. assert (x = y) by lia. subst y. f_equal. now apply IH.
Qed.

Lemma beats_irrefl a : beats a a = false.
Proof.
  unfold beats. now rewrite Z.ltb_irrefl, Z.eqb_refl, list_gt_irrefl.
Qed.

Lemma beats_trans a b c :
  beats a b = true -> beats b c = true -> beats a c = true.
Proof.
  destruct a as [va ra], b as [vb rb], c as [vc rc]. unfold beats. simpl.
  destruct (Z.ltb_spec vb va), (Z.ltb_spec vc vb), (Z.ltb_spec vc va),
    (Z.eqb_spec va vb), (Z.eqb_spec vb vc), (Z.eqb_spec va vc);
    simpl; try lia; try discriminate; try reflexivity.
  apply list_gt_trans.
Qed.

Lemma beats_total a b : beats a b = false -> beats b a = false -> a = b.
Proof.
  destruct a as [va ra], b as [vb rb]. unfold beats. simpl.
  destruct (Z.ltb_spec vb va), (Z.ltb_spec va vb),
    (Z.eqb_spec va vb), (Z.eqb_spec vb va);
    simpl; try lia; try discriminate.
  intros Hab Hba. subst vb. f_equal. now apply list_gt_total.
Qed.

(** A score that beats the leader beats whatever the leader does not
    lose to. *)
Lemma beats_leader new leader other :
  beats new leader = true -> beats other leader = false ->
  beats new other = true.
Proof.
  intros Hnew Hother. destruct (beats leader other) eqn:Hlead.
  - exact (beats_trans _ _ _ Hnew Hlead).
  - now rewrite (beats_total _ _ Hother Hlead).
Qed.

Lemma better_beats hand_value best_ranks score :
  better hand_value best_ranks (Some score)
  = beats (hand_value, best_ranks) score.
Proof.
  destruct score as [v r]. unfold better, beats. simpl.
  destruct (v <? hand_value); reflexivity.
Qed.

End Comparison.

Lemma showdown_loop_leading community rest : forall done st st',
  leading community done st ->
  showdown_loop community rest st = Some st' ->
  leading community (done ++ rest) st' /\
  evaluated st'
  = evaluated st ++ map (fun p => (hand p, community)) rest.
Proof.
  induction rest as [|player rest IH]; intros done st st' Hlead; simpl.
  - intros H. inversion H; subst. now rewrite !app_nil_r.
  - destruct (evaluate_hand (hand player) community)
      as [[hand_value best_ranks]|] eqn:Heval; [|discriminate].
    intros Hloop.
    apply (IH (done ++ [player])) in Hloop.
    + destruct Hloop as [Hlead' Hcalls]. rewrite <- app_assoc in Hlead'.
      split; [exact Hlead'|]. rewrite Hcalls.
      destruct (better _ _ _); simpl; now rewrite <- app_assoc.
    + destruct Hlead as [(Hp & Hv & ->)|(w & score & Hp & Hv & Hname & Hfirst)].
      * rewrite Hv. simpl. right. exists player, (hand_value, best_ranks).
        simpl. repeat split.
        exists [], []. simpl. repeat split; [exact Heval| |]; intros q [].
      * rewrite Hv, better_beats.
        destruct Hfirst as (before & after & -> & Hw & Hbefore & Hafter).
        destruct (beats (hand_value, best_ranks) score) eqn:Hbeats.
        -- right. exists player, (hand_value, best_ranks). simpl.
           repeat split.
           exists (before ++ w :: after), []. repeat split; [exact Heval| |].
           ++ intros q Hq. apply in_app_or in Hq.
              destruct Hq as [Hq|[<-|Hq]].
              ** destruct (Hbefore q Hq) as (sq & Hsq & Hb).
                 exists sq. split; [exact Hsq|].
                 exact (beats_trans _ _ _ Hbeats Hb).
              ** exists score. auto.
              ** destruct (Hafter q Hq) as (sq & Hsq & Hb).
                 exists sq. split; [exact Hsq|].
                 exact (beats_leader _ _ _ Hbeats Hb).
           ++ intros q [].
        -- right. exists w, score. simpl. repeat split; try assumption.
           exists before, (after ++ [player]).
           rewrite <- app_assoc. simpl. repeat split; try assumption.
           intros q Hq. apply in_app_or in Hq. destruct Hq as [Hq|[<-|[]]].
           ++ now apply Hafter.
           ++ exists (hand_value, best_ranks). auto.
Qed.

Lemma showdown_loop_defined community rest : forall st,
  (forall p, In p rest -> List.length (hand p ++ community) <> 4%nat) ->
  exists st', showdown_loop community rest st = Some st'.
Proof.
  induction rest as [|player rest IH]; intros st Hcards; simpl; [eauto|].
  destruct (evaluate_hand_defined (hand player) community)
    as (hand_value & best_ranks & ->); [apply Hcards; simpl; auto|].
  apply IH. intros p Hp. apply Hcards. simpl. auto.
Qed.

Lemma leading_start community st :
  best_player st = None -> best_hand_value st = None ->
  leading community [] st.
Proof. intros Hp Hv. left. auto. Qed.

(** X18.  When every player still in the round holds a number of cards,
    board included, other than four, the showdown raises no exception;
    it evaluates the hand of each of these players once, in the order
    of the seats, and no other hand; and it names a winner unless no
    player is left. *)
Theorem X18_showdown_evaluates_the_active_players (game : PokerGame) :
  (forall p, In p (players game) -> is_active p = true ->
             List.length (hand p ++ community_cards game) <> 4%nat) ->
  exists r,
    determine_winner game = Some r /\
    evaluated r
    = map (fun p => (hand p, community_cards game))
        (filter is_active (players game)) /\
    (best_player r = None <-> filter is_active (players game) = []).
Proof.
  intros Hcards. unfold determine_winner.
  destruct (filter is_active (players game)) as [|p rest] eqn:Hactive.
  - eexists. split; [reflexivity|]. simpl. tauto.
  - set (start := {| best_hand_value := None; best_player := None;
                     winning_hand := EmptyString; showdown_log := log game;
                     evaluated := [] |}).
    destruct (showdown_loop_defined (community_cards game) (p :: rest) start)
      as (st & Hloop).
    { intros q Hq. rewrite <- Hactive in Hq. apply filter_In in Hq.
      destruct Hq as [Hq Hflag]. now apply Hcards. }
    rewrite Hloop. eexists. split; [reflexivity|]. cbn [evaluated best_player].
    destruct (showdown_loop_leading _ _ [] start st
                (leading_start _ start eq_refl eq_refl) Hloop)
      as [Hlead Hcalls].
    split; [exact Hcalls|].
    destruct Hlead as [(_ & _ & Hnil)|(w & score & Hw & _)].
    + discriminate Hnil.
    + rewrite Hw. split; discriminate.
Qed.

Lemma X18_witness :
  exists r,
    determine_winner More.showdown = Some r /\
    evaluated r
    = map (fun p => (hand p, community_cards More.showdown))
        (filter is_active (players More.showdown)) /\
    (best_player r = None <-> filter is_active (players More.showdown) = []).
Proof.
  apply X18_showdown_evaluates_the_active_players.
  intros p Hp _. simpl in Hp.
  destruct Hp as [<-|[<-|[<-|[<-|[]]]]]; discriminate.
Defined.

(** X19.  The winner of the showdown is a player still in the round:
    the first, in the order of the seats, whose evaluation no other
    player's beats.  Every player seated before the winner is beaten by
    the winner; of equal evaluations the first one wins.  The hand is
    described by the score of the winner. *)
Theorem X19_winner_is_the_first_best
    (game : PokerGame) (r : Showdown) (w : AIPlayer) :
  determine_winner game = Some r ->
  best_player r = Some w ->
  In w (players game) /\ is_active w = true /\
  exists score,
    best_hand_value r = Some score /\
    winning_hand r = describe_hand_value (fst score) /\
    first_best (community_cards game) (filter is_active (players game))
      w score.
Proof.
  unfold determine_winner.
  destruct (filter is_active (players game)) as [|p rest] eqn:Hactive.
  - intros H Hw. inversion H; subst r. discriminate Hw.
  - set (start := {| best_hand_value := None; best_player := None;
                     winning_hand := EmptyString; showdown_log := log game;
                     evaluated := [] |}).
    destruct (showdown_loop (community_cards game) (p :: rest) start)
      as [st|] eqn:Hloop; [|discriminate].
    intros H Hw. inversion H; subst r. cbn [best_player] in Hw.
    cbn [best_hand_value winning_hand].
    destruct (showdown_loop_leading _ _ [] start st
                (leading_start _ start eq_refl eq_refl) Hloop)
      as [[(Hnone & _)|(w' & score & Hw' & Hv & Hname & Hfirst)] _];
      [congruence|].
    assert (w' = w) by congruence. subst w'. cbn [app] in Hfirst.
    assert (Hin : In w (filter is_active (players game))).
    { rewrite Hactive. destruct Hfirst as (before & after & -> & _).
      apply in_or_app. simpl. auto. }
    apply filter_In in Hin. destruct Hin as [Hin Hflag].
    split; [exact Hin|]. split; [exact Hflag|]. eauto.
Qed.

Lemma X19_witness :
  In (More.seat "AI Player 2" [(9, hearts); (8, hearts)] true)
    (players More.showdown) /\
  is_active (More.seat "AI Player 2" [(9, hearts); (8, hearts)] true) = true /\
  exists score,
    Some (9, [12; 11; 10; 9; 8]) = Some score /\
    "Straight Flush"%string = describe_hand_value (fst score) /\
    first_best (community_cards More.showdown)
      (filter is_active (players More.showdown))
      (More.seat "AI Player 2" [(9, hearts); (8, hearts)] true) score.
Proof.
  apply (X19_winner_is_the_first_best More.showdown
           {| best_hand_value := Some (9, [12; 11; 10; 9; 8]);
              best_player :=
                Some (More.seat "AI Player 2" [(9, hearts); (8, hearts)] true);
              winning_hand := "Straight Flush";
              showdown_log :=
                [HandValue "AI Player 1" 2 [2; 12; 11; 10] "Two Pair";
                 HandValue "AI Player 2" 9 [12; 11; 10; 9; 8] "Straight Flush";
                 HandValue "AI Player 4" 5 [12; 11; 10; 9; 8] "Flush";
                 Winner "AI Player 2" [(9, hearts); (8, hearts)]
                   Ex.royal_board];
              evaluated :=
                [([(2, hearts); (7, clubs)], Ex.royal_board);
                 ([(9, hearts); (8, hearts)], Ex.royal_board);
                 ([(9, diamonds); (8, diamonds)], Ex.royal_board)] |}).
  - reflexivity.
  - reflexivity.
Defined.

(** X20.  The description that the showdown gives to a score is the name
    of the next stronger kind of hand: a hand that [evaluate_hand]
    scores as OnePair is described as "Two Pair", and so on up to
    FourOfAKind, described as "Straight Flush" like a straight flush
    itself; no evaluated hand is described as "High Card". *)
Theorem X20_description_is_one_kind_up
    (hand community : list Card) (hand_rank : Z) (best_ranks : list Z) :
  evaluate_hand hand community = Some (hand_rank, best_ranks) ->
  1 <= hand_rank <= 9 /\
  describe_hand_value hand_rank = category_name (Z.min 9 (hand_rank + 1)) /\
  describe_hand_value hand_rank <> "High Card"%string.
Proof.
  intros H. apply evaluate_hand_category in H.
  assert (Hrange : 1 <= hand_rank <= 9).
  { subst hand_rank. unfold category.
    repeat match goal with
           | |- context [if ?c then _ else _] => destruct c
           end; lia. }
  split; [exact Hrange|].
  assert (Hcases : hand_rank = 1 \/ hand_rank = 2 \/ hand_rank = 3 \/
                   hand_rank = 4 \/ hand_rank = 5 \/ hand_rank = 6 \/
                   hand_rank = 7 \/ hand_rank = 8 \/ hand_rank = 9) by lia.
  clear H Hrange.
  destruct Hcases as [->|[->|[->|[->|[->|[->|[->|[->| ->]]]]]]]];
    (split; [reflexivity|discriminate]).
Qed.

Lemma X20_witness :
  1 <= 7 <= 9 /\
  describe_hand_value 7 = category_name (Z.min 9 (7 + 1)) /\
  describe_hand_value 7 <> "High Card"%string.
Proof.
  apply (X20_description_is_one_kind_up Ex.fives_hand Ex.fives_board 7 [5; 9]).
  reflexivity.
Defined.

(* ================================================================== *)
(** ** Further properties of the decision boundary *)

(** X21.  [get_ai_decision] never sends a second request: with any
    positive number of attempts allowed the decision is that of the
    first answer alone. *)
Theorem X21_first_answer_decides
    (post post' : nat -> Ollama.Response) (n n' : nat) :
  post 0%nat = post' 0%nat ->
  Ollama.get_ai_decision post (S n) = Ollama.get_ai_decision post' (S n').
Proof.
  intros Hfirst. unfold Ollama.get_ai_decision. cbn [Ollama.attempts].
  rewrite <- Hfirst. destruct (post 0%nat) as [|content]; [reflexivity|].
  pose proof (OllamaFacts.sanitize_valid
                (Ollama.lower (Ollama.strip content))) as Hvalid.
  apply OllamaFacts.is_valid_In in Hvalid. now rewrite Hvalid.
Qed.

Lemma X21_witness :
  Ollama.get_ai_decision
    (fun attempt => match attempt with
                    | O => Ollama.Content "no idea"
                    | _ => Ollama.Content "raise"
                    end) 2
  = Ollama.get_ai_decision (fun _ => Ollama.Content "no idea") 1.
Proof.
  apply X21_first_answer_decides. reflexivity.
Defined.

(** X22.  Sanitizing is idempotent; on a text of ASCII characters the
    action found does not depend on the case of the letters nor on
    white space around the text. *)
Theorem X22_sanitize_decision_is_stable (text : string) :
  Ollama.sanitize_decision (Ollama.sanitize_decision text)
  = Ollama.sanitize_decision text /\
  (Ollama.is_ascii text = true ->
   Ollama.sanitize_decision (Ollama.lower text) = Ollama.sanitize_decision text /\
   Ollama.sanitize_decision (Ollama.strip text) = Ollama.sanitize_decision text).
Proof.
  split; [|intros _; split].
  - pose proof (OllamaFacts.sanitize_valid text) as Hvalid. simpl in Hvalid.
    destruct Hvalid as [H|[H|[H|[H|[]]]]]; rewrite <- H; reflexivity.
  - unfold Ollama.sanitize_decision. now rewrite OllamaFacts.lower_idem.
  - unfold Ollama.sanitize_decision.
    now rewrite OllamaFacts.lower_strip, OllamaFacts.search_strip.
Qed.

Lemma X22_witness :
  Ollama.sanitize_decision (Ollama.lower More.padded)
  = Ollama.sanitize_decision More.padded /\
  Ollama.sanitize_decision (Ollama.strip More.padded)
  = Ollama.sanitize_decision More.padded.
Proof.
  apply (X22_sanitize_decision_is_stable More.padded). reflexivity.
Defined.

Lemma find_first {A} (f : A -> bool) l x :
  find f l = Some x ->
  exists before after,
    l = before ++ x :: after /\ f x = true /\
    forall y, In y before -> f y = false.
Proof.
  induction l as [|a l IH]; simpl; [discriminate|].
  destruct (f a) eqn:Ha.
  - intros H. inversion H; subst. exists [], l. repeat split; auto.
    intros y [].
  - intros H. destruct (IH H) as (before & after & -> & Hx & Hbefore).
    exists (a :: before), after. repeat split; auto.
    intros y [<-|Hy]; auto.
Qed.

(** X23.  The model chosen always names one of "llama3", "command-r"
    and "qwen": it is the first listed model that does, and the default
    "llama3:latest" when none does, when the list cannot be fetched, or
    when the status is not 200. *)
Theorem X23_model_choice (tags : OllamaModels.TagsResponse) :
  OllamaModels.poker_compatible (OllamaModels.get_poker_compatible_model tags)
  = true /\
  ((exists before after,
       OllamaModels.get_available_models tags
       = before ++ OllamaModels.get_poker_compatible_model tags :: after /\
       forall model, In model before ->
                     OllamaModels.poker_compatible model = false) \/
   (OllamaModels.get_poker_compatible_model tags = "llama3:latest"%string /\
    forall model, In model (OllamaModels.get_available_models tags) ->
                  OllamaModels.poker_compatible model = false)) /\
  (OllamaModels.get_available_models tags = [] ->
   OllamaModels.get_poker_compatible_model tags = "llama3:latest"%string).
Proof.
  unfold OllamaModels.get_poker_compatible_model.
  destruct (find _ (OllamaModels.get_available_models tags)) as [model|] eqn:Hfind.
  - destruct (find_first _ _ _ Hfind) as (before & after & Hsplit & Hok & Hfirst).
    split; [exact Hok|]. split.
    + left. exists before, after. auto.
    + intros Hnil. rewrite Hnil in Hfind. discriminate Hfind.
  - split; [reflexivity|]. split; [|reflexivity].
    right. split; [reflexivity|]. intros model Hin.
    exact (find_none _ _ Hfind model Hin).
Qed.

Lemma X23_witness :
  OllamaModels.get_poker_compatible_model OllamaModels.TagsFailed
  = "llama3:latest"%string /\
  OllamaModels.get_poker_compatible_model More.listed = "qwen2:7b"%string.
Proof.
  destruct (X23_model_choice OllamaModels.TagsFailed) as (_ & _ & Hdefault).
  split; [apply Hdefault; reflexivity|].
  destruct (X23_model_choice More.listed)
    as (_ & [(before & after & Hsplit & Hfirst)|(_ & Hnone)] & _).
  - reflexivity.
  - specialize (Hnone "qwen2:7b"%string). simpl in Hnone.
    discriminate Hnone. auto.
Defined.
